(** * Privacy screen: detector suppression, embedder similarity, verifier and
      hysteresis decision engine

    Shallow embedding of [src/utils.py], [src/detector.py], [src/embedder.py],
    [src/verify.py] and [src/decision.py].

    Number model.  Python floats are idealised as exact numbers: rationals
    ([Q], executable) in the detector and the decision engine, whose
    arithmetic is [+ - * /] and comparisons only, and reals ([R]) in the
    embedder and the verifier, whose norms need a square root.  Rounding,
    NaN and infinities are outside the model. *)

From Stdlib Require Import Bool ZArith QArith List String Lia Lqa.
From Stdlib Require Import Reals Lra.
From Stdlib Require Import Sorted Permutation Qround Ascii.
Import ListNotations.

(** Both [Lqa] and [Lra] export a tactic called [lra]; name them apart. *)
Ltac qlra := Lqa.lra.
Ltac rlra := Lra.lra.
Ltac qnra := Lqa.nra.

(** ** Python exceptions as results *)

Module Py.

Inductive exn : Type :=
| NameError
| TypeError
| ValueError
| ZeroDivisionError
| CvError.

Inductive result (A : Type) : Type :=
| Ok (a : A)
| Raise (e : exn).
Arguments Ok {A} a.
Arguments Raise {A} e.

Definition bind {A B : Type} (r : result A) (k : A -> result B) : result B :=
  match r with
  | Ok a => k a
  | Raise e => Raise e
  end.

Definition is_ok {A : Type} (r : result A) : bool :=
  match r with Ok _ => true | Raise _ => false end.

Declare Scope py_scope.
Delimit Scope py_scope with py.
Notation "x <- r ;; k" := (bind r (fun x => k))
  (at level 61, r at next level, right associativity) : py_scope.

(** A Python value, as far as name lookup needs to tell them apart. *)
Inductive PyVal : Type :=
| VInt (z : Z)
| VObj (name : string).

Fixpoint assoc {A : Type} (k : string) (l : list (string * A)) : option A :=
  match l with
  | [] => None
  | (k', v) :: l' => if String.eqb k k' then Some v else assoc k l'
  end.

(** Reading a name: [NameError] when no scope binds it. *)
Definition load_name (env : list (string * PyVal)) (name : string)
  : result PyVal :=
  match assoc name env with
  | Some v => Ok v
  | None => Raise NameError
  end.

Definition as_int (v : PyVal) : result Z :=
  match v with
  | VInt z => Ok z
  | VObj _ => Raise TypeError
  end.

End Py.

(** ** Python built-ins on rationals *)

Module PyQ.
Local Open Scope Q_scope.

Definition Qltb (a b : Q) : bool := negb (Qle_bool b a).

(** [max(a, b)]: the first argument unless the second is strictly greater. *)
Definition py_max (a b : Q) : Q := if Qltb a b then b else a.

(** [min(a, b)]: the first argument unless the second is strictly smaller. *)
Definition py_min (a b : Q) : Q := if Qltb b a then b else a.

End PyQ.

(** ** [utils.py]: geometry and result records *)

Module Utils.
Import PyQ.
Local Open Scope Q_scope.

Record BoundingBox := mkBoundingBox {
  x_min : Q;
  y_min : Q;
  x_max : Q;
  y_max : Q
}.

Definition width (b : BoundingBox) : Q := x_max b - x_min b.
Definition height (b : BoundingBox) : Q := y_max b - y_min b.
Definition area (b : BoundingBox) : Q := width b * height b.

Record FaceDetectionResult := mkFaceDetectionResult {
  boxes : list BoundingBox;
  confidences : list Q;
  timestamp_ms : Z
}.

(** The f-string chosen for [reason], with its arguments before they are
    formatted; [NoReason] is the initial empty string. *)
Inductive Reason : Type :=
| NoReason
| RiskOther (other_faces : Z) (score : Q)
| RiskFaces (total_faces other_faces : Z)
| SafeIdentities (me_faces other_faces : Z)
| SafeFaces (total_faces : Z)
| HoldingBlur (remaining_time : Q) (remaining_frames : Z).

Record PrivacyDecision := mkPrivacyDecision {
  privacy_on : bool;
  reason : Reason;
  risk_score : Q;
  other_face_count : Z
}.

End Utils.

(** ** [detector.py]: candidate filtering and greedy suppression *)

Module Detector.
Import PyQ Utils.
Local Open Scope Q_scope.

(** A box as the detector carries it: the tuple [(x_min, y_min, x_max, y_max)]. *)
Definition Box4 : Type := (Q * Q * Q * Q)%type.

(** The dict appended to [all_detections]. *)
Record Detection := mkDetection {
  box : Box4;
  confidence : Q;
  det_area : Q;
  cascade : string
}.

(** A raw rectangle [(x, y, fw, fh)] returned by [detectMultiScale]. *)
Record Rect := mkRect { rx : Z; ry : Z; rw : Z; rh : Z }.

(** Body of the loop over [faces] in [detect]: [None] is [continue].  A
    frame has positive width and height. *)
Definition candidate (w h : Z) (cascade_name : string) (r : Rect)
  : option Detection :=
  let face_area := (rw r * rh r)%Z in
  let frame_area := (w * h)%Z in
  let area_ratio := inject_Z face_area / inject_Z frame_area in
  if Qltb area_ratio (2 # 1000) then None
  else if Qltb (5 # 10) area_ratio then None
  else
    let x_min := py_max 0 (inject_Z (rx r) / inject_Z w) in
    let y_min := py_max 0 (inject_Z (ry r) / inject_Z h) in
    let x_max := py_min 1 (inject_Z (rx r + rw r) / inject_Z w) in
    let y_max := py_min 1 (inject_Z (ry r + rh r) / inject_Z h) in
    let base_confidence :=
      if String.eqb cascade_name "frontal" then 7 # 10 else 6 # 10 in
    let size_confidence := py_min 1 (area_ratio * 100) in
    let confidence := base_confidence + size_confidence * (2 # 10) in
    Some (mkDetection (x_min, y_min, x_max, y_max) confidence area_ratio
            cascade_name).

Fixpoint filter_some {A : Type} (l : list (option A)) : list A :=
  match l with
  | [] => []
  | Some a :: l' => a :: filter_some l'
  | None :: l' => filter_some l'
  end.

(** One pass of the loop over [self.cascades].  The classifier itself is
    external: its answer for the frame is an input, [None] when
    [detectMultiScale] raised (the candidates of that cascade are dropped). *)
Definition cascade_candidates (w h : Z)
  (c : string * option (list Rect)) : list Detection :=
  match snd c with
  | None => []
  | Some faces => filter_some (map (candidate w h (fst c)) faces)
  end.

Definition all_detections (w h : Z)
  (cascades : list (string * option (list Rect))) : list Detection :=
  flat_map (cascade_candidates w h) cascades.

Definition _compute_iou (box1 box2 : Box4) : Q :=
  let '(x1_min, y1_min, x1_max, y1_max) := box1 in
  let '(x2_min, y2_min, x2_max, y2_max) := box2 in
  let inter_x_min := py_max x1_min x2_min in
  let inter_y_min := py_max y1_min y2_min in
  let inter_x_max := py_min x1_max x2_max in
  let inter_y_max := py_min y1_max y2_max in
  if Qle_bool inter_x_max inter_x_min || Qle_bool inter_y_max inter_y_min
  then 0
  else
    let inter_area :=
      (inter_x_max - inter_x_min) * (inter_y_max - inter_y_min) in
    let box1_area := (x1_max - x1_min) * (y1_max - y1_min) in
    let box2_area := (x2_max - x2_min) * (y2_max - y2_min) in
    let union_area := box1_area + box2_area - inter_area in
    if Qltb 0 union_area then inter_area / union_area else 0.

(** [sorted(detections, key=confidence, reverse=True)]: descending and
    stable (equal confidences keep their input order). *)
Fixpoint insert_desc (d : Detection) (l : list Detection) : list Detection :=
  match l with
  | [] => [d]
  | e :: l' =>
      if Qltb (confidence d) (confidence e) then e :: insert_desc d l'
      else d :: e :: l'
  end.

Definition sorted_desc (l : list Detection) : list Detection :=
  fold_right insert_desc [] l.

(** The inner [for kept_det in kept] loop with its [break]. *)
Definition should_keep (iou_threshold : Q) (current : Detection)
  (kept : list Detection) : bool :=
  negb (existsb
          (fun kept_det =>
             Qltb iou_threshold (_compute_iou (box current) (box kept_det)))
          kept).

Fixpoint nms_loop (iou_threshold : Q) (sorted_dets kept : list Detection)
  : list Detection :=
  match sorted_dets with
  | [] => kept
  | current :: rest =>
      if should_keep iou_threshold current kept
      then nms_loop iou_threshold rest (kept ++ [current])
      else nms_loop iou_threshold rest kept
  end.

Definition _nms (detections : list Detection) (iou_threshold : Q)
  : list Detection :=
  match detections with
  | [] => []
  | _ => nms_loop iou_threshold (sorted_desc detections) []
  end.

(** The threshold [detect] passes to [_nms]. *)
Definition detect_iou_threshold : Q := 15 # 100.

Definition to_bounding_box (d : Detection) : BoundingBox :=
  let '(x_min, y_min, x_max, y_max) := box d in
  mkBoundingBox x_min y_min x_max y_max.

(** [detect], from the cascades' answers on: filtering, suppression and the
    output record.  [now_ms] is the reading of [current_time_ms()]. *)
Definition detect (w h : Z) (cascades : list (string * option (list Rect)))
  (now_ms : Z) : FaceDetectionResult :=
  let filtered_detections :=
    _nms (all_detections w h cascades) detect_iou_threshold in
  mkFaceDetectionResult (map to_bounding_box filtered_detections)
    (map confidence filtered_detections) now_ms.

(** Position-wise reading of "two retained boxes": two different places of
    the suppressed list. *)
Definition retained_pair (kept : list Detection) (a b : Detection) : Prop :=
  exists i j, i <> j /\ nth_error kept i = Some a /\ nth_error kept j = Some b.

(** Every later entry of [kept] was tested against every earlier one. *)
Definition pairwise_tested (thr : Q) (kept : list Detection) : Prop :=
  forall i j a b, (i < j)%nat ->
    nth_error kept i = Some a -> nth_error kept j = Some b ->
    _compute_iou (box b) (box a) <= thr.

(** The suppression invariant with a strict bound, for [detect]'s threshold. *)
Definition strictly_separated (detections : list Detection) : Prop :=
  forall a b,
    retained_pair (_nms detections detect_iou_threshold) a b ->
    _compute_iou (box a) (box b) < detect_iou_threshold.

(** Two 23x23 squares 17 pixels apart in a 100x100 frame, both found by the
    frontal cascade. *)
Definition touching_faces : list (string * option (list Rect)) :=
  [("frontal"%string, Some [mkRect 0 0 23 23; mkRect 17 0 23 23])].

(** What [detect] keeps of them. *)
Definition touching_kept : list Detection :=
  Eval vm_compute in
    _nms (all_detections 100 100 touching_faces) detect_iou_threshold.

End Detector.

(** ** [embedder.py]: descriptors and their similarity *)

Module Embedder.
Import Py.
Local Open Scope R_scope.
Local Open Scope py_scope.

Definition Vec : Type := list R.

(** A [numpy] image: its shape and its flattened samples. *)
Record Image := mkImage {
  img_rows : nat;
  img_cols : nat;
  img_channels : nat;
  img_data : list Z
}.

(** [ndarray.size]. *)
Definition size (img : Image) : nat :=
  (img_rows img * img_cols img * img_channels img)%nat.

Inductive ColorCode : Type := COLOR_BGR2GRAY | COLOR_BGR2HSV.

(** Arguments of [cv2.HOGDescriptor]. *)
Record HogParams := mkHogParams {
  winSize : Z * Z;
  blockSize : Z * Z;
  blockStride : Z * Z;
  cellSize : Z * Z;
  nBins : Z
}.

(** The OpenCV and NumPy operations the embedder calls; each may raise. *)
Class Cv2 := {
  Net : Type;
  resize : Image -> nat * nat -> result Image;
  cvtColor : Image -> ColorCode -> result Image;
  (** [cv2.HOGDescriptor(...).compute(img).flatten()] *)
  hog_compute : HogParams -> Image -> result Vec;
  (** [cv2.calcHist([img], [channel], None, [bins], [lo, hi]).flatten()] *)
  calcHist : Image -> nat -> nat -> Z * Z -> result Vec;
  (** [blobFromImage], [setInput], [forward] and [flatten] *)
  dnn_forward : Net -> Image -> result Vec;
  (** the samples [np.random.randn] hands out at this call *)
  randn_draw : nat -> R;
  (** the names of the [builtins] module *)
  builtins : list (string * PyVal)
}.

Definition randn `{Cv2} (n : nat) : Vec := map randn_draw (seq 0 n).

Definition zeros (n : nat) : Vec := repeat 0 n.

(** [np.linalg.norm] of a 1-D array. *)
Definition norm (v : Vec) : R :=
  sqrt (fold_right (fun x acc => x * x + acc) 0 v).

(** [1e-8] *)
Definition eps : R := / 100000000.

(** [v / (np.linalg.norm(v) + 1e-8)].  Over the reals the quotient is
    shorter than a unit vector whatever [v] is; a float norm can absorb
    the [1e-8], so the statements on [similarity] and on the enrolled
    template give ranges and values at given inputs, and none says how far
    a result stays from 1 or 0. *)
Definition l2_normalize (v : Vec) : Vec :=
  map (fun x => x / (norm v + eps)) v.

(** [np.dot] of two 1-D arrays: [ValueError] when the shapes differ. *)
Fixpoint dot (a b : Vec) : result R :=
  match a, b with
  | [], [] => Ok 0
  | x :: a', y :: b' => s <- dot a' b' ;; Ok (x * y + s)
  | _, _ => Raise ValueError
  end.

Definition py_max (a b : R) : R := if Rlt_dec a b then b else a.
Definition py_min (a b : R) : R := if Rlt_dec b a then b else a.

Record FaceEmbedder `{Cv2} := mkFaceEmbedder {
  use_dnn : bool;
  net : option Net;
  embedding_size : nat
}.
Arguments mkFaceEmbedder {_} _ _ _.

(** Names bound at module level in [embedder.py]. *)
Definition module_globals : list (string * PyVal) :=
  [("cv2", VObj "module"); ("np", VObj "module");
   ("Optional", VObj "typing"); ("Tuple", VObj "typing");
   ("os", VObj "module"); ("FaceEmbedder", VObj "class")]%string.

(** Locals of [_compute_feature_embedding] once [gray] is assigned. *)
Definition feature_locals : list (string * PyVal) :=
  [("self", VObj "FaceEmbedder"); ("face_crop", VObj "ndarray");
   ("face_resized", VObj "ndarray"); ("gray", VObj "ndarray")]%string.

Definition feature_scope `{Cv2} : list (string * PyVal) :=
  feature_locals ++ module_globals ++ builtins.

(** Truncate to [n] entries, then zero-pad up to [n]. *)
Definition fit_length (n : nat) (v : Vec) : Vec :=
  let v' := firstn n v in
  if (List.length v' <? n)%nat then v' ++ repeat 0 (n - List.length v') else v'.

(** Assembly of the descriptor from both feature groups (the statements
    after [color_features] is built). *)
Definition assemble (n : nat) (hog_features color_features : Vec) : Vec :=
  let embedding := firstn 80 hog_features ++ firstn 48 color_features in
  l2_normalize (fit_length n embedding).

(** The [try] block of [_compute_feature_embedding].  The window size of
    the HOG descriptor is written [(_64, 128)]: its first component is a
    name, looked up when the tuple is built. *)
Definition feature_try `{Cv2} (n : nat) (face_crop : Image) : result Vec :=
  face_resized <- resize face_crop (100%nat, 100%nat) ;;
  gray <- cvtColor face_resized COLOR_BGR2GRAY ;;
  v64 <- load_name feature_scope "_64" ;;
  win_w <- as_int v64 ;;
  hog_features <-
    hog_compute (mkHogParams (win_w, 128%Z) (8, 8)%Z (4, 4)%Z (8, 8)%Z 9%Z)
      gray ;;
  hsv <- cvtColor face_resized COLOR_BGR2HSV ;;
  hist_h <- calcHist hsv 0%nat 16%nat (0, 180)%Z ;;
  hist_s <- calcHist hsv 1%nat 8%nat (0, 256)%Z ;;
  hist_v <- calcHist hsv 2%nat 8%nat (0, 256)%Z ;;
  let color_features := hist_h ++ hist_s ++ hist_v in
  Ok (assemble n hog_features color_features).

(** [try ... except Exception: return np.random.randn(embedding_size)]. *)
Definition _compute_feature_embedding `{Cv2} (self : FaceEmbedder)
  (face_crop : Image) : Vec :=
  match feature_try (embedding_size self) face_crop with
  | Ok embedding => embedding
  | Raise _ => randn (embedding_size self)
  end.

(** On failure the DNN strategy is switched off for later calls. *)
Definition _compute_dnn_embedding `{Cv2} (self : FaceEmbedder)
  (the_net : Net) (face_crop : Image) : Vec * FaceEmbedder :=
  match dnn_forward the_net face_crop with
  | Ok embedding => (l2_normalize embedding, self)
  | Raise _ =>
      let self' := mkFaceEmbedder false (net self) (embedding_size self) in
      (_compute_feature_embedding self' face_crop, self')
  end.

(** [face_crop] is [None] or an array. *)
Definition compute_embedding `{Cv2} (self : FaceEmbedder)
  (face_crop : option Image) : Vec * FaceEmbedder :=
  match face_crop with
  | None => (zeros (embedding_size self), self)
  | Some crop =>
      if (size crop =? 0)%nat then (zeros (embedding_size self), self)
      else
        match use_dnn self, net self with
        | true, Some the_net => _compute_dnn_embedding self the_net crop
        | _, _ => (_compute_feature_embedding self crop, self)
        end
  end.

(** [FaceEmbedder.__init__] when no model file is found. *)
Definition new_embedder `{Cv2} : FaceEmbedder := mkFaceEmbedder false None 128.

(** [similarity]; it reads no field of [self]. *)
Definition similarity (embedding1 embedding2 : option Vec) : result R :=
  match embedding1, embedding2 with
  | Some a, Some b =>
      if (List.length a =? 0)%nat || (List.length b =? 0)%nat then Ok 0
      else
        let e1 := l2_normalize a in
        let e2 := l2_normalize b in
        similarity_score <- dot e1 e2 ;;
        Ok (py_max 0 (py_min 1 ((similarity_score + 1) / 2)))
  | _, _ => Ok 0
  end.

(** Sum of squares under the root of [norm]. *)
Definition sumsq (v : Vec) : R := fold_right (fun x acc => x * x + acc) 0 v.

(** The descriptor the feature strategy is written to produce, following
    its docstring and comments (HOG over a 64x128 window, then the colour
    histograms): the [try] block with the window size [(64, 128)]. *)
Definition intended_features `{Cv2} (n : nat) (face_crop : Image)
  : result Vec :=
  face_resized <- resize face_crop (100%nat, 100%nat) ;;
  gray <- cvtColor face_resized COLOR_BGR2GRAY ;;
  hog_features <-
    hog_compute (mkHogParams (64, 128)%Z (8, 8)%Z (4, 4)%Z (8, 8)%Z 9%Z)
      gray ;;
  hsv <- cvtColor face_resized COLOR_BGR2HSV ;;
  hist_h <- calcHist hsv 0%nat 16%nat (0, 180)%Z ;;
  hist_s <- calcHist hsv 1%nat 8%nat (0, 256)%Z ;;
  hist_v <- calcHist hsv 2%nat 8%nat (0, 256)%Z ;;
  let color_features := hist_h ++ hist_s ++ hist_v in
  Ok (assemble n hog_features color_features).

(** The pretrained strategy is not in use. *)
Definition dnn_unavailable `{Cv2} (self : FaceEmbedder) : Prop :=
  use_dnn self = false \/ net self = None.



(** The fallback vector has unit norm. *)
Definition unit_fallback `{Cv2} (self : FaceEmbedder) (crop : Image) : Prop :=
  norm (fst (compute_embedding self (Some crop))) = 1.

(** *** A stand-in for OpenCV

    Images pass through unchanged, the HOG descriptor is the single value 1,
    the histograms are empty, and every sample drawn is 1. *)
#[local] Instance plain_cv2 : Cv2 := {|
  Net := unit;
  resize := fun img _ => Ok img;
  cvtColor := fun img _ => Ok img;
  hog_compute := fun _ _ => Ok [1];
  calcHist := fun _ _ _ _ => Ok [];
  dnn_forward := fun _ _ => Raise CvError;
  randn_draw := fun _ => 1;
  builtins := [("len", VObj "builtin"); ("max", VObj "builtin");
               ("min", VObj "builtin"); ("print", VObj "builtin");
               ("Exception", VObj "builtin")]%string
|}.

(** A 2x2 BGR crop. *)
Definition small_crop : Image :=
  mkImage 2 2 3 [10; 20; 30; 10; 20; 30; 10; 20; 30; 10; 20; 30]%Z.

End Embedder.

(** ** [verify.py]: thresholded match against the enrolled template *)

Module Verify.
Import Py Utils.
Local Open Scope R_scope.
Local Open Scope py_scope.

Record FaceIdentity := mkFaceIdentity {
  label : string;
  similarity : R;
  box : BoundingBox;
  embedding : Embedder.Vec
}.

(** [self.embedder] is left out: the verifier only calls its [similarity],
    which reads no field of the embedder. *)
Record FaceVerifier := mkFaceVerifier {
  template_embedding : option Embedder.Vec;
  similarity_threshold : R
}.

Definition is_enabled (self : FaceVerifier) : bool :=
  match template_embedding self with
  | Some _ => true
  | None => false
  end.

Definition verify (self : FaceVerifier) (embedding : Embedder.Vec)
  : result (string * R) :=
  if negb (is_enabled self) then Ok ("OTHER"%string, 0)
  else
    sim <- Embedder.similarity (Some embedding) (template_embedding self) ;;
    if Rge_dec sim (similarity_threshold self)
    then Ok ("ME"%string, sim)
    else Ok ("OTHER"%string, sim).

(** [zip] stops at the shorter argument. *)
Fixpoint verify_batch (self : FaceVerifier)
  (embeddings : list Embedder.Vec) (boxes : list BoundingBox)
  : result (list FaceIdentity) :=
  match embeddings, boxes with
  | e :: es, b :: bs =>
      r <- verify self e ;;
      rest <- verify_batch self es bs ;;
      Ok (mkFaceIdentity (fst r) (snd r) b e :: rest)
  | _, _ => Ok []
  end.

Definition update_threshold (self : FaceVerifier) (new_threshold : R)
  : FaceVerifier :=
  mkFaceVerifier (template_embedding self)
    (Embedder.py_max 0 (Embedder.py_min 1 new_threshold)).

End Verify.

(** ** [decision.py]: the hysteresis engine *)

Module Decision.
Import Py PyQ Utils.
Local Open Scope Q_scope.
Local Open Scope py_scope.

(** The engine's fields.  [last_other_positions] and
    [position_stability_frames] are never read or written after
    construction and are left out. *)
Record Engine := mkEngine {
  face_count_threshold : Z;
  area_ratio_threshold : Q;
  debounce_on_frames : Z;
  debounce_off_seconds : Q;
  debounce_off_frames : Z;
  use_identity_verification : bool;
  privacy_on : bool;
  risk_counter : Z;
  safe_frame_counter : Z;
  safe_start_time : option Q;
  decision_history : list (Q * PrivacyDecision)
}.

(** [__init__]. *)
Definition new_engine (fct : Z) (art : Q) (on_frames : Z) (off_seconds : Q)
  (off_frames : Z) (use_iv : bool) : Engine :=
  mkEngine fct art on_frames off_seconds off_frames use_iv false 0 0 None [].

(** [__init__] with every default. *)
Definition default_engine : Engine :=
  new_engine 2 (2 # 100) 2 (8 # 10) 30 false.

(** What one call of [decide] receives.  [now k] is the value of the
    [k]-th call of [time.time()] made during the call, counted from 0. *)
Record Tick := mkTick {
  now : nat -> Q;
  detection_result : FaceDetectionResult;
  frame_width : Z;
  frame_height : Z;
  identities : option (list Verify.FaceIdentity)
}.

(** [box.area() * frame_area / frame_area]; the coordinates are declared
    [float], and dividing a float by the integer 0 raises. *)
Definition area_ratio (frame_area : Z) (box : BoundingBox) : result Q :=
  let box_area_normalized := area box in
  let box_area_pixels := box_area_normalized * inject_Z frame_area in
  if (frame_area =? 0)%Z then Raise ZeroDivisionError
  else Ok (box_area_pixels / inject_Z frame_area).

(** One iteration of either counting loop, on [(count, risk_score)]. *)
Definition count_step (threshold : Q) (frame_area : Z) (acc : Z * Q)
  (box : BoundingBox) : result (Z * Q) :=
  ratio <- area_ratio frame_area box ;;
  if Qle_bool threshold ratio
  then Ok ((fst acc + 1)%Z, py_max (snd acc) ratio)
  else Ok acc.

Fixpoint count_loop (threshold : Q) (frame_area : Z) (boxes : list BoundingBox)
  (acc : Z * Q) : result (Z * Q) :=
  match boxes with
  | [] => Ok acc
  | box :: rest =>
      acc' <- count_step threshold frame_area acc box ;;
      count_loop threshold frame_area rest acc'
  end.

Definition has_label (l : string) (f : Verify.FaceIdentity) : bool :=
  String.eqb (Verify.label f) l.

(** The values computed before the debounce logic. *)
Record Counts := mkCounts {
  c_other_face_count : Z;
  c_risk_score : Q;
  c_me_face_count : Z;
  c_total_faces : Z
}.

Definition count_faces (self : Engine) (t : Tick) : result Counts :=
  let frame_area := (frame_width t * frame_height t)%Z in
  match use_identity_verification self, identities t with
  | true, Some ids =>
      let other_faces := filter (has_label "OTHER") ids in
      acc <- count_loop (area_ratio_threshold self) frame_area
               (map Verify.box other_faces) (0%Z, 0) ;;
      let me_face_count :=
        Z.of_nat (List.length (filter (has_label "ME") ids)) in
      Ok (mkCounts (fst acc) (snd acc) me_face_count
            (Z.of_nat (List.length ids)))
  | _, _ =>
      acc <- count_loop (area_ratio_threshold self) frame_area
               (boxes (detection_result t)) (0%Z, 0) ;;
      let visible_face_count := fst acc in
      Ok (mkCounts (Z.max 0 (visible_face_count - 1)) (snd acc)
            (if (0 <? visible_face_count)%Z then 1%Z else 0%Z)
            (Z.of_nat (List.length (boxes (detection_result t)))))
  end.

Definition is_risky (self : Engine) (c : Counts) : bool :=
  (face_count_threshold self <=? c_other_face_count c)%Z.

(** [self.decision_history[-100:]] and its guard. *)
Definition bounded_append (h : list (Q * PrivacyDecision))
  (entry : Q * PrivacyDecision) : list (Q * PrivacyDecision) :=
  let h' := h ++ [entry] in
  if (100 <? List.length h')%nat then skipn (List.length h' - 100) h' else h'.

(** The debounce logic and the bookkeeping after it.  The result carries
    the engine as the call leaves it. *)
Definition transition (self : Engine) (t : Tick) (c : Counts)
  : PrivacyDecision * Engine :=
  let '(po, rc, sfc, sst, reason, reads) :=
    if is_risky self c then
      let rc := (risk_counter self + 1)%Z in
      if (debounce_on_frames self <=? rc)%Z then
        (true, rc, 0%Z, @None Q,
         (if use_identity_verification self
          then RiskOther (c_other_face_count c) (c_risk_score c)
          else RiskFaces (c_total_faces c) (c_other_face_count c)),
         0%nat)
      else (privacy_on self, rc, 0%Z, @None Q, NoReason, 0%nat)
    else
      let sfc := (safe_frame_counter self + 1)%Z in
      let '(start, reads) :=
        match safe_start_time self with
        | None => (now t 0%nat, 1%nat)
        | Some s => (s, 0%nat)
        end in
      let time_safe := now t reads - start in
      if Qle_bool (debounce_off_seconds self) time_safe
         && (debounce_off_frames self <=? sfc)%Z
      then
        (false, 0%Z, 0%Z, Some start,
         (if use_identity_verification self
          then SafeIdentities (c_me_face_count c) (c_other_face_count c)
          else SafeFaces (c_total_faces c)),
         S reads)
      else
        let remaining_time := py_max 0 (debounce_off_seconds self - time_safe) in
        let remaining_frames := Z.max 0 (debounce_off_frames self - sfc) in
        (privacy_on self, 0%Z, sfc, Some start,
         HoldingBlur remaining_time remaining_frames, S reads) in
  let decision :=
    mkPrivacyDecision po reason (c_risk_score c) (c_other_face_count c) in
  (decision,
   mkEngine (face_count_threshold self) (area_ratio_threshold self)
     (debounce_on_frames self) (debounce_off_seconds self)
     (debounce_off_frames self) (use_identity_verification self)
     po rc sfc sst
     (bounded_append (decision_history self) (now t reads, decision))).

(** [decide]: an exception leaves before any field is assigned. *)
Definition decide (self : Engine) (t : Tick)
  : result (PrivacyDecision * Engine) :=
  c <- count_faces self t ;;
  Ok (transition self t c).

Definition reset (self : Engine) : Engine :=
  mkEngine (face_count_threshold self) (area_ratio_threshold self)
    (debounce_on_frames self) (debounce_off_seconds self)
    (debounce_off_frames self) (use_identity_verification self)
    false 0 0 None (decision_history self).

(** A sequence of [decide] calls on one engine: the outcome of each call in
    order and the engine afterwards.  A call that raises changes nothing. *)
Fixpoint run (self : Engine) (ticks : list Tick)
  : list (result PrivacyDecision) * Engine :=
  match ticks with
  | [] => ([], self)
  | t :: rest =>
      match decide self t with
      | Ok (d, self') =>
          let '(ds, final) := run self' rest in (Ok d :: ds, final)
      | Raise e =>
          let '(ds, final) := run self rest in (Raise e :: ds, final)
      end
  end.

(** The engine a sequence of calls leaves behind, and the decisions of the
    calls that returned, in order. *)
Definition after (self : Engine) (ticks : list Tick) : Engine :=
  snd (run self ticks).

Fixpoint returned (outs : list (result PrivacyDecision))
  : list PrivacyDecision :=
  match outs with
  | [] => []
  | Ok d :: rest => d :: returned rest
  | Raise _ :: rest => returned rest
  end.

Definition decisions (self : Engine) (ticks : list Tick)
  : list PrivacyDecision :=
  returned (fst (run self ticks)).

(** A tick is safe (risky) for an engine when the counting succeeds and
    [is_risky] is false (true). *)
Definition safe_tick (self : Engine) (t : Tick) : bool :=
  match count_faces self t with
  | Ok c => negb (is_risky self c)
  | Raise _ => false
  end.

Definition risky_tick (self : Engine) (t : Tick) : bool :=
  match count_faces self t with
  | Ok c => is_risky self c
  | Raise _ => false
  end.

(** The safe branch's [safe_start_time] after its [if ... is None], the
    [time_safe] it computes and the counter after its increment. *)
Definition safe_start (self : Engine) (t : Tick) : Q :=
  match safe_start_time self with
  | None => now t 0%nat
  | Some s => s
  end.

Definition time_safe (self : Engine) (t : Tick) : Q :=
  match safe_start_time self with
  | None => now t 1%nat - now t 0%nat
  | Some s => now t 0%nat - s
  end.

Definition safe_frames (self : Engine) : Z := (safe_frame_counter self + 1)%Z.

(** The fields [__init__] sets from its arguments; [decide] only reads them. *)
Definition config (self : Engine) : Z * Q * Z * Q * Z * bool :=
  (face_count_threshold self, area_ratio_threshold self,
   debounce_on_frames self, debounce_off_seconds self,
   debounce_off_frames self, use_identity_verification self).

(** The off-condition of the safe branch. *)
Definition off_condition (self : Engine) (t : Tick) : bool :=
  Qle_bool (debounce_off_seconds self) (time_safe self t)
  && (debounce_off_frames self <=? safe_frames self)%Z.

(** For a run of consecutive safe ticks [safes] followed by the safe tick
    [last]: the time from the first of them to [last], as the engine
    measures it. *)
Definition elapsed_since_first (safes : list Tick) (last : Tick) : Q :=
  match safes with
  | [] => now last 1%nat - now last 0%nat
  | first :: _ => now last 0%nat - now first 0%nat
  end.

(** The last [n] entries of a list: [l[-n:]] for [n > 0]. *)
Definition lastn {A : Type} (n : nat) (l : list A) : list A :=
  skipn (List.length l - n) l.

(** The area ratio of a box when the division is defined. *)
Definition ratio (frame_area : Z) (box : BoundingBox) : Q :=
  area box * inject_Z frame_area / inject_Z frame_area.

(** The area ratios of the detected boxes that reach the threshold. *)
Definition qualifying_ratios (self : Engine) (t : Tick) : list Q :=
  filter (Qle_bool (area_ratio_threshold self))
    (map (ratio (frame_width t * frame_height t)) (boxes (detection_result t))).

(** [m] is the greatest element of [l] (up to equality of rationals), or
    the literal 0 when [l] is empty. *)
Definition max_or_zero (l : list Q) (m : Q) : Prop :=
  match l with
  | [] => m = 0
  | _ => (exists x, In x l /\ x == m) /\ forall x, In x l -> x <= m
  end.

(** The data model's invariant on boxes. *)
Definition well_formed (b : BoundingBox) : Prop :=
  x_min b < x_max b /\ y_min b < y_max b.

(** *** Scenarios *)

(** Three faces of area ratio 0.04 each: two others beside the user. *)
Definition crowd : FaceDetectionResult :=
  mkFaceDetectionResult
    [mkBoundingBox 0 0 (2 # 10) (2 # 10);
     mkBoundingBox (3 # 10) 0 (5 # 10) (2 # 10);
     mkBoundingBox (6 # 10) 0 (8 # 10) (2 # 10)]
    [9 # 10; 9 # 10; 9 # 10] 0.

Definition empty_scene : FaceDetectionResult := mkFaceDetectionResult [] [] 0.

(** A tick during which the clock reads [time] throughout. *)
Definition tick_at (time : Q) (scene : FaceDetectionResult) : Tick :=
  mkTick (fun _ => time) scene 320 240 None.

(** [n] empty-scene ticks at [start + step], [start + 2 * step], ... *)
Definition safe_ticks (start step : Q) (n : nat) : list Tick :=
  map (fun k => tick_at (start + inject_Z (Z.of_nat k) * step) empty_scene)
    (seq 1 n).

(** The default engine after two crowded ticks. *)
Definition alarmed_engine : Engine :=
  after default_engine [tick_at 0 crowd; tick_at 0 crowd].

Definition flags (ds : list PrivacyDecision) : list bool :=
  map Utils.privacy_on ds.

End Decision.

(** ** Vocabulary for the detector's properties *)

Module DetectorSpec.
Import PyQ Utils Detector.
Local Open Scope Q_scope.

(** [l1] is [l2] with some entries left out, order kept. *)
Inductive subseq {A : Type} : list A -> list A -> Prop :=
| subseq_nil : subseq [] []
| subseq_skip (x : A) (l1 l2 : list A) : subseq l1 l2 -> subseq l1 (x :: l2)
| subseq_keep (x : A) (l1 l2 : list A) :
    subseq l1 l2 -> subseq (x :: l1) (x :: l2).

(** [a] may precede [b] in a list sorted by descending confidence. *)
Definition conf_ge (a b : Detection) : Prop := confidence b <= confidence a.

(** The open interiors of two boxes meet. *)
Definition overlapping (b1 b2 : Box4) : Prop :=
  let '(x1_min, y1_min, x1_max, y1_max) := b1 in
  let '(x2_min, y2_min, x2_max, y2_max) := b2 in
  x1_min < x1_max /\ x2_min < x2_max /\ x1_min < x2_max /\ x2_min < x1_max /\
  y1_min < y1_max /\ y2_min < y2_max /\ y1_min < y2_max /\ y2_min < y1_max.

(** A box of positive width and height. *)
Definition proper (b : Box4) : Prop :=
  let '(x_min, y_min, x_max, y_max) := b in x_min < x_max /\ y_min < y_max.

(** A box inside the unit square, of positive width and height. *)
Definition unit_box (b : Box4) : Prop :=
  let '(x_min, y_min, x_max, y_max) := b in
  0 <= x_min /\ x_min < x_max /\ x_max <= 1 /\
  0 <= y_min /\ y_min < y_max /\ y_max <= 1.

(** A raw rectangle of positive size that lies inside a [w] x [h] frame. *)
Definition inside_frame (w h : Z) (r : Rect) : Prop :=
  (0 <= rx r /\ 0 <= ry r /\ 0 < rw r /\ 0 < rh r /\
   rx r + rw r <= w /\ ry r + rh r <= h)%Z.

(** Every rectangle any cascade answered lies inside the frame. *)
Definition answers_inside (w h : Z)
  (cascades : list (string * option (list Rect))) : Prop :=
  forall name faces r,
    In (name, Some faces) cascades -> In r faces -> inside_frame w h r.

(** Two overlapping squares and a third one apart, with the confidences
    0.9, 0.7 and 0.8. *)
Definition three_candidates : list Detection :=
  [mkDetection (0, 0, 4 # 10, 4 # 10) (7 # 10) (16 # 100) "profile";
   mkDetection (1 # 10, 0, 5 # 10, 4 # 10) (9 # 10) (16 # 100) "frontal";
   mkDetection (6 # 10, 6 # 10, 9 # 10, 9 # 10) (8 # 10) (9 # 100) "frontal"].

(** The data model's box: inside the unit square, of positive width and
    height. *)
Definition unit_bounding_box (b : BoundingBox) : Prop :=
  0 <= x_min b /\ x_min b < x_max b /\ x_max b <= 1 /\
  0 <= y_min b /\ y_min b < y_max b /\ y_max b <= 1.

(** The number of rectangles the cascades answered. *)
Definition answered (cascades : list (string * option (list Rect))) : nat :=
  List.length
    (flat_map (fun c => match snd c with Some faces => faces | None => [] end)
       cascades).

End DetectorSpec.

(** ** Vocabulary for the engine's properties *)

Module DecisionSpec.
Import Py PyQ Utils Decision.
Local Open Scope Q_scope.

(** The area ratios of the identities labelled ["OTHER"] that reach the
    threshold. *)
Definition other_ratios (self : Engine) (t : Tick)
  (ids : list Verify.FaceIdentity) : list Q :=
  filter (Qle_bool (area_ratio_threshold self))
    (map (ratio (frame_width t * frame_height t))
       (map Verify.box (filter (has_label "OTHER") ids))).

(** The debounce fields of two engines agree; their histories may differ. *)
Definition same_state (e1 e2 : Engine) : Prop :=
  config e1 = config e2 /\
  privacy_on e1 = privacy_on e2 /\
  risk_counter e1 = risk_counter e2 /\
  safe_frame_counter e1 = safe_frame_counter e2 /\
  safe_start_time e1 = safe_start_time e2.

(** An engine built by [__init__] from the configuration of [self]. *)
Definition rebuilt (self : Engine) : Engine :=
  new_engine (face_count_threshold self) (area_ratio_threshold self)
    (debounce_on_frames self) (debounce_off_seconds self)
    (debounce_off_frames self) (use_identity_verification self).

(** A tick without detected boxes that takes the else-branch of the
    counting. *)
Definition nothing_seen (self : Engine) (t : Tick) : Prop :=
  boxes (detection_result t) = [] /\
  (use_identity_verification self = false \/ identities t = None).

(** Two labelled faces of area ratio 0.04: the user and one other. *)
Definition two_identities : list Verify.FaceIdentity :=
  [Verify.mkFaceIdentity "ME" 1 (mkBoundingBox 0 0 (2 # 10) (2 # 10)) [];
   Verify.mkFaceIdentity "OTHER" 0
     (mkBoundingBox (3 # 10) 0 (5 # 10) (2 # 10)) []].

Definition verifying_engine : Engine :=
  new_engine 1 (2 # 100) 2 (8 # 10) 30 true.

Definition identified_tick : Tick :=
  mkTick (fun _ => 0) crowd 320 240 (Some two_identities).

End DecisionSpec.

(** ** [utils.py]: pixel coordinates and face crops *)

Module Geometry.
Import PyQ Utils.
Local Open Scope Q_scope.

(** [int(q)] on a float: truncation toward zero. *)
Definition py_int (q : Q) : Z := Z.quot (Qnum q) (Z.pos (Qden q)).

(** The [BoundingBox] that [to_pixel_coords] builds: its fields hold ints. *)
Record PixelBox := mkPixelBox {
  px_x_min : Z;
  px_y_min : Z;
  px_x_max : Z;
  px_y_max : Z
}.

Definition to_pixel_coords (self : BoundingBox) (frame_width frame_height : Z)
  : PixelBox :=
  mkPixelBox (py_int (x_min self * inject_Z frame_width))
             (py_int (y_min self * inject_Z frame_height))
             (py_int (x_max self * inject_Z frame_width))
             (py_int (y_max self * inject_Z frame_height)).

Definition center (self : BoundingBox) : Q * Q :=
  ((x_min self + x_max self) / 2, (y_min self + y_max self) / 2).

(** A slice bound as NumPy resolves it against an axis of length [dim]: a
    negative bound counts from the end, and both are clipped to the axis. *)
Definition slice_bound (i dim : Z) : Z :=
  if (i <? 0)%Z then Z.max 0 (i + dim) else Z.min i dim.

(** [a[start:stop]] on an axis of length [dim]: first index and length. *)
Definition slice_range (start stop dim : Z) : nat * nat :=
  let first := slice_bound start dim in
  let last := slice_bound stop dim in
  (Z.to_nat first, Z.to_nat (last - first)).

(** [img[y0:y1, x0:x1]] of a row-major image. *)
Definition slice2d (img : Embedder.Image) (y0 y1 x0 x1 : Z) : Embedder.Image :=
  let rows := Embedder.img_rows img in
  let cols := Embedder.img_cols img in
  let ch := Embedder.img_channels img in
  let '(r0, nr) := slice_range y0 y1 (Z.of_nat rows) in
  let '(c0, nc) := slice_range x0 x1 (Z.of_nat cols) in
  Embedder.mkImage nr nc ch
    (flat_map
       (fun r =>
          flat_map
            (fun c =>
               map (fun k =>
                      nth (((r0 + r) * cols + (c0 + c)) * ch + k)%nat
                        (Embedder.img_data img) 0%Z)
                 (seq 0 ch))
            (seq 0 nc))
       (seq 0 nr)).

(** The slice bounds [extract_face_crop] computes: the pixel box padded by
    10 and clipped to the frame, as [(x_min, y_min, x_max, y_max)]. *)
Definition crop_bounds (w h : Z) (bbox : BoundingBox) : Z * Z * Z * Z :=
  let bbox_pixel := to_pixel_coords bbox w h in
  let x_min := Z.max 0 (px_x_min bbox_pixel - 10) in
  let y_min := Z.max 0 (px_y_min bbox_pixel - 10) in
  let x_max := Z.min w (px_x_max bbox_pixel + 10) in
  let y_max := Z.min h (px_y_max bbox_pixel + 10) in
  (x_min, y_min, x_max, y_max).

Definition extract_face_crop (frame : Embedder.Image) (bbox : BoundingBox)
  : Embedder.Image :=
  let h := Z.of_nat (Embedder.img_rows frame) in
  let w := Z.of_nat (Embedder.img_cols frame) in
  let '(x_min, y_min, x_max, y_max) := crop_bounds w h bbox in
  slice2d frame y_min y_max x_min x_max.

(** A box inside the unit square whose corners are in order. *)
Definition in_unit_square (b : BoundingBox) : Prop :=
  0 <= x_min b /\ x_min b <= x_max b /\ x_max b <= 1 /\
  0 <= y_min b /\ y_min b <= y_max b /\ y_max b <= 1.

(** A 4x6 BGR frame and a box in its middle. *)
Definition tiny_frame : Embedder.Image :=
  Embedder.mkImage 4 6 3 (map Z.of_nat (seq 0 72)).

Definition middle_box : BoundingBox :=
  mkBoundingBox (1 # 4) (1 # 4) (3 # 4) (3 # 4).

End Geometry.

(** ** [utils.py], [embedder.py], [verify.py]: the remaining operations on
       descriptors *)

Module Descriptors.
Import Py Utils.
Local Open Scope R_scope.
Local Open Scope py_scope.

(** [utils.cosine_similarity]: no check for empty arguments. *)
Definition cosine_similarity (embedding1 embedding2 : Embedder.Vec)
  : result R :=
  let e1 := Embedder.l2_normalize embedding1 in
  let e2 := Embedder.l2_normalize embedding2 in
  Embedder.dot e1 e2.

(** [np.array(rows, dtype=np.float32)] on a list of 1-D arrays: the rows
    must have one length. *)
Definition np_array (rows : list Embedder.Vec) : result (list Embedder.Vec) :=
  match rows with
  | [] => Ok []
  | r :: rest =>
      if forallb (fun v => (List.length v =? List.length r)%nat) rest
      then Ok rows else Raise ValueError
  end.

(** The loop of [compute_batch_embeddings]; the embedder is threaded
    through because a DNN failure changes it. *)
Fixpoint embed_all `{Embedder.Cv2} (self : Embedder.FaceEmbedder)
  (face_crops : list (option Embedder.Image))
  : list Embedder.Vec * Embedder.FaceEmbedder :=
  match face_crops with
  | [] => ([], self)
  | crop :: rest =>
      let '(e, self1) := Embedder.compute_embedding self crop in
      let '(es, self2) := embed_all self1 rest in
      (e :: es, self2)
  end.

Definition compute_batch_embeddings `{Embedder.Cv2}
  (self : Embedder.FaceEmbedder) (face_crops : list (option Embedder.Image))
  : result (list Embedder.Vec) * Embedder.FaceEmbedder :=
  let '(embeddings, self') := embed_all self face_crops in
  (np_array embeddings, self').

Definition is_me (f : Verify.FaceIdentity) : bool :=
  String.eqb (Verify.label f) "ME".

Definition is_other (f : Verify.FaceIdentity) : bool :=
  String.eqb (Verify.label f) "OTHER".

(** [max(faces, key=lambda x: x.similarity)] from a first element on: a
    later face replaces the best one only when strictly greater. *)
Fixpoint max_by_similarity (best : Verify.FaceIdentity)
  (rest : list Verify.FaceIdentity) : Verify.FaceIdentity :=
  match rest with
  | [] => best
  | f :: rest' =>
      if Rlt_dec (Verify.similarity best) (Verify.similarity f)
      then max_by_similarity f rest'
      else max_by_similarity best rest'
  end.

Definition get_me_face (identities : list Verify.FaceIdentity)
  : option Verify.FaceIdentity :=
  match filter is_me identities with
  | [] => None
  | f :: rest => Some (max_by_similarity f rest)
  end.

Definition get_other_faces (identities : list Verify.FaceIdentity)
  : list Verify.FaceIdentity :=
  filter is_other identities.

(** An embedder whose model was loaded, on the stand-in, whose network
    always fails. *)
Definition dnn_embedder : @Embedder.FaceEmbedder Embedder.plain_cv2 :=
  @Embedder.mkFaceEmbedder Embedder.plain_cv2 true (Some tt) 128.

(** Three labelled faces with similarities 0.7, 0.9 and 0.9. *)
Definition three_faces : list Verify.FaceIdentity :=
  [Verify.mkFaceIdentity "ME" (7 / 10) (mkBoundingBox 0 0 1 1) [];
   Verify.mkFaceIdentity "OTHER" (9 / 10) (mkBoundingBox 0 0 1 1) [];
   Verify.mkFaceIdentity "ME" (9 / 10) (mkBoundingBox 0 0 1 1) [1]].

End Descriptors.

(** ** [config.py]: nested lookup by dotted key *)

Module Config.
Import Py.

(** A JSON value as [json.load] returns it; [JNull] is Python's [None].
    An object's keys are distinct, [assoc] finds the binding of one. *)
#[warnings="-register-all"] Inductive Json : Type :=
| JNull
| JBool (b : bool)
| JInt (z : Z)
| JFloat (q : Q)
| JStr (s : string)
| JArr (items : list Json)
| JObj (fields : list (string * Json)).

Definition dot : Ascii.ascii := "."%char.

(** [key.split('.')]. *)
Fixpoint split_dot (key : string) : list string :=
  match key with
  | EmptyString => [EmptyString]
  | String c rest =>
      if Ascii.eqb c dot then EmptyString :: split_dot rest
      else
        match split_dot rest with
        | [] => [String c EmptyString]
        | first :: others => String c first :: others
        end
  end.

(** [value.get(k)] on a dict: [None] for a missing key. *)
Definition dict_get (fields : list (string * Json)) (k : string) : Json :=
  match assoc k fields with
  | Some v => v
  | None => JNull
  end.

(** The loop of [get]: [None] stands for its [return default]. *)
Fixpoint walk (value : Json) (keys : list string) : option Json :=
  match keys with
  | [] => Some value
  | k :: rest =>
      match value with
      | JObj fields => walk (dict_get fields k) rest
      | _ => None
      end
  end.

Definition get (data : Json) (key : string) (default : Json) : Json :=
  match walk data (split_dot key) with
  | None => default
  | Some JNull => default
  | Some value => value
  end.

Definition _default_config : Json :=
  JObj [("camera", JObj [("device_id", JInt 0); ("target_fps", JInt 30)]);
        ("detection",
         JObj [("resize_width", JInt 320); ("resize_height", JInt 240);
               ("detection_interval_frames", JInt 3);
               ("min_detection_confidence", JFloat (5 # 10))]);
        ("privacy",
         JObj [("face_count_threshold", JInt 2);
               ("area_ratio_threshold", JFloat (2 # 100));
               ("debounce_on_frames", JInt 2);
               ("debounce_off_seconds", JFloat (8 # 10));
               ("blur_kernel_size", JInt 31)]);
        ("ui", JObj [("show_annotations", JBool true);
                     ("show_fps", JBool true)])]%string.

(** What [load] finds at [config_path]. *)
Inductive ConfigFile : Type :=
| Missing
| Unreadable
| Parsed (data : Json).

(** [load]: the defaults when the file is missing or reading it raises. *)
Definition load (file : ConfigFile) : Json :=
  match file with
  | Parsed data => data
  | Missing | Unreadable => _default_config
  end.

(** [".".join(keys)]. *)
Fixpoint join_dot (keys : list string) : string :=
  match keys with
  | [] => EmptyString
  | [k] => k
  | k :: rest => (k ++ String dot (join_dot rest))%string
  end.

Fixpoint has_dot (s : string) : bool :=
  match s with
  | EmptyString => false
  | String c rest => Ascii.eqb c dot || has_dot rest
  end.

(** A Python number as an integer parameter ([bool] is a subclass of
    [int]); [None] for values the engine's integer fields cannot hold. *)
Definition as_Z (v : Json) : option Z :=
  match v with
  | JInt z => Some z
  | JBool b => Some (Z.b2z b)
  | _ => None
  end.

(** A Python number as a float parameter. *)
Definition as_Q (v : Json) : option Q :=
  match v with
  | JInt z => Some (inject_Z z)
  | JBool b => Some (inject_Z (Z.b2z b))
  | JFloat q => Some q
  | _ => None
  end.

(** The engine [main] constructs from the configuration;
    [enable_verification] is the constant [False] there. *)
Definition engine_of_config (data : Json) : option Decision.Engine :=
  match as_Z (get data "privacy.face_count_threshold" (JInt 2)),
        as_Q (get data "privacy.area_ratio_threshold" (JFloat (2 # 100))),
        as_Z (get data "privacy.debounce_on_frames" (JInt 2)),
        as_Q (get data "privacy.debounce_off_seconds" (JFloat (8 # 10))),
        as_Z (get data "privacy.debounce_off_frames" (JInt 30)) with
  | Some fct, Some art, Some on_frames, Some off_seconds, Some off_frames =>
      Some (Decision.new_engine fct art on_frames off_seconds off_frames false)
  | _, _, _, _, _ => None
  end.

End Config.

(** ** [render.py]: blur kernel and annotations *)

Module Render.
Import Utils Geometry.

(** The kernel size [__init__] stores. *)
Definition init_blur_kernel_size (blur_kernel_size : Z) : Z :=
  if (blur_kernel_size mod 2 =? 0)%Z then (blur_kernel_size + 1)%Z
  else blur_kernel_size.

Definition Color : Type := (Z * Z * Z)%type.
Definition green : Color := (0, 255, 0)%Z.
Definition red : Color := (0, 0, 255)%Z.

(** The text of a label, with the number before it is formatted. *)
Inductive Label : Type :=
| MeLabel (similarity : R)
| OtherLabel (similarity : R)
| FaceLabel (index : nat) (confidence : Q).

(** A [cv2.rectangle] call followed by its [cv2.putText] call. *)
Record Annotation := mkAnnotation {
  corner1 : Z * Z;
  corner2 : Z * Z;
  color : Color;
  thickness : Z;
  text : Label;
  text_at : Z * Z
}.

Definition annotate_identity (w h : Z) (identity : Verify.FaceIdentity)
  : Annotation :=
  let bbox_pixel := to_pixel_coords (Verify.box identity) w h in
  let me := String.eqb (Verify.label identity) "ME" in
  mkAnnotation (px_x_min bbox_pixel, px_y_min bbox_pixel)
    (px_x_max bbox_pixel, px_y_max bbox_pixel)
    (if me then green else red)
    (if me then 3 else 2)%Z
    (if me then MeLabel (Verify.similarity identity)
     else OtherLabel (Verify.similarity identity))
    (px_x_min bbox_pixel, px_y_min bbox_pixel - 5)%Z.

Definition annotate_box (w h : Z) (privacy_on : bool)
  (entry : nat * (BoundingBox * Q)) : Annotation :=
  let '(i, (box, conf)) := entry in
  let bbox_pixel := to_pixel_coords box w h in
  mkAnnotation (px_x_min bbox_pixel, px_y_min bbox_pixel)
    (px_x_max bbox_pixel, px_y_max bbox_pixel)
    (if privacy_on then red else green) 2%Z
    (FaceLabel (i + 1) conf)
    (px_x_min bbox_pixel, px_y_min bbox_pixel - 5)%Z.

(** [enumerate(l)]. *)
Definition enumerate {A : Type} (l : list A) : list (nat * A) :=
  combine (seq 0 (List.length l)) l.

(** [_draw_annotations] on a [w] x [h] frame, as the calls it makes. *)
Definition _draw_annotations (w h : Z)
  (detection_result : option FaceDetectionResult) (privacy_on : bool)
  (identities : option (list Verify.FaceIdentity)) : list Annotation :=
  match detection_result with
  | None => []
  | Some res =>
      match identities with
      | Some ids => map (annotate_identity w h) ids
      | None =>
          map (annotate_box w h privacy_on)
            (enumerate (combine (boxes res) (confidences res)))
      end
  end.

(** The annotation step of [render]. *)
Definition render_annotations (show_annotations : bool) (w h : Z)
  (privacy_on : bool) (detection_result : option FaceDetectionResult)
  (identities : option (list Verify.FaceIdentity)) : list Annotation :=
  match identities with
  | Some _ => _draw_annotations w h detection_result privacy_on identities
  | None =>
      match show_annotations, detection_result with
      | true, Some _ => _draw_annotations w h detection_result privacy_on None
      | _, _ => []
      end
  end.

(** Both corners of the rectangle lie in the [w] x [h] frame. *)
Definition drawn_inside (w h : Z) (a : Annotation) : Prop :=
  (0 <= fst (corner1 a) <= fst (corner2 a) /\ fst (corner2 a) <= w /\
   0 <= snd (corner1 a) <= snd (corner2 a) /\ snd (corner2 a) <= h)%Z.

End Render.

(** ** [main.py]: overlay calls on privacy transitions *)

Module MainLoop.
Import Utils.

Inductive OverlayCall : Type := ShowOverlay | HideOverlay.

(** The two loop variables the transition logging uses. *)
Record Logged := mkLogged {
  last_privacy_state : bool;
  privacy_transitions : Z
}.

Definition start : Logged := mkLogged false 0.

(** The block after [decide]: count the transition and show or hide the
    overlay, only when the flag differs from the last one seen. *)
Definition log_transition (st : Logged) (privacy_decision : PrivacyDecision)
  : Logged * list OverlayCall :=
  if Bool.eqb (privacy_on privacy_decision) (last_privacy_state st)
  then (st, [])
  else
    (mkLogged (privacy_on privacy_decision) (privacy_transitions st + 1),
     [if privacy_on privacy_decision then ShowOverlay else HideOverlay]).

Fixpoint log_all (st : Logged) (ds : list PrivacyDecision)
  : Logged * list OverlayCall :=
  match ds with
  | [] => (st, [])
  | d :: rest =>
      let '(st1, calls1) := log_transition st d in
      let '(st2, calls2) := log_all st1 rest in
      (st2, calls1 ++ calls2)
  end.

(** Whether the overlay is up after a sequence of calls. *)
Definition overlay_shown (initially : bool) (calls : list OverlayCall) : bool :=
  fold_left (fun _ c => match c with ShowOverlay => true | HideOverlay => false end)
    calls initially.

(** Calls alternate, the first one being [first]. *)
Fixpoint alternating (first : OverlayCall) (calls : list OverlayCall) : Prop :=
  match calls with
  | [] => True
  | c :: rest =>
      c = first /\
      alternating (match first with
                   | ShowOverlay => HideOverlay
                   | HideOverlay => ShowOverlay
                   end) rest
  end.

Definition decision_with (flag : bool) : PrivacyDecision :=
  mkPrivacyDecision flag NoReason 0 0.

End MainLoop.

(** ** [enroll.py]: capturing samples and building the template *)

Module Enroll.
Import Py PyQ Utils Embedder Geometry.
Local Open Scope R_scope.
Local Open Scope py_scope.

(** [np.argmax] from a first entry on: the index of the first greatest
    entry. *)
Fixpoint argmax_from (best_i : nat) (best : Q) (i : nat) (l : list Q) : nat :=
  match l with
  | [] => best_i
  | x :: l' =>
      if Qltb best x then argmax_from i x (S i) l'
      else argmax_from best_i best (S i) l'
  end.

(** [np.argmax] of a non-empty list (the caller checks [len(...) > 0]). *)
Definition argmax (l : list Q) : nat :=
  match l with
  | [] => 0%nat
  | x :: l' => argmax_from 0 x 1 l'
  end.

(** [cv2.waitKey(1) & 0xFF] as the loop tells keys apart. *)
Inductive Key : Type := KeyQ | KeyE | KeySpace | KeyOther.

(** The loop variables of [enroll_user] and the embedder. *)
Record State `{Cv2} := mkState {
  enrolling : bool;
  captured_crops : list Image;
  captured_embeddings : list Vec;
  embedder : FaceEmbedder
}.
Arguments mkState {_} _ _ _ _.

(** One pass of the loop with a frame: the frame, the current value of
    [detection_result] and the key read. *)
Record Iteration := mkIteration {
  frame : Image;
  detection_result : option FaceDetectionResult;
  key : Key
}.

Definition initial `{Cv2} : State := mkState false [] [] new_embedder.

(** The branch for the space key while enrolling. *)
Definition capture `{Cv2} (st : State) (it : Iteration) : State :=
  match detection_result it with
  | Some res =>
      match boxes res with
      | [] => st
      | first :: _ =>
          let largest_idx := argmax (map area (boxes res)) in
          let box := nth largest_idx (boxes res) first in
          let crop := extract_face_crop (frame it) box in
          if (size crop =? 0)%nat then st
          else
            let captured_crops' := captured_crops st ++ [crop] in
            let '(embedding, embedder') :=
              compute_embedding (embedder st) (Some crop) in
            let captured_embeddings' :=
              captured_embeddings st ++ [embedding] in
            mkState
              (if (15 <=? List.length captured_crops')%nat then false
               else enrolling st)
              captured_crops' captured_embeddings' embedder'
      end
  | None => st
  end.

(** One pass: [None] is the [break] on ['q']. *)
Definition step `{Cv2} (st : State) (it : Iteration) : option State :=
  match key it with
  | KeyQ => None
  | KeyE =>
      if enrolling st then Some st
      else Some (mkState true [] [] (embedder st))
  | KeySpace => if enrolling st then Some (capture st it) else Some st
  | KeyOther => Some st
  end.

(** The loop over the passes that had a frame, up to the first ['q']. *)
Fixpoint loop `{Cv2} (st : State) (its : list Iteration) : State :=
  match its with
  | [] => st
  | it :: rest =>
      match step st it with
      | None => st
      | Some st' => loop st' rest
      end
  end.

Definition vec_add (a b : Vec) : Vec :=
  map (fun p => fst p + snd p) (combine a b).

(** [np.mean(rows, axis=0)] of a non-empty 2-D array. *)
Definition mean_axis0 (rows : list Vec) : Vec :=
  match rows with
  | [] => []
  | r :: rest =>
      map (fun s => s / INR (List.length rows)) (fold_left vec_add rest r)
  end.

(** The template file and the fields of [meta.json] that depend on the
    samples. *)
Record Template := mkTemplate {
  template : Vec;
  num_samples : nat;
  meta_embedding_size : nat;
  meta_threshold : R
}.

(** The block after the loop: [Ok None] is [return False]; building the
    array raises when the embeddings differ in length. *)
Definition finalize `{Cv2} (st : State) : result (option Template) :=
  match captured_embeddings st with
  | [] => Ok None
  | _ =>
      rows <- Descriptors.np_array (captured_embeddings st) ;;
      let avg_embedding := l2_normalize (mean_axis0 rows) in
      Ok (Some (mkTemplate avg_embedding (List.length (captured_crops st))
                  (List.length avg_embedding) (6 / 10)))
  end.

(** What the loop keeps true of its variables. *)
Definition consistent `{Cv2} (st : State) : Prop :=
  List.length (captured_crops st) = List.length (captured_embeddings st) /\
  (List.length (captured_crops st) <= 15)%nat /\
  (enrolling st = true -> (List.length (captured_crops st) < 15)%nat) /\
  Forall (fun crop => size crop <> 0%nat) (captured_crops st).

(** The embedder stays as it is and every stored embedding has its
    dimension. *)
Definition plain_state `{Cv2} (st : State) (e : FaceEmbedder) : Prop :=
  embedder st = e /\
  Forall (fun v => List.length v = embedding_size e) (captured_embeddings st).

(** One pass on the small frame with a face in its middle and the space
    key held. *)
Definition capture_pass : Iteration :=
  mkIteration tiny_frame
    (Some (mkFaceDetectionResult [middle_box] [(9 # 10)%Q] 0)) KeySpace.

Definition start_pass : Iteration := mkIteration tiny_frame None KeyE.

End Enroll.

(** * Properties *)

(** ** Comparison helpers *)

Module PyQFacts.
Import PyQ.
Local Open Scope Q_scope.

Lemma Qltb_lt (a b : Q) : Qltb a b = true <-> a < b.
Proof.
  unfold Qltb. rewrite negb_true_iff. split; intro H.
  - apply Qnot_le_lt. intro Hle. apply Qle_bool_iff in Hle. congruence.
  - destruct (Qle_bool b a) eqn:E; [|reflexivity].
    apply Qle_bool_iff in E. qlra.
Qed.

Lemma Qltb_ge (a b : Q) : Qltb a b = false <-> b <= a.
Proof.
  unfold Qltb. rewrite negb_false_iff. apply Qle_bool_iff.
Qed.

Lemma py_max_spec (a b : Q) :
  (a < b /\ py_max a b = b) \/ (b <= a /\ py_max a b = a).
Proof.
  unfold py_max. destruct (Qltb a b) eqn:E.
  - left. split; [now apply Qltb_lt|reflexivity].
  - right. split; [now apply Qltb_ge|reflexivity].
Qed.

Lemma py_min_spec (a b : Q) :
  (b < a /\ py_min a b = b) \/ (a <= b /\ py_min a b = a).
Proof.
  unfold py_min. destruct (Qltb b a) eqn:E.
  - left. split; [now apply Qltb_lt|reflexivity].
  - right. split; [now apply Qltb_ge|reflexivity].
Qed.

Lemma py_max_comm (a b : Q) : py_max a b == py_max b a.
Proof.
  destruct (py_max_spec a b) as [[H1 ->]|[H1 ->]];
  destruct (py_max_spec b a) as [[H2 ->]|[H2 ->]]; qlra.
Qed.

Lemma py_min_comm (a b : Q) : py_min a b == py_min b a.
Proof.
  destruct (py_min_spec a b) as [[H1 ->]|[H1 ->]];
  destruct (py_min_spec b a) as [[H2 ->]|[H2 ->]]; qlra.
Qed.

#[global] Instance py_max_proper : Proper (Qeq ==> Qeq ==> Qeq) py_max.
Proof.
  intros a a' Ha b b' Hb.
  destruct (py_max_spec a b) as [[H1 ->]|[H1 ->]];
  destruct (py_max_spec a' b') as [[H2 ->]|[H2 ->]]; qlra.
Qed.

#[global] Instance py_min_proper : Proper (Qeq ==> Qeq ==> Qeq) py_min.
Proof.
  intros a a' Ha b b' Hb.
  destruct (py_min_spec a b) as [[H1 ->]|[H1 ->]];
  destruct (py_min_spec a' b') as [[H2 ->]|[H2 ->]]; qlra.
Qed.

#[global] Instance Qltb_proper : Proper (Qeq ==> Qeq ==> eq) Qltb.
Proof.
  intros a a' Ha b b' Hb. unfold Qltb. now rewrite Ha, Hb.
Qed.

End PyQFacts.

(** ** Detector: overlap and suppression *)

Module DetectorFacts.
Import PyQ PyQFacts Utils Detector.
Local Open Scope Q_scope.

Lemma compute_iou_sym (b1 b2 : Box4) : _compute_iou b1 b2 == _compute_iou b2 b1.
Proof.
  destruct b1 as [[[x1 y1] X1] Y1], b2 as [[[x2 y2] X2] Y2].
  unfold _compute_iou. cbv zeta.
  pose proof (py_max_comm x2 x1) as Ex. pose proof (py_max_comm y2 y1) as Ey.
  pose proof (py_min_comm X2 X1) as EX. pose proof (py_min_comm Y2 Y1) as EY.
  set (ix := py_max x1 x2) in *. set (iy := py_max y1 y2) in *.
  set (iX := py_min X1 X2) in *. set (iY := py_min Y1 Y2) in *.
  set (jx := py_max x2 x1) in *. set (jy := py_max y2 y1) in *.
  set (jX := py_min X2 X1) in *. set (jY := py_min Y2 Y1) in *.
  assert (Ec : Qle_bool jX jx || Qle_bool jY jy
               = Qle_bool iX ix || Qle_bool iY iy)
    by (rewrite Ex, Ey, EX, EY; reflexivity).
  rewrite Ec. destruct (Qle_bool iX ix || Qle_bool iY iy); [reflexivity|].
  set (u := (X1 - x1) * (Y1 - y1) + (X2 - x2) * (Y2 - y2)
            - (iX - ix) * (iY - iy)).
  set (u' := (X2 - x2) * (Y2 - y2) + (X1 - x1) * (Y1 - y1)
             - (jX - jx) * (jY - jy)).
  assert (Eu : u' == u) by (unfold u, u'; rewrite Ex, Ey, EX, EY; ring).
  assert (Ed : Qltb 0 u' = Qltb 0 u) by (rewrite Eu; reflexivity).
  rewrite Ed. destruct (Qltb 0 u); [|reflexivity].
  rewrite Eu, Ex, Ey, EX, EY. reflexivity.
Qed.

Lemma should_keep_tested (thr : Q) (c : Detection) (kept : list Detection) :
  should_keep thr c kept = true ->
  forall k, In k kept -> _compute_iou (box c) (box k) <= thr.
Proof.
  unfold should_keep. rewrite negb_true_iff. intros H k Hk.
  apply Qltb_ge. destruct (Qltb thr _) eqn:E; [|reflexivity].
  assert (X : existsb (fun kept_det =>
            Qltb thr (_compute_iou (box c) (box kept_det))) kept = true)
    by (apply existsb_exists; exists k; split; assumption).
  congruence.
Qed.

Lemma pairwise_tested_snoc (thr : Q) (kept : list Detection) (c : Detection) :
  pairwise_tested thr kept ->
  (forall k, In k kept -> _compute_iou (box c) (box k) <= thr) ->
  pairwise_tested thr (kept ++ [c]).
Proof.
  intros Hk Hc i j a b Hij Ha Hb.
  assert (Hj : (j < List.length (kept ++ [c]))%nat)
    by (apply nth_error_Some; congruence).
  rewrite length_app in Hj. simpl in Hj.
  rewrite nth_error_app1 in Ha by lia.
  destruct (Nat.eq_dec j (List.length kept)) as [->|Hne].
  - rewrite nth_error_app2 in Hb by lia. rewrite Nat.sub_diag in Hb.
    simpl in Hb. injection Hb as <-.
    apply Hc. eapply nth_error_In; eassumption.
  - rewrite nth_error_app1 in Hb by lia. exact (Hk i j a b Hij Ha Hb).
Qed.

Lemma nms_loop_tested (thr : Q) (l : list Detection) :
  forall kept, pairwise_tested thr kept ->
               pairwise_tested thr (nms_loop thr l kept).
Proof.
  induction l as [|c l IH]; intros kept Hk; simpl; [assumption|].
  destruct (should_keep thr c kept) eqn:E.
  - apply IH, pairwise_tested_snoc; [assumption|].
    now apply should_keep_tested.
  - now apply IH.
Qed.

Lemma nms_tested (detections : list Detection) (thr : Q) :
  pairwise_tested thr (_nms detections thr).
Proof.
  assert (Hnil : pairwise_tested thr []).
  { intros i j a b _ Ha. destruct i; discriminate. }
  unfold _nms. destruct detections; [assumption|].
  now apply nms_loop_tested.
Qed.

(** C3, as the code has it: whatever the candidates and the threshold, two
    boxes at different places of the list [_nms] returns have an IoU of at
    most the threshold, in either order of the two; for [detect] the
    threshold is 0.15.  A candidate is dropped only when its IoU with a kept
    one is strictly greater than the threshold. *)
Theorem nms_retained_iou_le (detections : list Detection) (thr : Q)
  (a b : Detection) :
  retained_pair (_nms detections thr) a b ->
  _compute_iou (box a) (box b) <= thr.
Proof.
  intros (i & j & Hij & Ha & Hb).
  pose proof (nms_tested detections thr) as T.
  destruct (Nat.lt_ge_cases i j) as [Hlt|Hge].
  - rewrite compute_iou_sym. exact (T i j a b Hlt Ha Hb).
  - assert (Hlt : (j < i)%nat) by lia. exact (T j i b a Hlt Hb Ha).
Qed.

Lemma nms_retained_iou_le_witness :
  exists a b,
    retained_pair
      (_nms (all_detections 100 100 touching_faces) detect_iou_threshold) a b
    /\ _compute_iou (box a) (box b) <= detect_iou_threshold.
Proof.
  destruct touching_kept as [|a [|b l]] eqn:E; try discriminate E.
  exists a, b.
  assert (R : retained_pair
                (_nms (all_detections 100 100 touching_faces)
                   detect_iou_threshold) a b).
  { exists 0%nat, 1%nat. split; [discriminate|].
    change (_nms (all_detections 100 100 touching_faces) detect_iou_threshold)
      with touching_kept.
    rewrite E. split; reflexivity. }
  split; [exact R|].
  exact (nms_retained_iou_le _ _ a b R).
Defined.

(** C3, as stated, fails: the two squares of [touching_faces] overlap with
    IoU exactly 0.15 and both are retained. *)
Lemma nms_keeps_pair_at_threshold :
  ~ strictly_separated (all_detections 100 100 touching_faces).
Proof.
  intro H.
  destruct touching_kept as [|a [|b l]] eqn:E; try discriminate E.
  specialize (H a b).
  change (_nms (all_detections 100 100 touching_faces) detect_iou_threshold)
    with touching_kept in H.
  rewrite E in H.
  assert (R : retained_pair (a :: b :: l) a b).
  { exists 0%nat, 1%nat. split; [discriminate|split; reflexivity]. }
  specialize (H R).
  injection E as <- <- _.
  vm_compute in H. discriminate H.
Qed.

End DetectorFacts.

(** ** Decision engine: counting *)

Module CountingFacts.
Import Py PyQ PyQFacts Utils Decision.
Local Open Scope Q_scope.

Lemma count_loop_ok (thr : Q) (fa : Z) (bs : list BoundingBox) :
  fa <> 0%Z ->
  forall acc,
    count_loop thr fa bs acc =
    Ok ((fst acc + Z.of_nat (List.length
                               (filter (Qle_bool thr) (map (ratio fa) bs))))%Z,
        fold_left py_max (filter (Qle_bool thr) (map (ratio fa) bs)) (snd acc)).
Proof.
  intros Hfa. induction bs as [|b bs IH]; intros [n m]; simpl.
  - now rewrite Z.add_0_r.
  - unfold count_step, area_ratio.
    destruct (Z.eqb_spec fa 0) as [E|_]; [contradiction|]. simpl.
    fold (ratio fa b).
    destruct (Qle_bool thr (ratio fa b)); simpl; rewrite IH; simpl.
    + do 2 f_equal. lia.
    + reflexivity.
Qed.

(** Without boxes nothing is divided, whatever the frame area. *)
Lemma count_loop_nil (thr : Q) (fa : Z) (acc : Z * Q) :
  count_loop thr fa [] acc = Ok acc.
Proof. reflexivity. Qed.

Lemma count_loop_zero_area (thr : Q) (b : BoundingBox) (bs : list BoundingBox)
  (acc : Z * Q) :
  count_loop thr 0 (b :: bs) acc = Raise ZeroDivisionError.
Proof. reflexivity. Qed.

Lemma fold_py_max_bounds (l : list Q) :
  forall m0,
    let m := fold_left py_max l m0 in
    m0 <= m /\ (forall x, In x l -> x <= m) /\ (m = m0 \/ In m l).
Proof.
  induction l as [|x l IH]; intros m0; simpl.
  - split; [qlra|]. split; [intros x []|now left].
  - destruct (IH (py_max m0 x)) as (H1 & H2 & H3).
    destruct (py_max_spec m0 x) as [[Hlt E]|[Hle E]]; rewrite E in *.
    + split; [qlra|]. split.
      * intros y [<-|Hy]; [assumption|now apply H2].
      * destruct H3 as [->|H3]; right; [now left|now right].
    + split; [assumption|]. split.
      * intros y [<-|Hy]; [qlra|now apply H2].
      * destruct H3 as [->|H3]; [now left|right; now right].
Qed.

Lemma fold_py_max_is_max (l : list Q) :
  (forall x, In x l -> 0 <= x) -> max_or_zero l (fold_left py_max l 0).
Proof.
  intros Hpos. destruct l as [|y l]; [reflexivity|].
  destruct (fold_py_max_bounds (y :: l) 0) as (H1 & H2 & H3).
  set (m := fold_left py_max (y :: l) 0) in *.
  split; [|exact H2].
  destruct H3 as [E|Hin].
  - exists y. split; [now left|].
    assert (y <= m) by (apply H2; now left).
    assert (0 <= y) by (apply Hpos; now left).
    rewrite E in *. qlra.
  - exists m. split; [assumption|reflexivity].
Qed.

Lemma area_pos (b : BoundingBox) : well_formed b -> 0 < area b.
Proof.
  intros [Hx Hy]. unfold area, width, height.
  apply Qmult_lt_0_compat; qlra.
Qed.

Lemma ratio_area (fa : Z) (b : BoundingBox) :
  fa <> 0%Z -> ratio fa b == area b.
Proof.
  intros Hfa. unfold ratio. field.
  intro E. apply Hfa. unfold Qeq in E. simpl in E. lia.
Qed.

Lemma unverified_counts (self : Engine) (t : Tick) :
  use_identity_verification self = false \/ identities t = None ->
  count_faces self t =
  bind (count_loop (area_ratio_threshold self)
          (frame_width t * frame_height t)
          (boxes (detection_result t)) (0%Z, 0))
    (fun acc =>
       Ok (mkCounts (Z.max 0 (fst acc - 1)) (snd acc)
             (if (0 <? fst acc)%Z then 1%Z else 0%Z)
             (Z.of_nat (List.length (boxes (detection_result t)))))).
Proof.
  unfold count_faces.
  intros [H|H]; rewrite H; [reflexivity|].
  destruct (use_identity_verification self); reflexivity.
Qed.

(** [decide] returns whenever the frame has a non-zero area. *)
Lemma count_faces_returns (self : Engine) (t : Tick) :
  (frame_width t * frame_height t)%Z <> 0%Z ->
  exists c, count_faces self t = Ok c.
Proof.
  intros Hfa. unfold count_faces.
  destruct (use_identity_verification self), (identities t);
    rewrite (count_loop_ok _ _ _ Hfa); simpl; eexists; reflexivity.
Qed.

Lemma decide_returns (self : Engine) (t : Tick) :
  (frame_width t * frame_height t)%Z <> 0%Z ->
  exists d self', decide self t = Ok (d, self').
Proof.
  intros Hfa. destruct (count_faces_returns self t Hfa) as [c Hc].
  unfold decide. rewrite Hc. simpl.
  destruct (transition self t c) as [d self']. now exists d, self'.
Qed.

Lemma decide_counts (self : Engine) (t : Tick) (d : PrivacyDecision)
  (self' : Engine) :
  decide self t = Ok (d, self') ->
  exists c, count_faces self t = Ok c /\
            other_face_count d = c_other_face_count c /\
            risk_score d = c_risk_score c /\
            transition self t c = (d, self').
Proof.
  unfold decide. destruct (count_faces self t) as [c|e]; simpl; [|discriminate].
  intros H. injection H as H. exists c. split; [reflexivity|].
  unfold transition in *.
  destruct (if is_risky self c then _ else _) as [[[[[po rc] sfc] sst] rsn] rd].
  injection H as <- <-. repeat split; reflexivity.
Qed.

Lemma qualifying_nonneg (self : Engine) (t : Tick) :
  (frame_width t * frame_height t)%Z <> 0%Z ->
  Forall well_formed (boxes (detection_result t))
  \/ 0 <= area_ratio_threshold self ->
  forall x, In x (qualifying_ratios self t) -> 0 <= x.
Proof.
  intros Hfa Hyp x Hx. unfold qualifying_ratios in Hx.
  apply filter_In in Hx. destruct Hx as [Hin Hq].
  apply Qle_bool_iff in Hq.
  destruct Hyp as [Hwf|Hthr]; [|qlra].
  apply in_map_iff in Hin. destruct Hin as (b & <- & Hb).
  rewrite Forall_forall in Hwf.
  rewrite (ratio_area _ b Hfa).
  apply Qlt_le_weak, area_pos, Hwf, Hb.
Qed.

(** C8: in unverified mode (the engine does not use identities, or none are
    passed), for boxes that satisfy the data model's invariant or a
    non-negative area threshold, a decision that [decide] produces has
    [other_face_count = max(0, visible_count - 1)], where [visible_count] is
    the number of boxes whose area ratio reaches the threshold, and its
    [risk_score] is the greatest of those ratios, 0 when there is none;
    [decide] does produce one whenever the frame area is not 0. *)
Theorem decide_unverified_counts (self : Engine) (t : Tick) :
  use_identity_verification self = false \/ identities t = None ->
  Forall well_formed (boxes (detection_result t))
  \/ 0 <= area_ratio_threshold self ->
  ((frame_width t * frame_height t)%Z <> 0%Z ->
   exists d self', decide self t = Ok (d, self')) /\
  forall d self', decide self t = Ok (d, self') ->
    let visible_count := Z.of_nat (List.length (qualifying_ratios self t)) in
    other_face_count d = Z.max 0 (visible_count - 1) /\
    max_or_zero (qualifying_ratios self t) (risk_score d).
Proof.
  intros Hmode Hyp. split; [apply decide_returns|].
  intros d self' Hd.
  destruct (decide_counts _ _ _ _ Hd) as (c & Hc & -> & -> & _).
  rewrite (unverified_counts _ _ Hmode) in Hc.
  destruct (Z.eq_dec (frame_width t * frame_height t) 0) as [Hz|Hnz].
  - unfold qualifying_ratios. rewrite Hz in *.
    destruct (boxes (detection_result t)) as [|b bs]; simpl in Hc.
    + injection Hc as <-. simpl. split; reflexivity.
    + discriminate Hc.
  - rewrite (count_loop_ok _ _ _ Hnz) in Hc. simpl in Hc.
    injection Hc as <-. simpl. fold (qualifying_ratios self t).
    split; [reflexivity|].
    apply fold_py_max_is_max, qualifying_nonneg; assumption.
Qed.

Lemma decide_unverified_counts_witness :
  exists d self',
    decide default_engine (tick_at 0 crowd) = Ok (d, self') /\
    other_face_count d = 2%Z /\
    max_or_zero (qualifying_ratios default_engine (tick_at 0 crowd))
      (risk_score d).
Proof.
  assert (Hmode : use_identity_verification default_engine = false
                  \/ identities (tick_at 0 crowd) = None)
    by (left; reflexivity).
  assert (Hthr : Forall well_formed (boxes (detection_result (tick_at 0 crowd)))
                 \/ 0 <= area_ratio_threshold default_engine)
    by (right; vm_compute; discriminate).
  destruct (decide_unverified_counts default_engine (tick_at 0 crowd)
              Hmode Hthr) as [Hret Hprop].
  assert (Hfa : (frame_width (tick_at 0 crowd)
                 * frame_height (tick_at 0 crowd))%Z <> 0%Z)
    by (vm_compute; discriminate).
  destruct (Hret Hfa) as (d & self' & Hd).
  exists d, self'. split; [exact Hd|].
  destruct (Hprop d self' Hd) as [Hcount Hmax].
  split; [rewrite Hcount; reflexivity|exact Hmax].
Defined.

End CountingFacts.

(** ** Decision engine: bounded history *)

Module HistoryFacts.
Import Py PyQ Utils Decision CountingFacts.

Lemma lastn_short {A : Type} (n : nat) (l : list A) :
  (List.length l <= n)%nat -> lastn n l = l.
Proof.
  intros H. unfold lastn. replace (List.length l - n)%nat with 0%nat by lia.
  reflexivity.
Qed.

Lemma length_lastn {A : Type} (n : nat) (l : list A) :
  List.length (lastn n l) = Nat.min n (List.length l).
Proof. unfold lastn. rewrite length_skipn. lia. Qed.

Lemma lastn_app_lastn {A : Type} (n : nat) (l1 l2 : list A) :
  lastn n (lastn n l1 ++ l2) = lastn n (l1 ++ l2).
Proof.
  unfold lastn at 1 3. rewrite !length_app, length_lastn, !skipn_app.
  unfold lastn. rewrite skipn_skipn, length_skipn.
  f_equal; f_equal; lia.
Qed.

Lemma map_lastn {A B : Type} (f : A -> B) (n : nat) (l : list A) :
  map f (lastn n l) = lastn n (map f l).
Proof. unfold lastn. now rewrite skipn_map, length_map. Qed.

Lemma bounded_append_lastn (h : list (Q * PrivacyDecision))
  (entry : Q * PrivacyDecision) :
  bounded_append h entry = lastn 100 (h ++ [entry]).
Proof.
  unfold bounded_append.
  destruct (Nat.ltb_spec 100 (List.length (h ++ [entry]))) as [H|H].
  - reflexivity.
  - symmetry. now apply lastn_short.
Qed.

(** One call appends its decision and keeps the last 100 entries. *)
Lemma decide_history (self : Engine) (t : Tick) (d : PrivacyDecision)
  (self' : Engine) :
  decide self t = Ok (d, self') ->
  exists time,
    decision_history self' = lastn 100 (decision_history self ++ [(time, d)]).
Proof.
  intros H. destruct (decide_counts _ _ _ _ H) as (c & _ & _ & _ & Ht).
  unfold transition in Ht.
  destruct (if is_risky self c then _ else _) as [[[[[po rc] sfc] sst] rsn] rd].
  injection Ht as <- <-. simpl. eexists. apply bounded_append_lastn.
Qed.

Lemma run_history (ticks : list Tick) :
  forall (self : Engine) (past : list PrivacyDecision),
    map snd (decision_history self) = lastn 100 past ->
    map snd (decision_history (after self ticks))
    = lastn 100 (past ++ decisions self ticks).
Proof.
  unfold after, decisions.
  induction ticks as [|t ticks IH]; intros self past Hpast; simpl.
  - now rewrite app_nil_r.
  - destruct (decide self t) as [[d self']|e] eqn:Hd.
    + destruct (decide_history _ _ _ _ Hd) as [time Hh].
      specialize (IH self' (past ++ [d])).
      destruct (run self' ticks) as [ds final]. simpl in *.
      rewrite <- app_assoc in IH. apply IH.
      rewrite Hh, map_lastn, map_app, Hpast. simpl.
      apply lastn_app_lastn.
    + specialize (IH self past Hpast).
      destruct (run self ticks) as [ds final]. simpl in *. exact IH.
Qed.

(** C9: for an engine whose history holds at most 100 entries (an engine
    just constructed holds none) and any sequence of [decide] calls, the
    history afterwards holds at most 100 entries, and its decisions are the
    last 100 of the earlier ones followed by those the calls returned, in
    order. *)
Theorem history_bounded (self : Engine) (ticks : list Tick) :
  (List.length (decision_history self) <= 100)%nat ->
  (List.length (decision_history (after self ticks)) <= 100)%nat /\
  map snd (decision_history (after self ticks))
  = lastn 100 (map snd (decision_history self) ++ decisions self ticks).
Proof.
  intros Hlen.
  assert (H : map snd (decision_history (after self ticks))
              = lastn 100 (map snd (decision_history self)
                           ++ decisions self ticks)).
  { apply run_history. symmetry. apply lastn_short. now rewrite length_map. }
  split; [|exact H].
  rewrite <- (length_map snd), H, length_lastn. lia.
Qed.

Lemma history_bounded_witness :
  (List.length (decision_history
                  (after default_engine (safe_ticks 0 1 120))) <= 100)%nat /\
  map snd (decision_history (after default_engine (safe_ticks 0 1 120)))
  = lastn 100 (map snd (decision_history default_engine)
               ++ decisions default_engine (safe_ticks 0 1 120)).
Proof.
  apply (history_bounded default_engine (safe_ticks 0 1 120)).
  simpl. lia.
Defined.

End HistoryFacts.

(** ** Decision engine: debounce *)

Module DebounceFacts.
Import Py PyQ PyQFacts Utils Decision CountingFacts.
Local Open Scope Q_scope.

Lemma transition_risky (self : Engine) (t : Tick) (c : Counts) :
  is_risky self c = true ->
  exists d self',
    transition self t c = (d, self') /\
    config self' = config self /\
    Utils.privacy_on d = privacy_on self' /\
    privacy_on self' =
      (if (debounce_on_frames self <=? risk_counter self + 1)%Z
       then true else privacy_on self) /\
    risk_counter self' = (risk_counter self + 1)%Z /\
    safe_frame_counter self' = 0%Z /\
    safe_start_time self' = None.
Proof.
  intros H. unfold transition. rewrite H.
  destruct (debounce_on_frames self <=? risk_counter self + 1)%Z;
    do 2 eexists; (split; [reflexivity|]); simpl; repeat split; reflexivity.
Qed.

Lemma transition_safe (self : Engine) (t : Tick) (c : Counts) :
  is_risky self c = false ->
  exists d self',
    transition self t c = (d, self') /\
    config self' = config self /\
    Utils.privacy_on d = privacy_on self' /\
    privacy_on self' =
      (if off_condition self t then false else privacy_on self) /\
    risk_counter self' = 0%Z /\
    safe_frame_counter self' =
      (if off_condition self t then 0%Z else safe_frames self) /\
    safe_start_time self' = Some (safe_start self t).
Proof.
  intros H. unfold transition, off_condition, time_safe, safe_start, safe_frames.
  rewrite H.
  destruct (safe_start_time self) as [s|];
    match goal with
    | |- context [if ?b && ?b' then _ else _] => destruct (b && b')
    end;
    do 2 eexists; (split; [reflexivity|]); simpl; repeat split; reflexivity.
Qed.

Lemma count_faces_config (self self' : Engine) (t : Tick) :
  config self' = config self -> count_faces self' t = count_faces self t.
Proof.
  unfold config. intros H. injection H as H1 H2 H3 H4 H5 H6.
  unfold count_faces. now rewrite H2, H6.
Qed.

Lemma is_risky_config (self self' : Engine) (c : Counts) :
  config self' = config self -> is_risky self' c = is_risky self c.
Proof.
  unfold config. intros H. injection H as H1 H2 H3 H4 H5 H6.
  unfold is_risky. now rewrite H1.
Qed.

Lemma safe_tick_config (self self' : Engine) (t : Tick) :
  config self' = config self -> safe_tick self' t = safe_tick self t.
Proof.
  intros H. unfold safe_tick. rewrite (count_faces_config _ _ _ H).
  destruct (count_faces self t); [|reflexivity].
  now rewrite (is_risky_config _ _ _ H).
Qed.

Lemma decide_config (self : Engine) (t : Tick) (d : PrivacyDecision)
  (self' : Engine) :
  decide self t = Ok (d, self') -> config self' = config self.
Proof.
  intros H. destruct (decide_counts _ _ _ _ H) as (c & _ & _ & _ & Ht).
  destruct (is_risky self c) eqn:E.
  - destruct (transition_risky self t c E) as (d0 & e0 & Ht0 & Hc & _).
    congruence.
  - destruct (transition_safe self t c E) as (d0 & e0 & Ht0 & Hc & _).
    congruence.
Qed.

Lemma after_cons (self : Engine) (t : Tick) (ticks : list Tick) :
  after self (t :: ticks) = after (after self [t]) ticks.
Proof.
  unfold after. simpl.
  destruct (decide self t) as [[d self']|e]; simpl;
    destruct (run _ ticks); reflexivity.
Qed.

Lemma after_app (ticks1 ticks2 : list Tick) :
  forall self, after self (ticks1 ++ ticks2) = after (after self ticks1) ticks2.
Proof.
  induction ticks1 as [|t ticks1 IH]; intros self; [reflexivity|].
  simpl. rewrite after_cons, IH, <- after_cons. reflexivity.
Qed.

Lemma after_config (ticks : list Tick) :
  forall self, config (after self ticks) = config self.
Proof.
  induction ticks as [|t ticks IH]; intros self; [reflexivity|].
  rewrite after_cons, IH. unfold after. simpl.
  destruct (decide self t) as [[d self']|e] eqn:E; simpl; [|reflexivity].
  eapply decide_config; eassumption.
Qed.

(** A safe call: [decide] returns, and its effect on the state. *)
Lemma decide_safe (self : Engine) (t : Tick) :
  safe_tick self t = true ->
  exists d self',
    decide self t = Ok (d, self') /\
    after self [t] = self' /\
    Utils.privacy_on d = privacy_on self' /\
    privacy_on self' =
      (if off_condition self t then false else privacy_on self) /\
    safe_frame_counter self' =
      (if off_condition self t then 0%Z else safe_frames self) /\
    safe_start_time self' = Some (safe_start self t).
Proof.
  unfold safe_tick. intros H.
  destruct (count_faces self t) as [c|e] eqn:Hc; [|discriminate].
  apply negb_true_iff in H.
  destruct (transition_safe self t c H) as (d & self' & Ht & _ & H1 & H2 & _ & H3 & H4).
  exists d, self'. unfold after, decide. simpl. unfold decide.
  rewrite Hc. simpl. rewrite Ht. simpl. repeat split; assumption.
Qed.

(** A risky call: [decide] returns, and both safe-side fields are cleared. *)
Lemma decide_risky (self : Engine) (t : Tick) :
  risky_tick self t = true ->
  exists d self',
    decide self t = Ok (d, self') /\
    after self [t] = self' /\
    Utils.privacy_on d = privacy_on self' /\
    privacy_on self' =
      (if (debounce_on_frames self <=? risk_counter self + 1)%Z
       then true else privacy_on self) /\
    risk_counter self' = (risk_counter self + 1)%Z /\
    safe_frame_counter self' = 0%Z /\
    safe_start_time self' = None.
Proof.
  unfold risky_tick. intros H.
  destruct (count_faces self t) as [c|e] eqn:Hc; [|discriminate].
  destruct (transition_risky self t c H) as (d & self' & Ht & _ & H1 & H2 & H3 & H4 & H5).
  exists d, self'. unfold after, decide. simpl. unfold decide.
  rewrite Hc. simpl. rewrite Ht. simpl. repeat split; assumption.
Qed.

Lemma off_condition_iff (self : Engine) (t : Tick) :
  off_condition self t = true <->
  debounce_off_seconds self <= time_safe self t /\
  (debounce_off_frames self <= safe_frames self)%Z.
Proof.
  unfold off_condition. rewrite andb_true_iff, Qle_bool_iff, Z.leb_le.
  reflexivity.
Qed.

Lemma off_condition_config (self self' : Engine) (t : Tick) :
  config self' = config self ->
  off_condition self' t = true <->
  debounce_off_seconds self <= time_safe self' t /\
  (debounce_off_frames self <= safe_frames self')%Z.
Proof.
  intros H. rewrite off_condition_iff.
  unfold config in H. injection H as _ _ _ -> -> _. reflexivity.
Qed.

(** After safe ticks only, privacy that is still on was on all along, and
    the two safe-side fields describe the whole run. *)
Lemma safe_run_fields (safes : list Tick) :
  forall self,
    safe_start_time self = None -> safe_frame_counter self = 0%Z ->
    Forall (fun t => safe_tick self t = true) safes ->
    privacy_on (after self safes) = true ->
    privacy_on self = true /\
    safe_frame_counter (after self safes) = Z.of_nat (List.length safes) /\
    safe_start_time (after self safes) =
      match safes with
      | [] => None
      | first :: _ => Some (now first 0%nat)
      end.
Proof.
  induction safes as [|t safes IH] using rev_ind; intros self Hs Hc Hall Hon.
  - repeat split; assumption.
  - apply Forall_app in Hall. destruct Hall as [Hall Ht].
    inversion Ht as [|? ? Hsafe _]; subst.
    rewrite after_app in *.
    set (mid := after self safes) in *.
    rewrite <- (safe_tick_config self mid) in Hsafe by apply after_config.
    destruct (decide_safe mid t Hsafe) as (d & e' & _ & He' & _ & Hp & Hf & Hst).
    rewrite He' in *. rewrite Hp in Hon.
    destruct (off_condition mid t); [discriminate|].
    destruct (IH self Hs Hc Hall Hon) as (H1 & H2 & H3).
    split; [assumption|]. split.
    + rewrite Hf. unfold safe_frames. fold mid in H2. rewrite H2.
      rewrite length_app. simpl. lia.
    + rewrite Hst. unfold safe_start. fold mid in H3. rewrite H3.
      destruct safes; reflexivity.
Qed.

(** One safe call on an engine whose privacy is on. *)
Lemma off_step (self : Engine) (t : Tick) :
  privacy_on self = true -> safe_tick self t = true ->
  exists d self',
    decide self t = Ok (d, self') /\
    Utils.privacy_on d = privacy_on self' /\
    (privacy_on self' = false <->
     debounce_off_seconds self <= time_safe self t /\
     (debounce_off_frames self <= safe_frames self)%Z) /\
    (~ (debounce_off_seconds self <= time_safe self t /\
        (debounce_off_frames self <= safe_frames self)%Z) ->
     privacy_on self' = privacy_on self).
Proof.
  intros Hon Hsafe.
  destruct (decide_safe self t Hsafe) as (d & e' & Hd & _ & Hpd & Hp & _).
  exists d, e'. split; [assumption|]. split; [assumption|].
  rewrite <- off_condition_iff, Hp, Hon.
  destruct (off_condition self t).
  - split; [split; reflexivity|]. intros H. exfalso. apply H. reflexivity.
  - split; [split; discriminate|]. reflexivity.
Qed.

(** A risky call, then safe calls: the last of them turns privacy off
    exactly when the time since the first safe call and the number of safe
    calls both reach their bounds. *)
Lemma off_trace (self : Engine) (r : Tick) (safes : list Tick) (last : Tick) :
  risky_tick self r = true ->
  Forall (fun t => safe_tick self t = true) (safes ++ [last]) ->
  privacy_on (after self (r :: safes)) = true ->
  (privacy_on (after self (r :: safes ++ [last])) = false <->
   debounce_off_seconds self <= elapsed_since_first safes last /\
   (debounce_off_frames self <= Z.of_nat (List.length safes) + 1)%Z).
Proof.
  intros Hr Hall Hon.
  apply Forall_app in Hall. destruct Hall as [Hall Hl].
  inversion Hl as [|? ? Hsafe _]; subst.
  rewrite after_cons in Hon.
  change (r :: safes ++ [last]) with ((r :: safes) ++ [last]).
  rewrite after_app, (after_cons self r safes).
  destruct (decide_risky self r Hr) as (d0 & e0 & _ & E0 & _ & _ & _ & Hc0 & Hs0).
  rewrite E0 in *.
  assert (Hcfg0 : config e0 = config self) by (rewrite <- E0; apply after_config).
  assert (Hall0 : Forall (fun t => safe_tick e0 t = true) safes).
  { eapply Forall_impl; [|exact Hall]. intros t Ht. simpl in Ht.
    now rewrite (safe_tick_config _ _ _ Hcfg0). }
  destruct (safe_run_fields safes e0 Hs0 Hc0 Hall0 Hon) as (_ & Hf & Hst).
  set (mid := after e0 safes) in *.
  assert (Hcfg : config mid = config self)
    by (unfold mid; rewrite after_config; exact Hcfg0).
  rewrite <- (safe_tick_config self mid _ Hcfg) in Hsafe.
  destruct (decide_safe mid last Hsafe) as (d & e' & _ & He' & _ & Hp & _).
  rewrite He', Hp, Hon.
  assert (Ht : time_safe mid last = elapsed_since_first safes last).
  { unfold time_safe, elapsed_since_first. rewrite Hst.
    destruct safes; reflexivity. }
  assert (Hn : safe_frames mid = (Z.of_nat (List.length safes) + 1)%Z).
  { unfold safe_frames. now rewrite Hf. }
  rewrite <- Ht, <- Hn, <- (off_condition_config self mid last Hcfg).
  destruct (off_condition mid last); split; congruence.
Qed.

(** C1: on an engine whose [privacy_on] is true, a safe tick makes [decide]
    return and sets [privacy_on] to false if and only if the elapsed safe
    time has reached [debounce_off_seconds] and the incremented safe-frame
    counter has reached [debounce_off_frames]; otherwise [privacy_on] keeps
    its value.  After a risky tick followed by safe ticks that left privacy
    on, those two quantities are the time since the first of the safe ticks
    and their number.  With the defaults, 40 safe ticks 10 ms apart and 5
    safe ticks 1 s apart leave privacy on at every tick, while 30 safe ticks
    100 ms apart turn it off at the 30th. *)
Theorem off_requires_time_and_frames :
  (forall self t,
     privacy_on self = true -> safe_tick self t = true ->
     exists d self',
       decide self t = Ok (d, self') /\
       Utils.privacy_on d = privacy_on self' /\
       (privacy_on self' = false <->
        debounce_off_seconds self <= time_safe self t /\
        (debounce_off_frames self <= safe_frames self)%Z) /\
       (~ (debounce_off_seconds self <= time_safe self t /\
           (debounce_off_frames self <= safe_frames self)%Z) ->
        privacy_on self' = privacy_on self)) /\
  (forall self r safes last,
     risky_tick self r = true ->
     Forall (fun t => safe_tick self t = true) (safes ++ [last]) ->
     privacy_on (after self (r :: safes)) = true ->
     (privacy_on (after self (r :: safes ++ [last])) = false <->
      debounce_off_seconds self <= elapsed_since_first safes last /\
      (debounce_off_frames self <= Z.of_nat (List.length safes) + 1)%Z)) /\
  privacy_on alarmed_engine = true /\
  flags (decisions alarmed_engine (safe_ticks 0 (1 # 100) 40)) = repeat true 40 /\
  flags (decisions alarmed_engine (safe_ticks 0 1 5)) = repeat true 5 /\
  flags (decisions alarmed_engine (safe_ticks 0 (1 # 10) 30))
  = repeat true 29 ++ [false].
Proof.
  split; [exact off_step|]. split; [exact off_trace|].
  repeat split; vm_compute; reflexivity.
Qed.

Lemma off_requires_time_and_frames_witness :
  exists d self',
    decide alarmed_engine (tick_at 1 empty_scene) = Ok (d, self') /\
    Utils.privacy_on d = privacy_on self' /\
    (privacy_on self' = false <->
     debounce_off_seconds alarmed_engine
     <= time_safe alarmed_engine (tick_at 1 empty_scene) /\
     (debounce_off_frames alarmed_engine <= safe_frames alarmed_engine)%Z) /\
    (~ (debounce_off_seconds alarmed_engine
        <= time_safe alarmed_engine (tick_at 1 empty_scene) /\
        (debounce_off_frames alarmed_engine
         <= safe_frames alarmed_engine)%Z) ->
     privacy_on self' = privacy_on alarmed_engine).
Proof.
  apply (proj1 off_requires_time_and_frames alarmed_engine
           (tick_at 1 empty_scene)).
  - vm_compute. reflexivity.
  - vm_compute. reflexivity.
Defined.

(** C2: on an engine just constructed with [face_count_threshold=2],
    [area_ratio_threshold=0.02], [debounce_on_frames=2],
    [debounce_off_seconds=0.8], [debounce_off_frames=30] (in either mode),
    two consecutive ticks that each count two other faces make [decide]
    return twice; [privacy_on] is still false after the first call and true
    after the second. *)
Theorem two_risky_ticks_turn_on (use_iv : bool) (t1 t2 : Tick)
  (c1 c2 : Counts) :
  let e0 := new_engine 2 (2 # 100) 2 (8 # 10) 30 use_iv in
  count_faces e0 t1 = Ok c1 -> c_other_face_count c1 = 2%Z ->
  count_faces e0 t2 = Ok c2 -> c_other_face_count c2 = 2%Z ->
  exists d1 e1 d2 e2,
    decide e0 t1 = Ok (d1, e1) /\ decide e1 t2 = Ok (d2, e2) /\
    Utils.privacy_on d1 = false /\ privacy_on e1 = false /\
    Utils.privacy_on d2 = true /\ privacy_on e2 = true.
Proof.
  intros e0 Hc1 Ho1 Hc2 Ho2.
  assert (R1 : risky_tick e0 t1 = true).
  { unfold risky_tick, is_risky. rewrite Hc1, Ho1. reflexivity. }
  destruct (decide_risky e0 t1 R1) as (d1 & e1 & Hd1 & _ & Hp1 & He1 & Hr1 & _).
  assert (Hcfg : config e1 = config e0) by (eapply decide_config; eassumption).
  assert (R2 : risky_tick e1 t2 = true).
  { unfold risky_tick. rewrite (count_faces_config _ _ _ Hcfg), Hc2.
    rewrite (is_risky_config _ _ _ Hcfg). unfold is_risky. rewrite Ho2.
    reflexivity. }
  destruct (decide_risky e1 t2 R2) as (d2 & e2 & Hd2 & _ & Hp2 & He2 & _).
  exists d1, e1, d2, e2.
  assert (On : debounce_on_frames e1 = 2%Z).
  { unfold config in Hcfg. injection Hcfg as _ _ -> _ _ _. reflexivity. }
  rewrite On, Hr1 in He2. simpl in He1, He2.
  repeat split; congruence.
Qed.

Lemma two_risky_ticks_turn_on_witness :
  exists d1 e1 d2 e2,
    decide default_engine (tick_at 0 crowd) = Ok (d1, e1) /\
    decide e1 (tick_at (1 # 10) crowd) = Ok (d2, e2) /\
    Utils.privacy_on d1 = false /\ privacy_on e1 = false /\
    Utils.privacy_on d2 = true /\ privacy_on e2 = true.
Proof.
  eapply (two_risky_ticks_turn_on false (tick_at 0 crowd)
            (tick_at (1 # 10) crowd)).
  - vm_compute. reflexivity.
  - reflexivity.
  - vm_compute. reflexivity.
  - reflexivity.
Defined.

End DebounceFacts.

(** ** Embedder: norms, dot products and similarity *)

Module EmbedderFacts.
Import Py Embedder.
Local Open Scope R_scope.

Lemma eps_pos : 0 < eps.
Proof. unfold eps. rlra. Qed.

Lemma sumsq_nonneg (v : Vec) : 0 <= sumsq v.
Proof.
  induction v as [|x v IH]; simpl; [rlra|].
  pose proof (Rle_0_sqr x) as Hx. unfold Rsqr in Hx. rlra.
Qed.


Lemma norm_sqr (v : Vec) : norm v * norm v = sumsq v.
Proof. apply sqrt_sqrt, sumsq_nonneg. Qed.

Lemma sumsq_opp (v : Vec) : sumsq (map Ropp v) = sumsq v.
Proof.
  induction v as [|x v IH]; simpl; [reflexivity|].
  fold (sumsq v) (sumsq (map Ropp v)). rewrite IH. ring.
Qed.

Lemma norm_opp (v : Vec) : norm (map Ropp v) = norm v.
Proof. unfold norm. fold (sumsq v) (sumsq (map Ropp v)). now rewrite sumsq_opp. Qed.

Lemma sumsq_zeros (n : nat) : sumsq (zeros n) = 0.
Proof.
  induction n as [|n IH]; simpl; [reflexivity|].
  fold (zeros n) (sumsq (zeros n)). rewrite IH. ring.
Qed.

Lemma norm_zeros (n : nat) : norm (zeros n) = 0.
Proof.
  unfold norm. fold (sumsq (zeros n)). rewrite sumsq_zeros. apply sqrt_0.
Qed.

Lemma l2_normalize_zeros (n : nat) : l2_normalize (zeros n) = zeros n.
Proof.
  unfold l2_normalize. rewrite norm_zeros. unfold zeros.
  induction n as [|n IH]; simpl; [reflexivity|].
  rewrite IH. f_equal. unfold Rdiv. ring.
Qed.

Lemma dot_self (v : Vec) : dot v v = Ok (sumsq v).
Proof.
  induction v as [|x v IH]; simpl; [reflexivity|].
  rewrite IH. reflexivity.
Qed.

Lemma dot_opp (v : Vec) : dot v (map Ropp v) = Ok (- sumsq v).
Proof.
  induction v as [|x v IH]; simpl.
  - f_equal. ring.
  - rewrite IH. simpl. fold (sumsq v). f_equal. ring.
Qed.

Lemma dot_comm (a : Vec) : forall b, dot a b = dot b a.
Proof.
  induction a as [|x a IH]; intros [|y b]; simpl; try reflexivity.
  rewrite IH. destruct (dot b a); simpl; [f_equal; ring|reflexivity].
Qed.

Lemma dot_returns (a : Vec) :
  forall b, List.length a = List.length b -> exists s, dot a b = Ok s.
Proof.
  induction a as [|x a IH]; intros [|y b] H; simpl in *; try discriminate.
  - now exists 0.
  - injection H as H. destruct (IH b H) as [s ->]. simpl. eexists. reflexivity.
Qed.

(** Dividing both arguments by constants divides the product. *)
Lemma dot_scaled (c c' : R) (a : Vec) :
  forall b,
    dot (map (fun x => x / c) a) (map (fun y => y / c') b)
    = bind (dot a b) (fun s => Ok (s / (c * c'))).
Proof.
  intros b. revert b.
  assert (Hz : forall x y, c * c' = 0 -> x / c * (y / c') = 0).
  { intros x y H. apply Rmult_integral in H. unfold Rdiv.
    destruct H as [-> | ->]; rewrite Rinv_0; ring. }
  induction a as [|x a IH]; intros [|y b]; simpl; try reflexivity.
  - f_equal. unfold Rdiv. ring.
  - rewrite IH. destruct (dot a b) as [s|e]; simpl; [|reflexivity].
    f_equal.
    destruct (Req_dec (c * c') 0) as [E|E].
    + rewrite (Hz x y E). unfold Rdiv. rewrite E, Rinv_0. ring.
    + assert (c <> 0) by (intro Hc; apply E; rewrite Hc; ring).
      assert (c' <> 0) by (intro Hc; apply E; rewrite Hc; ring).
      field. split; assumption.
Qed.

Lemma dot_zeros (n : nat) (v : Vec) :
  List.length v = n -> dot (zeros n) v = Ok 0.
Proof.
  revert v. induction n as [|n IH]; intros [|x v] H; simpl in *;
    try discriminate; [reflexivity|].
  injection H as H. fold (zeros n). rewrite (IH v H). simpl. f_equal. ring.
Qed.

Lemma length_l2_normalize (v : Vec) :
  List.length (l2_normalize v) = List.length v.
Proof. unfold l2_normalize. apply length_map. Qed.

Lemma clamp_range (x : R) : 0 <= py_max 0 (py_min 1 x) <= 1.
Proof.
  unfold py_max, py_min.
  destruct (Rlt_dec x 1); destruct (Rlt_dec 0 _); rlra.
Qed.

Lemma clamp_inside (x : R) : 0 <= x <= 1 -> py_max 0 (py_min 1 x) = x.
Proof.
  intros H. unfold py_max, py_min.
  destruct (Rlt_dec x 1); destruct (Rlt_dec 0 _); rlra.
Qed.

(** The value of [similarity] on two non-empty vectors whose product is
    defined. *)
Lemma similarity_value (a b : Vec) (s : R) :
  a <> [] -> b <> [] -> dot a b = Ok s ->
  similarity (Some a) (Some b)
  = Ok (py_max 0 (py_min 1
          ((s / ((norm a + eps) * (norm b + eps)) + 1) / 2))).
Proof.
  intros Ha Hb Hs. unfold similarity.
  destruct a as [|x a]; [contradiction|]. destruct b as [|y b]; [contradiction|].
  cbn [List.length Nat.eqb orb].
  unfold l2_normalize. rewrite dot_scaled, Hs. reflexivity.
Qed.

Lemma similarity_range (a b : option Vec) (s : R) :
  similarity a b = Ok s -> 0 <= s <= 1.
Proof.
  unfold similarity. destruct a as [a|], b as [b|];
    try (intros H; injection H as <-; rlra).
  destruct (_ || _); [intros H; injection H as <-; rlra|].
  destruct (dot _ _); simpl; [|discriminate].
  intros H. injection H as <-. apply clamp_range.
Qed.

Lemma similarity_sym (a b : option Vec) : similarity a b = similarity b a.
Proof.
  unfold similarity. destruct a as [a|], b as [b|]; try reflexivity.
  rewrite orb_comm. destruct (_ || _); [reflexivity|].
  now rewrite dot_comm.
Qed.

Lemma similarity_returns (a b : Vec) :
  List.length a = List.length b ->
  exists s, similarity (Some a) (Some b) = Ok s.
Proof.
  intros H. unfold similarity. destruct (_ || _); [now exists 0|].
  destruct (dot_returns (l2_normalize a) (l2_normalize b)) as [s ->].
  - now rewrite !length_l2_normalize.
  - simpl. eexists. reflexivity.
Qed.

Lemma clamp_upper_half (x : R) :
  1 / 2 <= x -> 1 / 2 <= py_max 0 (py_min 1 x) <= 1.
Proof.
  intros H. unfold py_max, py_min.
  destruct (Rlt_dec x 1); destruct (Rlt_dec 0 _); rlra.
Qed.

Lemma clamp_lower_half (x : R) :
  x <= 1 / 2 -> 0 <= py_max 0 (py_min 1 x) <= 1 / 2.
Proof.
  intros H. unfold py_max, py_min.
  destruct (Rlt_dec x 1); destruct (Rlt_dec 0 _); rlra.
Qed.






(** The value at [[1e-8]]: 0.625 with itself, 0.375 with its opposite. *)
Lemma similarity_at_eps :
  similarity (Some [eps]) (Some [eps]) = Ok (5 / 8) /\
  similarity (Some [eps]) (Some (map Ropp [eps])) = Ok (3 / 8).
Proof.
  pose proof eps_pos as He.
  assert (Hn : norm [eps] = eps).
  { unfold norm. simpl. rewrite Rplus_0_r. apply sqrt_square. rlra. }
  assert (Hs : sumsq [eps] = eps * eps) by (simpl; ring).
  assert (Hne : [eps] <> []) by discriminate.
  assert (Hne' : map Ropp [eps] <> []) by discriminate.
  pose proof (similarity_value [eps] [eps] _ Hne Hne (dot_self [eps])) as S1.
  pose proof (similarity_value [eps] _ _ Hne Hne' (dot_opp [eps])) as S2.
  rewrite norm_opp in S2. rewrite Hn, Hs in S1, S2.
  assert (E1 : (eps * eps / ((eps + eps) * (eps + eps)) + 1) / 2 = 5 / 8)
    by (field; rlra).
  assert (E2 : (- (eps * eps) / ((eps + eps) * (eps + eps)) + 1) / 2 = 3 / 8)
    by (field; rlra).
  rewrite E1 in S1. rewrite E2 in S2.
  rewrite clamp_inside in S1 by rlra. rewrite clamp_inside in S2 by rlra.
  split; [exact S1|exact S2].
Qed.




End EmbedderFacts.

(** ** Embedder: what [compute_embedding] returns *)

Module ComputeFacts.
Import Py Embedder EmbedderFacts.
Local Open Scope R_scope.

Lemma length_randn `{Cv2} (n : nat) : List.length (randn n) = n.
Proof. unfold randn. now rewrite length_map, length_seq. Qed.

Lemma nth_randn `{Cv2} (n k : nat) :
  (k < n)%nat -> nth k (randn n) 0 = randn_draw k.
Proof.
  intros Hk. unfold randn.
  rewrite (nth_indep _ 0 (randn_draw 0%nat))
    by (now rewrite length_map, length_seq).
  rewrite (map_nth randn_draw (seq 0 n) 0%nat k), seq_nth by assumption.
  reflexivity.
Qed.

Lemma length_zeros (n : nat) : List.length (zeros n) = n.
Proof. apply repeat_length. Qed.

(** Without the pretrained strategy a non-empty crop goes to the feature
    strategy and the embedder is unchanged. *)
Lemma compute_embedding_features `{Cv2} (self : FaceEmbedder) (crop : Image) :
  size crop <> 0%nat -> dnn_unavailable self ->
  compute_embedding self (Some crop)
  = (_compute_feature_embedding self crop, self).
Proof.
  intros Hsize Hdnn. unfold compute_embedding.
  destruct (Nat.eqb_spec (size crop) 0) as [E|_]; [contradiction|].
  destruct Hdnn as [-> | ->]; [reflexivity|].
  destruct (use_dnn self); reflexivity.
Qed.

(** In the scope of the window-size tuple only [builtins] could bind
    [_64]. *)
Lemma load_64 `{Cv2} :
  assoc "_64" builtins = None -> load_name feature_scope "_64" = Raise NameError.
Proof.
  intros Hb. unfold load_name, feature_scope. cbn. now rewrite Hb.
Qed.

Lemma feature_try_raises `{Cv2} (n : nat) (crop : Image) :
  assoc "_64" builtins = None -> exists e, feature_try n crop = Raise e.
Proof.
  intros Hb. unfold feature_try.
  destruct (resize crop _) as [face_resized|e]; simpl; [|now exists e].
  destruct (cvtColor face_resized _) as [gray|e]; simpl; [|now exists e].
  rewrite (load_64 Hb). simpl. now exists NameError.
Qed.

Lemma sumsq_const (c : R) (n : nat) :
  sumsq (map (fun _ : nat => c) (seq 0 n)) = INR n * (c * c).
Proof.
  generalize 0%nat. induction n as [|n IH]; intros start.
  - simpl. ring.
  - rewrite S_INR. cbn [seq map sumsq fold_right].
    fold (sumsq (map (fun _ : nat => c) (seq (S start) n))).
    rewrite IH. ring.
Qed.

Lemma similarity_zeros_left (n : nat) (v : Vec) :
  n <> 0%nat -> List.length v = n ->
  similarity (Some (zeros n)) (Some v) = Ok (1 / 2).
Proof.
  intros Hn Hv.
  assert (Hz : zeros n <> []) by (destruct n; [contradiction|discriminate]).
  assert (Hne : v <> []) by (intros ->; simpl in Hv; congruence).
  refine (eq_trans (similarity_value (zeros n) v 0 Hz Hne (dot_zeros n v Hv)) _).
  f_equal.
  replace ((0 / ((norm (zeros n) + eps) * (norm v + eps)) + 1) / 2)
    with (1 / 2) by (unfold Rdiv; ring).
  apply clamp_inside. rlra.
Qed.

(** C10: for an embedder of dimension 128, a [None] crop or a crop of size
    0 makes [compute_embedding] return the vector of 128 zeros and leave the
    embedder as it was; that vector has norm 0, not 1, and its similarity
    with any vector of the same dimension, in either order, is 0.5. *)
Theorem empty_crop_zero_vector `{Cv2} (self : FaceEmbedder)
  (face_crop : option Image) (v : Vec) :
  embedding_size self = 128%nat ->
  face_crop = None \/ (exists img, face_crop = Some img /\ size img = 0%nat) ->
  List.length v = 128%nat ->
  compute_embedding self face_crop = (zeros 128, self) /\
  List.length (zeros 128) = 128%nat /\
  norm (zeros 128) = 0 /\
  norm (zeros 128) <> 1 /\
  similarity (Some (zeros 128)) (Some v) = Ok (1 / 2) /\
  similarity (Some v) (Some (zeros 128)) = Ok (1 / 2).
Proof.
  intros Hsize Hcrop Hv.
  assert (S : similarity (Some (zeros 128)) (Some v) = Ok (1 / 2))
    by (apply similarity_zeros_left; [discriminate|assumption]).
  split.
  - unfold compute_embedding. rewrite Hsize.
    destruct Hcrop as [->|(img & -> & ->)]; reflexivity.
  - split; [apply length_zeros|].
    split; [apply norm_zeros|].
    split; [rewrite norm_zeros; rlra|].
    split; [exact S|]. rewrite similarity_sym. exact S.
Qed.

Lemma empty_crop_zero_vector_witness :
  @compute_embedding plain_cv2 new_embedder None = (zeros 128, new_embedder) /\
  similarity (Some (zeros 128)) (Some (repeat 1 128)) = Ok (1 / 2).
Proof.
  destruct (@empty_crop_zero_vector plain_cv2 new_embedder None (repeat 1 128))
    as (H1 & _ & _ & _ & H2 & _).
  - reflexivity.
  - left. reflexivity.
  - apply repeat_length.
  - split; [exact H1|exact H2].
Defined.

Lemma sqrt_one_iff (x : R) : 0 <= x -> (sqrt x = 1 <-> x = 1).
Proof.
  intros Hx. split; intros H.
  - rewrite <- (sqrt_sqrt x Hx), H. ring.
  - rewrite H. apply sqrt_1.
Qed.

(** C5, as the code has it: when the feature computation raises on a
    non-empty crop and the pretrained strategy is not in use,
    [compute_embedding] returns without raising; the result is the 128
    samples drawn by [np.random.randn], unscaled, so its norm is 1 only if
    their squares happen to sum to 1. *)
Theorem fallback_on_feature_failure `{Cv2} (self : FaceEmbedder)
  (crop : Image) (e : exn) :
  embedding_size self = 128%nat -> size crop <> 0%nat ->
  dnn_unavailable self ->
  feature_try 128 crop = Raise e ->
  compute_embedding self (Some crop) = (randn 128, self) /\
  List.length (randn 128) = 128%nat /\
  (forall k, (k < 128)%nat -> nth k (randn 128) 0 = randn_draw k) /\
  (norm (randn 128) = 1 <-> sumsq (randn 128) = 1).
Proof.
  intros Hsize Hcrop Hdnn Hraise.
  split.
  - rewrite (compute_embedding_features self crop Hcrop Hdnn).
    unfold _compute_feature_embedding. now rewrite Hsize, Hraise.
  - split; [apply length_randn|].
    split; [intros k Hk; now apply nth_randn|].
    apply sqrt_one_iff, sumsq_nonneg.
Qed.

Lemma plain_feature_try_raises :
  @feature_try plain_cv2 128 small_crop = Raise NameError.
Proof. reflexivity. Qed.

Lemma fallback_on_feature_failure_witness :
  @compute_embedding plain_cv2 new_embedder (Some small_crop)
  = (@randn plain_cv2 128, new_embedder) /\
  List.length (@randn plain_cv2 128) = 128%nat.
Proof.
  destruct (@fallback_on_feature_failure plain_cv2 new_embedder small_crop
              NameError) as (H1 & H2 & _).
  - reflexivity.
  - discriminate.
  - left. reflexivity.
  - exact plain_feature_try_raises.
  - split; [exact H1|exact H2].
Defined.

Lemma plain_fallback :
  fst (@compute_embedding plain_cv2 new_embedder (Some small_crop))
  = @randn plain_cv2 128.
Proof.
  rewrite (@compute_embedding_features plain_cv2 new_embedder small_crop);
    [|discriminate|left; reflexivity].
  unfold _compute_feature_embedding. simpl embedding_size.
  now rewrite plain_feature_try_raises.
Qed.

(** C5, as stated, fails: when every sample drawn is 1 the fallback vector
    has norm [sqrt 128]. *)
Lemma fallback_not_unit :
  @feature_try plain_cv2 128 small_crop = Raise NameError /\
  ~ @unit_fallback plain_cv2 new_embedder small_crop.
Proof.
  split; [exact plain_feature_try_raises|].
  unfold unit_fallback. rewrite plain_fallback.
  intros H. change (sqrt (sumsq (@randn plain_cv2 128)) = 1) in H.
  apply (proj1 (sqrt_one_iff _ (sumsq_nonneg _))) in H.
  unfold randn in H. simpl randn_draw in H.
  rewrite sumsq_const, INR_IZR_INZ in H. simpl Z.of_nat in H. rlra.
Qed.

(** C4: the claim fails on the code.  Whatever OpenCV computes, as long as
    the built-in names do not include [_64], the feature strategy raises
    [NameError] while building the HOG window size (or an earlier OpenCV
    error), and a non-empty crop gets the fallback samples instead of the
    normalised descriptor. *)
Theorem feature_strategy_always_falls_back `{Cv2} (self : FaceEmbedder)
  (crop : Image) :
  assoc "_64" builtins = None -> size crop <> 0%nat ->
  dnn_unavailable self ->
  (exists e, feature_try (embedding_size self) crop = Raise e) /\
  compute_embedding self (Some crop) = (randn (embedding_size self), self).
Proof.
  intros Hb Hcrop Hdnn.
  destruct (feature_try_raises (embedding_size self) crop Hb) as [e He].
  split; [now exists e|].
  rewrite (compute_embedding_features self crop Hcrop Hdnn).
  unfold _compute_feature_embedding. now rewrite He.
Qed.

Lemma feature_strategy_always_falls_back_witness :
  (exists e, @feature_try plain_cv2 128 small_crop = Raise e) /\
  @compute_embedding plain_cv2 new_embedder (Some small_crop)
  = (@randn plain_cv2 128, new_embedder).
Proof.
  apply (@feature_strategy_always_falls_back plain_cv2 new_embedder small_crop).
  - reflexivity.
  - discriminate.
  - left. reflexivity.
Defined.

(** On the stand-in the descriptor that was meant exists and differs from
    what [compute_embedding] returns. *)
Lemma feature_strategy_divergence :
  @intended_features plain_cv2 128 small_crop = Ok (assemble 128 [1] []) /\
  fst (@compute_embedding plain_cv2 new_embedder (Some small_crop))
  <> assemble 128 [1] [].
Proof.
  split; [reflexivity|].
  rewrite plain_fallback. intros E.
  apply (f_equal (fun v => nth 1 v 0)) in E.
  rewrite (@nth_randn plain_cv2 128 1) in E by lia.
  unfold assemble, l2_normalize in E.
  set (c := norm _ + eps) in E.
  cbn in E. unfold Rdiv in E. rewrite Rmult_0_l in E.
  rlra.
Qed.

End ComputeFacts.

(** ** Verifier *)

Module VerifyFacts.
Import Py Utils Embedder EmbedderFacts Verify.
Local Open Scope R_scope.

Lemma verify_disabled (self : FaceVerifier) (embedding : Vec) :
  template_embedding self = None ->
  verify self embedding = Ok ("OTHER"%string, 0).
Proof. intros H. unfold verify, is_enabled. now rewrite H. Qed.

Lemma verify_enabled (self : FaceVerifier) (embedding template : Vec) (sim : R) :
  template_embedding self = Some template ->
  Embedder.similarity (Some embedding) (Some template) = Ok sim ->
  verify self embedding
  = Ok (if Rge_dec sim (similarity_threshold self)
        then "ME"%string else "OTHER"%string, sim).
Proof.
  intros Ht Hs. unfold verify, is_enabled. rewrite Ht. cbn [negb].
  rewrite Hs. cbn [bind]. destruct (Rge_dec sim (similarity_threshold self));
    reflexivity.
Qed.

(** C7: without a template [verify] returns [("OTHER", 0.0)] for every
    embedding.  With a template, the similarity is computed whenever the
    embedding has the template's length, and [verify] returns it together
    with the label ["ME"] (the enrolled user) when it is at least the
    threshold, equality included, and ["OTHER"] when it is below. *)
Theorem verify_labels (self : FaceVerifier) (embedding : Vec) :
  (template_embedding self = None ->
   verify self embedding = Ok ("OTHER"%string, 0)) /\
  (forall template, template_embedding self = Some template ->
     (List.length embedding = List.length template ->
      exists sim,
        Embedder.similarity (Some embedding) (Some template) = Ok sim) /\
     (forall sim,
        Embedder.similarity (Some embedding) (Some template) = Ok sim ->
        (similarity_threshold self <= sim ->
         verify self embedding = Ok ("ME"%string, sim)) /\
        (sim = similarity_threshold self ->
         verify self embedding = Ok ("ME"%string, sim)) /\
        (sim < similarity_threshold self ->
         verify self embedding = Ok ("OTHER"%string, sim)))).
Proof.
  split; [apply verify_disabled|].
  intros template Ht. split; [apply similarity_returns|].
  intros sim Hs. rewrite (verify_enabled self embedding template sim Ht Hs).
  destruct (Rge_dec sim (similarity_threshold self)) as [Hge|Hlt].
  - repeat split; intros; try reflexivity. rlra.
  - repeat split; intros; try reflexivity; exfalso; apply Hlt; rlra.
Qed.

Lemma verify_labels_witness :
  verify (mkFaceVerifier (Some [eps]) (5 / 8)) [eps] = Ok ("ME"%string, 5 / 8).
Proof.
  apply (proj1 (proj2 (proj2 (proj2
           (verify_labels (mkFaceVerifier (Some [eps]) (5 / 8)) [eps])
           [eps] eq_refl) (5 / 8) (proj1 similarity_at_eps)))).
  reflexivity.
Defined.

End VerifyFacts.

(** * Further properties *)

(** ** Detector: the overlap measure *)

Module OverlapFacts.
Import PyQ PyQFacts Utils Detector DetectorSpec.
Local Open Scope Q_scope.

(** The two ways [_compute_iou] ends. *)
Lemma compute_iou_cases (b1 b2 : Box4) :
  (~ overlapping b1 b2 /\ _compute_iou b1 b2 = 0) \/
  (overlapping b1 b2 /\
   exists inter union,
     _compute_iou b1 b2 = inter / union /\
     0 < inter /\ inter <= union).
Proof.
  destruct b1 as [[[x1 y1] X1] Y1], b2 as [[[x2 y2] X2] Y2].
  unfold _compute_iou, overlapping. cbv zeta.
  destruct (py_max_spec x1 x2) as [[Hx ->]|[Hx ->]];
  destruct (py_max_spec y1 y2) as [[Hy ->]|[Hy ->]];
  destruct (py_min_spec X1 X2) as [[HX ->]|[HX ->]];
  destruct (py_min_spec Y1 Y2) as [[HY ->]|[HY ->]];
  match goal with
  | |- context [Qle_bool ?a ?b || Qle_bool ?c ?d] =>
      destruct (Qle_bool a b) eqn:Ea; [apply Qle_bool_iff in Ea|];
      [left; split; [intros H; decompose [and] H; qlra|reflexivity]|];
      destruct (Qle_bool c d) eqn:Ec; [apply Qle_bool_iff in Ec|];
      [left; split; [intros H; decompose [and] H; qlra|reflexivity]|];
      assert (La : b < a)
        by (apply Qnot_le_lt; intro L; apply Qle_bool_iff in L; congruence);
      assert (Lc : d < c)
        by (apply Qnot_le_lt; intro L; apply Qle_bool_iff in L; congruence)
  end;
  cbn [orb];
  match goal with
  | |- context [Qltb 0 ?u] =>
      assert (Hu : 0 < u) by qnra;
      rewrite (proj2 (Qltb_lt 0 u) Hu)
  end;
  right; (split; [repeat split; qlra|]);
  do 2 eexists; (split; [reflexivity|]); split; qnra.
Qed.

(** X1.  Whatever the two boxes, [_compute_iou] lies in [[0, 1]] and does
    not depend on their order. *)
Theorem iou_range_sym (b1 b2 : Box4) :
  0 <= _compute_iou b1 b2 <= 1 /\ _compute_iou b1 b2 == _compute_iou b2 b1.
Proof.
  split; [|apply DetectorFacts.compute_iou_sym].
  destruct (compute_iou_cases b1 b2)
    as [[_ ->]|[_ (inter & union & -> & Hi & Hu)]]; [qlra|].
  assert (Hpos : 0 < union) by qlra. split.
  - apply Qle_shift_div_l; [assumption|]. qlra.
  - apply Qle_shift_div_r; [assumption|]. qlra.
Qed.

(** X2.  The IoU is positive exactly when the interiors of the two boxes
    meet; otherwise it is the literal 0. *)
Theorem iou_positive_iff_overlapping (b1 b2 : Box4) :
  (0 < _compute_iou b1 b2 <-> overlapping b1 b2) /\
  (~ overlapping b1 b2 -> _compute_iou b1 b2 = 0).
Proof.
  destruct (compute_iou_cases b1 b2)
    as [[Hn E]|[Ho (inter & union & E & Hi & Hu)]]; rewrite E.
  - split; [|reflexivity]. split; [intros H; qlra|contradiction].
  - split; [|contradiction]. split; [intros _; exact Ho|]. intros _.
    apply Qlt_shift_div_l; qlra.
Qed.

Lemma iou_positive_iff_overlapping_witness :
  _compute_iou (6 # 10, 6 # 10, 9 # 10, 9 # 10) (0, 0, 4 # 10, 4 # 10) = 0.
Proof.
  apply (proj2 (iou_positive_iff_overlapping
                  (6 # 10, 6 # 10, 9 # 10, 9 # 10) (0, 0, 4 # 10, 4 # 10))).
  unfold overlapping. intros H. decompose [and] H.
  match goal with H : 6 # 10 < 4 # 10 |- _ => vm_compute in H; discriminate H end.
Defined.

(** X3.  A box of positive width and height has IoU 1 with itself. *)
Theorem iou_self (b : Box4) : proper b -> _compute_iou b b == 1.
Proof.
  destruct b as [[[x y] X] Y]. intros [Hx Hy].
  destruct (compute_iou_cases (x, y, X, Y) (x, y, X, Y))
    as [[Hn _]|[_ _]].
  - exfalso. apply Hn. unfold overlapping. repeat split; assumption.
  - unfold _compute_iou. cbv zeta.
    destruct (py_max_spec x x) as [[H _]|[_ ->]]; [qlra|].
    destruct (py_max_spec y y) as [[H _]|[_ ->]]; [qlra|].
    destruct (py_min_spec X X) as [[H _]|[_ ->]]; [qlra|].
    destruct (py_min_spec Y Y) as [[H _]|[_ ->]]; [qlra|].
    assert (Hp : 0 < (X - x) * (Y - y)) by (apply Qmult_lt_0_compat; qlra).
    destruct (Qle_bool X x) eqn:E1; [apply Qle_bool_iff in E1; qlra|].
    destruct (Qle_bool Y y) eqn:E2; [apply Qle_bool_iff in E2; qlra|].
    cbn [orb].
    set (a := (X - x) * (Y - y)) in *.
    assert (Hu : 0 < a + a - a) by qlra.
    rewrite (proj2 (Qltb_lt 0 _) Hu). field. qlra.
Qed.

Lemma iou_self_witness : _compute_iou (0, 0, 4 # 10, 4 # 10) (0, 0, 4 # 10, 4 # 10) == 1.
Proof.
  apply (iou_self (0, 0, 4 # 10, 4 # 10)). split; reflexivity.
Defined.

End OverlapFacts.

(** ** Detector: what suppression keeps *)

Module SuppressionFacts.
Import PyQ PyQFacts Utils Detector DetectorSpec.
Local Open Scope Q_scope.

Lemma subseq_In {A : Type} (l1 l2 : list A) :
  subseq l1 l2 -> forall x, In x l1 -> In x l2.
Proof.
  induction 1 as [|y l1 l2 _ IH|y l1 l2 _ IH]; intros x Hx.
  - exact Hx.
  - right. now apply IH.
  - destruct Hx as [->|Hx]; [now left|right; now apply IH].
Qed.

Lemma subseq_length {A : Type} (l1 l2 : list A) :
  subseq l1 l2 -> (List.length l1 <= List.length l2)%nat.
Proof. induction 1; simpl; lia. Qed.

Lemma subseq_sorted {A : Type} (R : A -> A -> Prop) (l1 l2 : list A) :
  subseq l1 l2 -> StronglySorted R l2 -> StronglySorted R l1.
Proof.
  induction 1 as [|y l1 l2 Hs IH|y l1 l2 Hs IH]; intros H.
  - constructor.
  - apply StronglySorted_inv in H. now apply IH.
  - apply StronglySorted_inv in H. destruct H as [H1 H2].
    constructor; [now apply IH|].
    rewrite Forall_forall in *. intros x Hx.
    apply H2. eapply subseq_In; eassumption.
Qed.

Lemma insert_desc_perm (d : Detection) (l : list Detection) :
  Permutation (insert_desc d l) (d :: l).
Proof.
  induction l as [|e l IH]; simpl; [reflexivity|].
  destruct (Qltb (confidence d) (confidence e)); [|reflexivity].
  rewrite IH. apply perm_swap.
Qed.

Lemma sorted_desc_perm (l : list Detection) : Permutation (sorted_desc l) l.
Proof.
  induction l as [|d l IH]; simpl; [reflexivity|].
  rewrite insert_desc_perm. now constructor.
Qed.

Lemma insert_desc_sorted (d : Detection) (l : list Detection) :
  StronglySorted conf_ge l -> StronglySorted conf_ge (insert_desc d l).
Proof.
  induction l as [|e l IH]; intros H; simpl.
  - repeat constructor.
  - pose proof (StronglySorted_inv H) as [Hl He].
    destruct (Qltb (confidence d) (confidence e)) eqn:E.
    + apply Qltb_lt in E. constructor; [now apply IH|].
      rewrite Forall_forall in *. intros x Hx.
      apply (Permutation_in _ (insert_desc_perm d l)) in Hx.
      destruct Hx as [<-|Hx]; [unfold conf_ge; qlra|now apply He].
    + apply Qltb_ge in E. constructor; [assumption|].
      constructor; [exact E|].
      rewrite Forall_forall in *. intros x Hx.
      specialize (He x Hx). unfold conf_ge in *. qlra.
Qed.

Lemma sorted_desc_sorted (l : list Detection) :
  StronglySorted conf_ge (sorted_desc l).
Proof.
  induction l as [|d l IH]; simpl; [constructor|].
  now apply insert_desc_sorted.
Qed.

(** The loop only ever appends to [kept], and what it appends is taken in
    order from the candidates. *)
Lemma nms_loop_appends (thr : Q) (l : list Detection) :
  forall kept, exists picked,
    nms_loop thr l kept = kept ++ picked /\ subseq picked l.
Proof.
  induction l as [|c l IH]; intros kept; simpl.
  - exists []. split; [now rewrite app_nil_r|constructor].
  - destruct (should_keep thr c kept).
    + destruct (IH (kept ++ [c])) as (picked & -> & Hs).
      exists (c :: picked). rewrite <- app_assoc. split; [reflexivity|].
      now constructor.
    + destruct (IH kept) as (picked & -> & Hs).
      exists picked. split; [reflexivity|now constructor].
Qed.

Lemma nms_subseq (detections : list Detection) (thr : Q) :
  subseq (_nms detections thr) (sorted_desc detections).
Proof.
  unfold _nms. destruct detections as [|d l]; [constructor|].
  destruct (nms_loop_appends thr (sorted_desc (d :: l)) []) as (p & -> & Hs).
  exact Hs.
Qed.

Lemma should_keep_false (thr : Q) (c : Detection) (kept : list Detection) :
  should_keep thr c kept = false ->
  exists k, In k kept /\ thr < _compute_iou (box c) (box k).
Proof.
  unfold should_keep. rewrite negb_false_iff. intros H.
  apply existsb_exists in H. destruct H as (k & Hk & Hlt).
  exists k. split; [assumption|now apply Qltb_lt].
Qed.

Lemma nms_loop_covers (thr : Q) (l : list Detection) :
  forall kept,
    (forall k d, In k kept -> In d l -> confidence d <= confidence k) ->
    StronglySorted conf_ge l ->
    forall d, In d l ->
      In d (nms_loop thr l kept) \/
      exists k, In k (nms_loop thr l kept) /\
                thr < _compute_iou (box d) (box k) /\
                confidence d <= confidence k.
Proof.
  induction l as [|c l IH]; intros kept Hk Hs d Hd; [destruct Hd|].
  apply StronglySorted_inv in Hs. destruct Hs as [Hs Hc].
  rewrite Forall_forall in Hc. simpl.
  destruct (should_keep thr c kept) eqn:E.
  - assert (Hk' : forall k x, In k (kept ++ [c]) -> In x l ->
                              confidence x <= confidence k).
    { intros k x Hin Hx. apply in_app_or in Hin.
      destruct Hin as [Hin|[<-|[]]].
      - apply Hk; [assumption|now right].
      - exact (Hc x Hx). }
    destruct Hd as [<-|Hd]; [|now apply IH].
    left. destruct (nms_loop_appends thr l (kept ++ [c])) as (p & -> & _).
    apply in_or_app. left. apply in_or_app. right. now left.
  - assert (Hk' : forall k x, In k kept -> In x l ->
                              confidence x <= confidence k)
      by (intros k x Hin Hx; apply Hk; [assumption|now right]).
    destruct Hd as [<-|Hd]; [|now apply IH].
    right. destruct (should_keep_false thr c kept E) as (k & Hin & Hlt).
    exists k. split; [|split; [assumption|]].
    + destruct (nms_loop_appends thr l kept) as (p & -> & _).
      apply in_or_app. now left.
    + apply Hk; [assumption|now left].
Qed.

(** X4.  [_nms] invents and reorders nothing: its result is the input sorted
    by descending confidence (a stable permutation of the input) with some
    entries left out, so every kept detection is an input detection, there
    are no more of them than candidates, and they come out by descending
    confidence. *)
Theorem nms_keeps_sorted_selection (detections : list Detection) (thr : Q) :
  subseq (_nms detections thr) (sorted_desc detections) /\
  Permutation (sorted_desc detections) detections /\
  (forall d, In d (_nms detections thr) -> In d detections) /\
  (List.length (_nms detections thr) <= List.length detections)%nat /\
  StronglySorted conf_ge (_nms detections thr).
Proof.
  pose proof (nms_subseq detections thr) as Hs.
  pose proof (sorted_desc_perm detections) as Hp.
  split; [exact Hs|]. split; [exact Hp|]. split; [|split].
  - intros d Hd. apply (Permutation_in _ Hp). eapply subseq_In; eassumption.
  - rewrite <- (Permutation_length Hp). now apply subseq_length.
  - eapply subseq_sorted; [exact Hs|apply sorted_desc_sorted].
Qed.

(** X5.  Among candidates that are not empty, [_nms] always keeps one of
    greatest confidence, and returns it first. *)
Theorem nms_keeps_most_confident (detections : list Detection) (thr : Q) :
  detections <> [] ->
  exists best rest,
    _nms detections thr = best :: rest /\
    In best detections /\
    forall d, In d detections -> confidence d <= confidence best.
Proof.
  intros Hne.
  pose proof (sorted_desc_perm detections) as Hp.
  pose proof (sorted_desc_sorted detections) as Hs.
  unfold _nms. destruct detections as [|d0 l0]; [contradiction|].
  destruct (sorted_desc (d0 :: l0)) as [|c l] eqn:E.
  - apply Permutation_nil in Hp. discriminate Hp.
  - simpl. change (should_keep thr c []) with true. cbn iota.
    destruct (nms_loop_appends thr l [c]) as (p & -> & _).
    exists c, p. split; [reflexivity|]. split.
    + apply (Permutation_in _ Hp). now left.
    + intros d Hd. apply (Permutation_in _ (Permutation_sym Hp)) in Hd.
      apply StronglySorted_inv in Hs. destruct Hs as [_ Hc].
      rewrite Forall_forall in Hc.
      destruct Hd as [<-|Hd]; [qlra|exact (Hc d Hd)].
Qed.

Lemma nms_keeps_most_confident_witness :
  exists best rest,
    _nms three_candidates detect_iou_threshold = best :: rest /\
    In best three_candidates /\
    forall d, In d three_candidates -> confidence d <= confidence best.
Proof.
  apply (nms_keeps_most_confident three_candidates detect_iou_threshold).
  discriminate.
Defined.

(** X6.  Suppression drops a candidate only for a reason: every candidate is
    either kept or overlaps, with IoU strictly above the threshold, a kept
    detection that is at least as confident. *)
Theorem nms_drops_only_overlapped (detections : list Detection) (thr : Q)
  (d : Detection) :
  In d detections ->
  In d (_nms detections thr) \/
  exists k, In k (_nms detections thr) /\
            thr < _compute_iou (box d) (box k) /\
            confidence d <= confidence k.
Proof.
  intros Hd.
  assert (Hd' : In d (sorted_desc detections))
    by (apply (Permutation_in _ (Permutation_sym (sorted_desc_perm _))), Hd).
  unfold _nms. destruct detections as [|d0 l0]; [destruct Hd|].
  apply nms_loop_covers; [intros k x []|apply sorted_desc_sorted|exact Hd'].
Qed.

Lemma nms_drops_only_overlapped_witness :
  let d := mkDetection (0, 0, 4 # 10, 4 # 10) (7 # 10) (16 # 100) "profile" in
  In d (_nms three_candidates detect_iou_threshold) \/
  exists k, In k (_nms three_candidates detect_iou_threshold) /\
            detect_iou_threshold < _compute_iou (box d) (box k) /\
            confidence d <= confidence k.
Proof.
  apply (nms_drops_only_overlapped three_candidates detect_iou_threshold).
  left. reflexivity.
Defined.

End SuppressionFacts.

(** ** Detector: candidates and the detection result *)

Module CandidateFacts.
Import PyQ PyQFacts Utils Detector DetectorSpec SuppressionFacts.
Local Open Scope Q_scope.

Lemma inject_pos (w : Z) : (0 < w)%Z -> 0 < inject_Z w.
Proof. intros H. now rewrite (Zlt_Qlt 0 w) in H. Qed.

Lemma frac_le (a b w : Z) :
  (0 < w)%Z -> (a <= b)%Z -> inject_Z a / inject_Z w <= inject_Z b / inject_Z w.
Proof.
  intros Hw Hab. unfold Qdiv. apply Qmult_le_compat_r.
  - now rewrite <- Zle_Qle.
  - apply Qinv_le_0_compat, Qlt_le_weak, inject_pos, Hw.
Qed.

Lemma frac_lt (a b w : Z) :
  (0 < w)%Z -> (a < b)%Z -> inject_Z a / inject_Z w < inject_Z b / inject_Z w.
Proof.
  intros Hw Hab. unfold Qdiv. apply Qmult_lt_compat_r.
  - apply Qinv_lt_0_compat, inject_pos, Hw.
  - now rewrite <- Zlt_Qlt.
Qed.

Lemma frac_zero (w : Z) : inject_Z 0 / inject_Z w == 0.
Proof. unfold Qdiv. ring. Qed.

Lemma frac_one (w : Z) : (0 < w)%Z -> inject_Z w / inject_Z w == 1.
Proof.
  intros Hw. unfold Qdiv. apply Qmult_inv_r.
  pose proof (inject_pos w Hw). intro E. rewrite E in H. discriminate H.
Qed.

(** What the filter lets through, whatever the frame and the rectangle. *)
Lemma candidate_some (w h : Z) (name : string) (r : Rect) (det : Detection) :
  candidate w h name r = Some det ->
  let base := if String.eqb name "frontal" then 7 # 10 else 6 # 10 in
  cascade det = name /\
  det_area det = inject_Z (rw r * rh r) / inject_Z (w * h) /\
  2 # 1000 <= det_area det <= 5 # 10 /\
  base + (4 # 100) <= confidence det <= base + (2 # 10).
Proof.
  unfold candidate. cbv zeta.
  set (ar := inject_Z (rw r * rh r) / inject_Z (w * h)).
  destruct (Qltb ar (2 # 1000)) eqn:E1; [discriminate|].
  destruct (Qltb (5 # 10) ar) eqn:E2; [discriminate|].
  apply Qltb_ge in E1, E2.
  intros H. injection H as <-. simpl.
  split; [reflexivity|]. split; [reflexivity|]. split; [split; assumption|].
  destruct (py_min_spec 1 (ar * 100)) as [[Hm ->]|[Hm ->]]; split; qlra.
Qed.

Lemma candidate_none (w h : Z) (name : string) (r : Rect) :
  candidate w h name r = None <->
  let ar := inject_Z (rw r * rh r) / inject_Z (w * h) in
  ar < 2 # 1000 \/ 5 # 10 < ar.
Proof.
  unfold candidate. cbv zeta.
  set (ar := inject_Z (rw r * rh r) / inject_Z (w * h)).
  destruct (Qltb ar (2 # 1000)) eqn:E1.
  - apply Qltb_lt in E1. split; [now left|reflexivity].
  - destruct (Qltb (5 # 10) ar) eqn:E2.
    + apply Qltb_lt in E2. split; [now right|reflexivity].
    + apply Qltb_ge in E1, E2. split; [discriminate|]. intros [H|H]; qlra.
Qed.

(** A rectangle inside the frame is normalised to a box inside the unit
    square. *)
Lemma candidate_unit_box (w h : Z) (name : string) (r : Rect) (det : Detection) :
  (0 < w)%Z -> (0 < h)%Z -> inside_frame w h r ->
  candidate w h name r = Some det -> unit_box (box det).
Proof.
  intros Hw Hh (Hx & Hy & Hfw & Hfh & HX & HY). unfold candidate. cbv zeta.
  destruct (Qltb _ (2 # 1000)); [discriminate|].
  destruct (Qltb (5 # 10) _); [discriminate|].
  intros H. injection H as <-. simpl.
  pose proof (frac_le 0 (rx r) w Hw Hx) as A1. rewrite frac_zero in A1.
  pose proof (frac_le 0 (ry r) h Hh Hy) as A2. rewrite frac_zero in A2.
  pose proof (frac_le (rx r + rw r) w w Hw HX) as B1.
  rewrite (frac_one w Hw) in B1.
  pose proof (frac_le (ry r + rh r) h h Hh HY) as B2.
  rewrite (frac_one h Hh) in B2.
  assert (C1 : inject_Z (rx r) / inject_Z w
               < inject_Z (rx r + rw r) / inject_Z w)
    by (apply frac_lt; lia).
  assert (C2 : inject_Z (ry r) / inject_Z h
               < inject_Z (ry r + rh r) / inject_Z h)
    by (apply frac_lt; lia).
  destruct (py_max_spec 0 (inject_Z (rx r) / inject_Z w)) as [[? ->]|[? ->]];
  destruct (py_max_spec 0 (inject_Z (ry r) / inject_Z h)) as [[? ->]|[? ->]];
  destruct (py_min_spec 1 (inject_Z (rx r + rw r) / inject_Z w))
    as [[? ->]|[? ->]];
  destruct (py_min_spec 1 (inject_Z (ry r + rh r) / inject_Z h))
    as [[? ->]|[? ->]];
  repeat split; qlra.
Qed.

Lemma in_filter_some {A : Type} (l : list (option A)) (a : A) :
  In a (filter_some l) <-> In (Some a) l.
Proof.
  induction l as [|[b|] l IH]; simpl.
  - reflexivity.
  - rewrite IH. split; intros [H|H]; auto; left; congruence.
  - rewrite IH. split; [now right|]. intros [H|H]; [discriminate|assumption].
Qed.

Lemma length_filter_some {A : Type} (l : list (option A)) :
  (List.length (filter_some l) <= List.length l)%nat.
Proof. induction l as [|[b|] l IH]; simpl; lia. Qed.

Lemma in_all_detections (w h : Z)
  (cascades : list (string * option (list Rect))) (det : Detection) :
  In det (all_detections w h cascades) ->
  exists name faces r,
    In (name, Some faces) cascades /\ In r faces /\
    candidate w h name r = Some det.
Proof.
  unfold all_detections. rewrite in_flat_map.
  intros ([name [faces|]] & Hc & Hd); unfold cascade_candidates in Hd;
    simpl in Hd; [|destruct Hd].
  apply in_filter_some, in_map_iff in Hd. destruct Hd as (r & Hr & Hin).
  now exists name, faces, r.
Qed.

Lemma length_all_detections (w h : Z)
  (cascades : list (string * option (list Rect))) :
  (List.length (all_detections w h cascades) <= answered cascades)%nat.
Proof.
  unfold all_detections, answered.
  induction cascades as [|[name [faces|]] cs IH]; simpl; [lia| |exact IH].
  rewrite !length_app. unfold cascade_candidates at 1. simpl.
  pose proof (length_filter_some (map (candidate w h name) faces)) as L.
  rewrite length_map in L. lia.
Qed.

(** X7.  The size filter of [detect]: a rectangle becomes a candidate exactly
    when its area is between 0.2% and 50% of the frame, bounds included; the
    candidate records that ratio and its cascade, and its confidence lies
    between base + 0.04 and base + 0.2, with base 0.7 for the frontal
    cascade and 0.6 for any other. *)
Theorem candidate_filter (w h : Z) (name : string) (r : Rect) :
  let ar := inject_Z (rw r * rh r) / inject_Z (w * h) in
  let base := if String.eqb name "frontal" then 7 # 10 else 6 # 10 in
  (candidate w h name r = None <-> ar < 2 # 1000 \/ 5 # 10 < ar) /\
  (forall det, candidate w h name r = Some det ->
     cascade det = name /\ det_area det = ar /\
     2 # 1000 <= ar <= 5 # 10 /\
     base + (4 # 100) <= confidence det <= base + (2 # 10)).
Proof.
  intros ar base. split; [apply candidate_none|].
  intros det H. destruct (candidate_some w h name r det H) as (H1 & H2 & H3 & H4).
  fold ar in H2. rewrite H2 in H3. repeat split; tauto.
Qed.

Lemma candidate_filter_witness :
  exists det,
    candidate 100 100 "frontal" (mkRect 0 0 23 23) = Some det /\
    (7 # 10) + (4 # 100) <= confidence det <= (7 # 10) + (2 # 10).
Proof.
  destruct (candidate 100 100 "frontal" (mkRect 0 0 23 23)) as [det|] eqn:E;
    [|discriminate E].
  exists det. split; [reflexivity|].
  exact (proj2 (proj2 (proj2
           (proj2 (candidate_filter 100 100 "frontal" (mkRect 0 0 23 23))
              det E)))).
Defined.

(** X8.  For a frame of positive size and cascades that answer rectangles
    inside it, [detect] returns one confidence per box, no more boxes than
    rectangles were answered, every box inside the unit square with positive
    width and height, and the confidences in descending order, each between
    0.64 and 0.9. *)
Theorem detect_result_invariants (w h : Z)
  (cascades : list (string * option (list Rect))) (now_ms : Z) :
  (0 < w)%Z -> (0 < h)%Z -> answers_inside w h cascades ->
  let res := detect w h cascades now_ms in
  List.length (boxes res) = List.length (confidences res) /\
  (List.length (boxes res) <= answered cascades)%nat /\
  Forall unit_bounding_box (boxes res) /\
  Forall (fun c => 64 # 100 <= c <= 9 # 10) (confidences res) /\
  StronglySorted (fun c1 c2 => c2 <= c1) (confidences res) /\
  timestamp_ms res = now_ms.
Proof.
  intros Hw Hh Hin res. unfold res, detect. cbv zeta. simpl.
  set (kept := _nms (all_detections w h cascades) detect_iou_threshold).
  pose proof (nms_subseq (all_detections w h cascades) detect_iou_threshold)
    as Hs.
  pose proof (sorted_desc_perm (all_detections w h cascades)) as Hp.
  fold kept in Hs.
  assert (Hsub : forall d, In d kept -> In d (all_detections w h cascades))
    by (intros d Hd; apply (Permutation_in _ Hp);
        eapply subseq_In; eassumption).
  assert (Hlen : (List.length kept
                  <= List.length (all_detections w h cascades))%nat)
    by (rewrite <- (Permutation_length Hp); now apply subseq_length).
  assert (Hsort : StronglySorted conf_ge kept)
    by (eapply subseq_sorted; [exact Hs|apply sorted_desc_sorted]).
  clear Hs Hp.
  split; [now rewrite !length_map|]. split.
  { rewrite length_map. pose proof (length_all_detections w h cascades). lia. }
  split; [|split; [|split; [|reflexivity]]].
  - apply Forall_forall. intros b Hb. apply in_map_iff in Hb.
    destruct Hb as (d & <- & Hd).
    destruct (in_all_detections _ _ _ _ (Hsub d Hd)) as (nm & fs & r & H1 & H2 & H3).
    pose proof (candidate_unit_box w h nm r d Hw Hh (Hin nm fs r H1 H2) H3) as U.
    unfold to_bounding_box, unit_bounding_box.
    destruct (box d) as [[[x0 y0] x1] y1]. exact U.
  - apply Forall_forall. intros c Hc. apply in_map_iff in Hc.
    destruct Hc as (d & <- & Hd).
    destruct (in_all_detections _ _ _ _ (Hsub d Hd)) as (nm & fs & r & _ & _ & H3).
    destruct (candidate_some w h nm r d H3) as (_ & _ & _ & Hconf).
    cbv zeta in Hconf. destruct (String.eqb nm "frontal"); split; qlra.
  - clear Hsub Hlen. induction Hsort as [|d l _ IH Hd]; simpl; constructor.
    + exact IH.
    + rewrite Forall_forall in *. intros c Hc. apply in_map_iff in Hc.
      destruct Hc as (d' & <- & Hd'). exact (Hd d' Hd').
Qed.

Lemma touching_faces_inside : answers_inside 100 100 touching_faces.
Proof.
  intros name faces r [E|[]] Hr. injection E as <- <-.
  destruct Hr as [<-|[<-|[]]]; unfold inside_frame; simpl; lia.
Qed.

Lemma detect_result_invariants_witness :
  Forall unit_bounding_box (boxes (detect 100 100 touching_faces 0)) /\
  List.length (boxes (detect 100 100 touching_faces 0)) = 2%nat.
Proof.
  split.
  - apply (detect_result_invariants 100 100 touching_faces 0);
      [reflexivity|reflexivity|exact touching_faces_inside].
  - reflexivity.
Defined.

End CandidateFacts.

(** ** Decision engine: further properties *)

Module EngineFacts.
Import Py PyQ PyQFacts Utils Decision DecisionSpec CountingFacts DebounceFacts.
Local Open Scope Q_scope.

Lemma verified_counts (self : Engine) (t : Tick)
  (ids : list Verify.FaceIdentity) :
  use_identity_verification self = true -> identities t = Some ids ->
  count_faces self t =
  bind (count_loop (area_ratio_threshold self)
          (frame_width t * frame_height t)
          (map Verify.box (filter (has_label "OTHER") ids)) (0%Z, 0))
    (fun acc =>
       Ok (mkCounts (fst acc) (snd acc)
             (Z.of_nat (List.length (filter (has_label "ME") ids)))
             (Z.of_nat (List.length ids)))).
Proof. intros H1 H2. unfold count_faces. now rewrite H1, H2. Qed.

Lemma other_ratios_nonneg (self : Engine) (t : Tick)
  (ids : list Verify.FaceIdentity) :
  (frame_width t * frame_height t)%Z <> 0%Z ->
  Forall (fun f => well_formed (Verify.box f)) ids
  \/ 0 <= area_ratio_threshold self ->
  forall x, In x (other_ratios self t ids) -> 0 <= x.
Proof.
  intros Hfa Hyp x Hx. unfold other_ratios in Hx.
  apply filter_In in Hx. destruct Hx as [Hin Hq].
  apply Qle_bool_iff in Hq.
  destruct Hyp as [Hwf|Hthr]; [|qlra].
  apply in_map_iff in Hin. destruct Hin as (b & <- & Hb).
  apply in_map_iff in Hb. destruct Hb as (f & <- & Hf).
  apply filter_In in Hf. destruct Hf as [Hf _].
  rewrite Forall_forall in Hwf.
  rewrite (ratio_area _ _ Hfa).
  apply Qlt_le_weak, area_pos, Hwf, Hf.
Qed.

(** X9.  In verified mode (the engine uses identities and a list is passed)
    only the faces labelled ["OTHER"] whose area ratio reaches the threshold
    are counted, and the risk score is the greatest of their ratios, 0 when
    there is none; faces with any other label never count.  The detector's
    boxes play no part. *)
Theorem decide_verified_counts (self : Engine) (t : Tick)
  (ids : list Verify.FaceIdentity) :
  use_identity_verification self = true -> identities t = Some ids ->
  Forall (fun f => well_formed (Verify.box f)) ids
  \/ 0 <= area_ratio_threshold self ->
  ((frame_width t * frame_height t)%Z <> 0%Z ->
   exists d self', decide self t = Ok (d, self')) /\
  forall d self', decide self t = Ok (d, self') ->
    other_face_count d = Z.of_nat (List.length (other_ratios self t ids)) /\
    max_or_zero (other_ratios self t ids) (risk_score d) /\
    (filter (has_label "OTHER") ids = [] ->
     other_face_count d = 0%Z /\ risk_score d = 0).
Proof.
  intros Hiv Hids Hyp. split; [apply decide_returns|].
  intros d self' Hd.
  destruct (decide_counts _ _ _ _ Hd) as (c & Hc & -> & -> & _).
  rewrite (verified_counts _ _ _ Hiv Hids) in Hc.
  unfold other_ratios.
  destruct (Z.eq_dec (frame_width t * frame_height t) 0) as [Hz|Hnz].
  - rewrite Hz in *.
    destruct (filter (has_label "OTHER") ids) as [|f fs]; simpl in Hc.
    + injection Hc as <-. simpl. repeat split; reflexivity.
    + discriminate Hc.
  - rewrite (count_loop_ok _ _ _ Hnz) in Hc. simpl in Hc.
    injection Hc as <-. simpl. fold (other_ratios self t ids).
    split; [reflexivity|]. split.
    + apply fold_py_max_is_max, other_ratios_nonneg; assumption.
    + intros Hnone. unfold other_ratios. rewrite Hnone. split; reflexivity.
Qed.

Lemma decide_verified_counts_witness :
  exists d self',
    decide verifying_engine identified_tick = Ok (d, self') /\
    other_face_count d = 1%Z.
Proof.
  assert (H1 : use_identity_verification verifying_engine = true)
    by reflexivity.
  assert (H2 : identities identified_tick = Some two_identities)
    by reflexivity.
  assert (H3 : Forall (fun f => well_formed (Verify.box f)) two_identities
               \/ 0 <= area_ratio_threshold verifying_engine)
    by (right; vm_compute; discriminate).
  destruct (decide_verified_counts verifying_engine identified_tick
              two_identities H1 H2 H3) as [Hret Hprop].
  destruct Hret as (d & self' & Hd); [vm_compute; discriminate|].
  exists d, self'. split; [exact Hd|].
  destruct (Hprop d self' Hd) as (Hc & _). rewrite Hc. reflexivity.
Defined.

Lemma count_loop_nonneg (thr : Q) (fa : Z) (bs : list BoundingBox) :
  forall acc acc',
    count_loop thr fa bs acc = Ok acc' ->
    (fst acc <= fst acc')%Z /\ snd acc <= snd acc'.
Proof.
  induction bs as [|b bs IH]; intros acc acc' H; simpl in H.
  - injection H as <-. split; [lia|qlra].
  - unfold count_step at 1 in H.
    destruct (area_ratio fa b) as [r|e]; simpl in H; [|discriminate].
    destruct (Qle_bool thr r).
    + simpl in H. apply IH in H. simpl in H. destruct H as [H1 H2].
      split; [lia|].
      destruct (py_max_spec (snd acc) r) as [[? E]|[? E]]; rewrite E in H2;
        qlra.
    + simpl in H. now apply IH in H.
Qed.

(** X10.  What every decision shows: its flag is the engine's flag after the
    call, its count and score are never negative, the configuration is
    untouched, and after the call at most one of the two counters is
    non-zero. *)
Theorem decide_postconditions (self : Engine) (t : Tick)
  (d : PrivacyDecision) (self' : Engine) :
  decide self t = Ok (d, self') ->
  Utils.privacy_on d = privacy_on self' /\
  (0 <= other_face_count d)%Z /\
  0 <= risk_score d /\
  config self' = config self /\
  (risk_counter self' = 0%Z \/ safe_frame_counter self' = 0%Z).
Proof.
  intros Hd. destruct (decide_counts _ _ _ _ Hd) as (c & Hc & -> & -> & Ht).
  assert (Hpos : (0 <= c_other_face_count c)%Z /\ 0 <= c_risk_score c).
  { unfold count_faces in Hc.
    destruct (use_identity_verification self), (identities t);
      match type of Hc with
      | bind (count_loop ?a ?b ?l ?i) _ = _ =>
          destruct (count_loop a b l i) as [acc|e] eqn:E;
          [apply count_loop_nonneg in E; simpl in E|discriminate Hc]
      end;
      simpl in Hc; injection Hc as <-; simpl; split; try lia; tauto. }
  destruct (is_risky self c) eqn:E.
  - destruct (transition_risky self t c E)
      as (d0 & e0 & Ht0 & H1 & H2 & _ & _ & H3 & _).
    rewrite Ht in Ht0. injection Ht0 as <- <-.
    repeat split; tauto.
  - destruct (transition_safe self t c E)
      as (d0 & e0 & Ht0 & H1 & H2 & _ & H3 & _).
    rewrite Ht in Ht0. injection Ht0 as <- <-.
    repeat split; tauto.
Qed.

Lemma decide_postconditions_witness :
  exists d self',
    decide default_engine (tick_at 0 crowd) = Ok (d, self') /\
    Utils.privacy_on d = privacy_on self' /\ 0 <= risk_score d.
Proof.
  destruct (decide default_engine (tick_at 0 crowd)) as [[d self']|e] eqn:E;
    [|discriminate E].
  exists d, self'. split; [reflexivity|].
  destruct (decide_postconditions _ _ _ _ E) as (H1 & _ & H2 & _).
  split; assumption.
Defined.

Lemma decide_kind (self : Engine) (t : Tick) (d : PrivacyDecision)
  (self' : Engine) :
  decide self t = Ok (d, self') ->
  (risky_tick self t = true /\ safe_tick self t = false) \/
  (risky_tick self t = false /\ safe_tick self t = true).
Proof.
  intros Hd. destruct (decide_counts _ _ _ _ Hd) as (c & Hc & _).
  unfold risky_tick, safe_tick. rewrite Hc.
  destruct (is_risky self c); [left|right]; split; reflexivity.
Qed.

(** X11.  The flag only moves in the direction of the tick: it turns on
    only at a risky tick whose incremented risk counter has reached
    [debounce_on_frames], and turns off only at a safe tick that meets both
    off-conditions. *)
Theorem privacy_flips_with_the_tick (self : Engine) (t : Tick)
  (d : PrivacyDecision) (self' : Engine) :
  decide self t = Ok (d, self') ->
  (privacy_on self = false -> privacy_on self' = true ->
   risky_tick self t = true /\
   (debounce_on_frames self <= risk_counter self + 1)%Z) /\
  (privacy_on self = true -> privacy_on self' = false ->
   safe_tick self t = true /\
   debounce_off_seconds self <= time_safe self t /\
   (debounce_off_frames self <= safe_frames self)%Z).
Proof.
  intros Hd.
  destruct (decide_kind _ _ _ _ Hd) as [[Hr Hs]|[Hr Hs]].
  - destruct (decide_risky self t Hr) as (d0 & e0 & Hd0 & _ & _ & Hp & _).
    rewrite Hd in Hd0. injection Hd0 as <- <-.
    split; intros H0 H1; rewrite Hp, H0 in H1.
    + split; [exact Hr|].
      destruct (Z.leb_spec (debounce_on_frames self) (risk_counter self + 1));
        [assumption|discriminate].
    + destruct (_ <=? _)%Z; discriminate.
  - destruct (decide_safe self t Hs) as (d0 & e0 & Hd0 & _ & _ & Hp & _).
    rewrite Hd in Hd0. injection Hd0 as <- <-.
    split; intros H0 H1; rewrite Hp, H0 in H1.
    + destruct (off_condition self t); discriminate.
    + split; [exact Hs|]. apply off_condition_iff.
      destruct (off_condition self t); [reflexivity|discriminate].
Qed.

Lemma privacy_flips_with_the_tick_witness :
  exists d e1 d' e2,
    decide default_engine (tick_at 0 crowd) = Ok (d, e1) /\
    decide e1 (tick_at 0 crowd) = Ok (d', e2) /\
    risky_tick e1 (tick_at 0 crowd) = true.
Proof.
  destruct (decide default_engine (tick_at 0 crowd)) as [[d e1]|e] eqn:E1;
    [|discriminate E1].
  destruct (decide e1 (tick_at 0 crowd)) as [[d' e2]|e] eqn:E2;
    [|revert E2; injection E1 as <- <-; discriminate].
  exists d, e1, d', e2. split; [reflexivity|]. split; [exact E2|].
  apply (proj1 (privacy_flips_with_the_tick _ _ _ _ E2)).
  - injection E1 as <- <-. reflexivity.
  - revert E2. injection E1 as <- <-. intros E2.
    vm_compute in E2. injection E2 as <- <-. reflexivity.
Defined.

End EngineFacts.

(** ** Decision engine: runs of ticks *)

Module RunFacts.
Import Py PyQ PyQFacts Utils Decision DecisionSpec CountingFacts DebounceFacts.
Local Open Scope Q_scope.

Lemma risky_tick_config (self self' : Engine) (t : Tick) :
  config self' = config self -> risky_tick self' t = risky_tick self t.
Proof.
  intros H. unfold risky_tick. rewrite (count_faces_config _ _ _ H).
  destruct (count_faces self t); [|reflexivity].
  now rewrite (is_risky_config _ _ _ H).
Qed.

Lemma config_on_frames (self self' : Engine) :
  config self' = config self -> debounce_on_frames self' = debounce_on_frames self.
Proof. unfold config. intros H. now injection H. Qed.

Lemma risky_run (ticks : list Tick) :
  forall self,
    Forall (fun t => risky_tick self t = true) ticks ->
    risk_counter (after self ticks)
    = (risk_counter self + Z.of_nat (List.length ticks))%Z /\
    (ticks <> [] ->
     privacy_on (after self ticks) =
     privacy_on self
     || (debounce_on_frames self
         <=? risk_counter self + Z.of_nat (List.length ticks))%Z).
Proof.
  induction ticks as [|t ticks IH] using rev_ind; intros self Hall.
  - split; [simpl; unfold after; simpl; lia|]. intros H. contradiction.
  - apply Forall_app in Hall. destruct Hall as [Hall Ht].
    inversion Ht as [|? ? Hr _]; subst.
    destruct (IH self Hall) as [Hrc Hpo].
    rewrite after_app, length_app. simpl List.length.
    set (mid := after self ticks) in *.
    assert (Hcfg : config mid = config self) by apply after_config.
    rewrite <- (risky_tick_config self mid t Hcfg) in Hr.
    destruct (decide_risky mid t Hr) as (d & e' & _ & He' & _ & Hp & Hc & _).
    rewrite He'. rewrite Hc, Hp, (config_on_frames _ _ Hcfg), Hrc.
    split; [lia|]. intros _.
    replace (risk_counter self + Z.of_nat (List.length ticks) + 1)%Z
      with (risk_counter self + Z.of_nat (List.length ticks + 1))%Z by lia.
    destruct (Z.leb_spec (debounce_on_frames self)
                (risk_counter self + Z.of_nat (List.length ticks + 1)))
      as [H1|H1].
    + now rewrite orb_true_r.
    + rewrite orb_false_r. destruct ticks as [|t0 ticks0]; [reflexivity|].
      rewrite Hpo by discriminate.
      destruct (Z.leb_spec (debounce_on_frames self)
                  (risk_counter self
                   + Z.of_nat (List.length (t0 :: ticks0)))) as [H2|H2];
        [lia|apply orb_false_r].
Qed.

(** X12.  The on-debounce in general: after a non-empty run of consecutive
    risky ticks the risk counter has grown by their number, and privacy is
    on exactly if it was on before or the counter has reached
    [debounce_on_frames].  On an engine just built or reset that is: on from
    the [debounce_on_frames]-th risky tick. *)
Theorem on_after_enough_risky_ticks (self : Engine) (ticks : list Tick) :
  ticks <> [] ->
  Forall (fun t => risky_tick self t = true) ticks ->
  risk_counter (after self ticks)
  = (risk_counter self + Z.of_nat (List.length ticks))%Z /\
  privacy_on (after self ticks) =
  privacy_on self
  || (debounce_on_frames self
      <=? risk_counter self + Z.of_nat (List.length ticks))%Z.
Proof.
  intros Hne Hall. destruct (risky_run ticks self Hall) as [H1 H2].
  split; [exact H1|exact (H2 Hne)].
Qed.

Lemma on_after_enough_risky_ticks_witness :
  privacy_on (after default_engine [tick_at 0 crowd; tick_at 0 crowd; tick_at 0 crowd])
  = privacy_on default_engine || (debounce_on_frames default_engine <=? 0 + 3)%Z.
Proof.
  apply (on_after_enough_risky_ticks default_engine
           [tick_at 0 crowd; tick_at 0 crowd; tick_at 0 crowd]).
  - discriminate.
  - repeat constructor.
Defined.

Lemma nothing_seen_safe (self : Engine) (t : Tick) :
  (1 <= face_count_threshold self)%Z -> nothing_seen self t ->
  safe_tick self t = true /\
  exists c, count_faces self t = Ok c /\
            c_other_face_count c = 0%Z /\ c_risk_score c = 0.
Proof.
  intros Hthr [Hb Hmode].
  pose proof (unverified_counts self t Hmode) as Hc.
  rewrite Hb in Hc. simpl in Hc.
  unfold safe_tick. rewrite Hc. unfold is_risky. simpl. split.
  - apply negb_true_iff. apply Z.leb_gt. lia.
  - eexists. split; [reflexivity|]. split; reflexivity.
Qed.

Lemma nothing_seen_config (self self' : Engine) (t : Tick) :
  config self' = config self -> nothing_seen self t -> nothing_seen self' t.
Proof.
  unfold config, nothing_seen. intros H [H1 H2]. injection H as _ _ _ _ _ ->.
  split; assumption.
Qed.

(** X13.  Seeing nothing never raises the alarm and never fails: on an
    engine whose privacy is off and whose face-count threshold is at least
    1, ticks without detected boxes (in the counting that ignores
    identities) all return, whatever the frame size, each with
    [privacy_on = false], no other face and risk score 0, and privacy is
    still off afterwards. *)
Theorem nothing_seen_keeps_privacy_off (ticks : list Tick) :
  forall self,
    privacy_on self = false -> (1 <= face_count_threshold self)%Z ->
    Forall (nothing_seen self) ticks ->
    List.length (decisions self ticks) = List.length ticks /\
    Forall (fun d => Utils.privacy_on d = false /\
                     other_face_count d = 0%Z /\ risk_score d = 0)
      (decisions self ticks) /\
    privacy_on (after self ticks) = false.
Proof.
  induction ticks as [|t ticks IH]; intros self Hoff Hthr Hall.
  - repeat split; [constructor|assumption].
  - inversion Hall as [|? ? Ht Hrest]; subst.
    destruct (nothing_seen_safe self t Hthr Ht) as (Hsafe & c & Hc & Ho & Hr).
    destruct (decide_safe self t Hsafe) as (d & e' & Hd & _ & Hpd & Hp & _).
    destruct (decide_counts _ _ _ _ Hd) as (c' & Hc' & Ho' & Hr' & _).
    rewrite Hc in Hc'. injection Hc' as <-.
    assert (Hoff' : privacy_on e' = false)
      by (rewrite Hp, Hoff; destruct (off_condition self t); reflexivity).
    assert (Hcfg : config e' = config self)
      by (eapply decide_config; eassumption).
    assert (Hthr' : (1 <= face_count_threshold e')%Z).
    { unfold config in Hcfg. injection Hcfg as -> _ _ _ _ _. exact Hthr. }
    assert (Hall' : Forall (nothing_seen e') ticks).
    { eapply Forall_impl; [|exact Hrest]. intros a.
      now apply nothing_seen_config. }
    destruct (IH e' Hoff' Hthr' Hall') as (L & F & P).
    unfold decisions, after in *. simpl. rewrite Hd.
    destruct (run e' ticks) as [ds final]. simpl in *.
    split; [now rewrite L|]. split; [|exact P].
    constructor; [|exact F].
    rewrite Hpd, Hoff', Ho', Hr', Ho, Hr. repeat split.
Qed.

Lemma nothing_seen_keeps_privacy_off_witness :
  Forall (fun d => Utils.privacy_on d = false /\
                   other_face_count d = 0%Z /\ risk_score d = 0)
    (decisions default_engine
       [mkTick (fun _ => 0) empty_scene 0 0 None; tick_at 1 empty_scene]).
Proof.
  apply (nothing_seen_keeps_privacy_off
           [mkTick (fun _ => 0) empty_scene 0 0 None; tick_at 1 empty_scene]
           default_engine).
  - reflexivity.
  - simpl. lia.
  - repeat constructor.
Defined.

Lemma same_state_transition (e1 e2 : Engine) (t : Tick) (c : Counts) :
  same_state e1 e2 ->
  fst (transition e1 t c) = fst (transition e2 t c) /\
  same_state (snd (transition e1 t c)) (snd (transition e2 t c)).
Proof.
  destruct e1 as [a1 a2 a3 a4 a5 a6 p1 r1 s1 st1 h1],
           e2 as [b1 b2 b3 b4 b5 b6 p2 r2 s2 st2 h2].
  unfold same_state, config. simpl.
  intros (Hc & -> & -> & -> & ->). injection Hc as -> -> -> -> -> ->.
  unfold transition, is_risky. simpl.
  repeat match goal with
         | |- context [if ?b then _ else _] => destruct b
         | |- context [match ?o with Some _ => _ | None => _ end] => destruct o
         end; simpl; repeat split; reflexivity.
Qed.

Lemma same_state_decide (e1 e2 : Engine) (t : Tick) :
  same_state e1 e2 ->
  match decide e1 t, decide e2 t with
  | Ok (d1, e1'), Ok (d2, e2') => d1 = d2 /\ same_state e1' e2'
  | Raise x1, Raise x2 => x1 = x2
  | _, _ => False
  end.
Proof.
  intros H. unfold decide.
  rewrite (count_faces_config e2 e1 t (proj1 H)).
  destruct (count_faces e2 t) as [c|x]; simpl; [|reflexivity].
  pose proof (same_state_transition e1 e2 t c H) as [H1 H2].
  destruct (transition e1 t c), (transition e2 t c). simpl in *.
  split; assumption.
Qed.

Lemma same_state_run (ticks : list Tick) :
  forall e1 e2,
    same_state e1 e2 ->
    fst (run e1 ticks) = fst (run e2 ticks) /\
    same_state (after e1 ticks) (after e2 ticks).
Proof.
  unfold after.
  induction ticks as [|t ticks IH]; intros e1 e2 H; simpl.
  - split; [reflexivity|assumption].
  - pose proof (same_state_decide e1 e2 t H) as Hd.
    destruct (decide e1 t) as [[d1 e1']|x1], (decide e2 t) as [[d2 e2']|x2];
      try contradiction.
    + destruct Hd as [-> Hs]. destruct (IH e1' e2' Hs) as [H1 H2].
      destruct (run e1' ticks), (run e2' ticks). simpl in *.
      split; [now rewrite H1|assumption].
    + subst x2. destruct (IH e1 e2 H) as [H1 H2].
      destruct (run e1 ticks), (run e2 ticks). simpl in *.
      split; [now rewrite H1|assumption].
Qed.

(** X14.  [reset] puts the engine back where [__init__] left it, except for
    the history, which it keeps: on every later sequence of ticks a reset
    engine returns, call by call, what a newly built engine with the same
    parameters returns. *)
Theorem reset_behaves_as_new (self : Engine) (ticks : list Tick) :
  decision_history (reset self) = decision_history self /\
  config (reset self) = config self /\
  fst (run (reset self) ticks) = fst (run (rebuilt self) ticks).
Proof.
  split; [reflexivity|]. split; [reflexivity|].
  apply same_state_run. repeat split.
Qed.

End RunFacts.

(** ** Pixel coordinates and face crops *)

Module GeometryFacts.
Import PyQ PyQFacts Utils Geometry.
Local Open Scope Q_scope.

Lemma py_int_floor (q : Q) : 0 <= q -> py_int q = Qfloor q.
Proof.
  destruct q as [n d]. unfold Qle, py_int, Qfloor. simpl. intros H.
  apply Z.quot_div_nonneg; lia.
Qed.

Lemma py_int_bounds (q : Q) (n : Z) :
  0 <= q -> q <= inject_Z n -> (0 <= py_int q <= n)%Z.
Proof.
  intros H0 Hn. rewrite (py_int_floor q H0). split.
  - change 0%Z with (Qfloor 0). now apply Qfloor_resp_le.
  - rewrite Zle_Qle. eapply Qle_trans; [apply Qfloor_le|exact Hn].
Qed.

Lemma py_int_mono (p q : Q) : 0 <= p -> p <= q -> (py_int p <= py_int q)%Z.
Proof.
  intros H0 Hpq. rewrite (py_int_floor p H0), (py_int_floor q) by qlra.
  now apply Qfloor_resp_le.
Qed.

Lemma scaled_bounds (x : Q) (n : Z) :
  0 <= x -> x <= 1 -> (0 <= n)%Z ->
  0 <= x * inject_Z n /\ x * inject_Z n <= inject_Z n.
Proof.
  intros H0 H1 Hn. rewrite Zle_Qle in Hn. change (inject_Z 0) with 0 in Hn.
  split; qnra.
Qed.

Lemma to_pixel_coords_bounds (b : BoundingBox) (w h : Z) :
  in_unit_square b -> (0 <= w)%Z -> (0 <= h)%Z ->
  let p := to_pixel_coords b w h in
  (0 <= px_x_min p <= px_x_max p)%Z /\ (px_x_max p <= w)%Z /\
  (0 <= px_y_min p <= px_y_max p)%Z /\ (px_y_max p <= h)%Z.
Proof.
  intros (Hx0 & Hx & Hx1 & Hy0 & Hy & Hy1) Hw Hh p. unfold p. simpl.
  assert (Hw' : 0 <= inject_Z w)
    by (rewrite Zle_Qle in Hw; exact Hw).
  assert (Hh' : 0 <= inject_Z h)
    by (rewrite Zle_Qle in Hh; exact Hh).
  destruct (scaled_bounds (x_min b) w) as [A1 A2]; [qlra|qlra|lia|].
  destruct (scaled_bounds (x_max b) w) as [B1 B2]; [qlra|qlra|lia|].
  destruct (scaled_bounds (y_min b) h) as [C1 C2]; [qlra|qlra|lia|].
  destruct (scaled_bounds (y_max b) h) as [D1 D2]; [qlra|qlra|lia|].
  pose proof (py_int_bounds _ _ A1 A2).
  pose proof (py_int_bounds _ _ B1 B2).
  pose proof (py_int_bounds _ _ C1 C2).
  pose proof (py_int_bounds _ _ D1 D2).
  assert (py_int (x_min b * inject_Z w) <= py_int (x_max b * inject_Z w))%Z
    by (apply py_int_mono; [assumption|qnra]).
  assert (py_int (y_min b * inject_Z h) <= py_int (y_max b * inject_Z h))%Z
    by (apply py_int_mono; [assumption|qnra]).
  lia.
Qed.

(** X15.  For a box inside the unit square and a frame of non-negative
    size, [to_pixel_coords] yields integer corners inside the frame and in
    order: [0 <= x_min <= x_max <= w] and [0 <= y_min <= y_max <= h]. *)
Theorem pixel_coords_in_frame (b : BoundingBox) (w h : Z) :
  in_unit_square b -> (0 <= w)%Z -> (0 <= h)%Z ->
  let p := to_pixel_coords b w h in
  (0 <= px_x_min p <= px_x_max p)%Z /\ (px_x_max p <= w)%Z /\
  (0 <= px_y_min p <= px_y_max p)%Z /\ (px_y_max p <= h)%Z.
Proof. exact (to_pixel_coords_bounds b w h). Qed.

Lemma pixel_coords_in_frame_witness :
  let p := to_pixel_coords middle_box 6 4 in
  (0 <= px_x_min p <= px_x_max p)%Z /\ (px_x_max p <= 6)%Z /\
  (0 <= px_y_min p <= px_y_max p)%Z /\ (px_y_max p <= 4)%Z.
Proof.
  apply (pixel_coords_in_frame middle_box 6 4).
  - unfold in_unit_square. repeat split; vm_compute; discriminate.
  - lia.
  - lia.
Defined.

Lemma length_flat_map_const {A B : Type} (f : A -> list B) (k : nat)
  (l : list A) :
  (forall a, List.length (f a) = k) ->
  List.length (flat_map f l) = (List.length l * k)%nat.
Proof.
  intros H. induction l as [|a l IH]; simpl; [reflexivity|].
  rewrite length_app, H, IH. reflexivity.
Qed.

Lemma slice2d_shape (img : Embedder.Image) (y0 y1 x0 x1 : Z) :
  (0 <= y0 <= y1)%Z -> (y1 <= Z.of_nat (Embedder.img_rows img))%Z ->
  (0 <= x0 <= x1)%Z -> (x1 <= Z.of_nat (Embedder.img_cols img))%Z ->
  let crop := slice2d img y0 y1 x0 x1 in
  Embedder.img_rows crop = Z.to_nat (y1 - y0) /\
  Embedder.img_cols crop = Z.to_nat (x1 - x0) /\
  Embedder.img_channels crop = Embedder.img_channels img /\
  List.length (Embedder.img_data crop) = Embedder.size crop.
Proof.
  intros Hy Hy1 Hx Hx1. unfold slice2d, slice_range, slice_bound.
  destruct (Z.ltb_spec y0 0); [lia|]. destruct (Z.ltb_spec y1 0); [lia|].
  destruct (Z.ltb_spec x0 0); [lia|]. destruct (Z.ltb_spec x1 0); [lia|].
  rewrite !Z.min_l by lia. cbv zeta. unfold Embedder.size. simpl.
  repeat split.
  rewrite (length_flat_map_const _
             (Z.to_nat (x1 - x0) * Embedder.img_channels img)).
  - rewrite length_seq. lia.
  - intros r.
    rewrite (length_flat_map_const _ (Embedder.img_channels img)).
    + now rewrite length_seq.
    + intros c. now rewrite length_map, length_seq.
Qed.

(** X16.  For a frame with at least one row, column and channel and a box
    inside the unit square, [extract_face_crop] slices inside the frame: the
    crop covers the pixel rectangle of the box, extends it by at most 10
    pixels on each side, has as many samples as its shape says, and is never
    empty. *)
Theorem face_crop_in_frame (frame : Embedder.Image) (bbox : BoundingBox) :
  (0 < Embedder.img_rows frame)%nat -> (0 < Embedder.img_cols frame)%nat ->
  (0 < Embedder.img_channels frame)%nat ->
  in_unit_square bbox ->
  let h := Z.of_nat (Embedder.img_rows frame) in
  let w := Z.of_nat (Embedder.img_cols frame) in
  let p := to_pixel_coords bbox w h in
  let '(x0, y0, x1, y1) := crop_bounds w h bbox in
  let crop := extract_face_crop frame bbox in
  (0 <= x0 <= px_x_min p)%Z /\ (px_x_max p <= x1 <= w)%Z /\
  (0 <= y0 <= px_y_min p)%Z /\ (px_y_max p <= y1 <= h)%Z /\
  (px_x_min p - 10 <= x0)%Z /\ (x1 <= px_x_max p + 10)%Z /\
  (px_y_min p - 10 <= y0)%Z /\ (y1 <= px_y_max p + 10)%Z /\
  Embedder.img_rows crop = Z.to_nat (y1 - y0) /\
  Embedder.img_cols crop = Z.to_nat (x1 - x0) /\
  List.length (Embedder.img_data crop) = Embedder.size crop /\
  Embedder.size crop <> 0%nat.
Proof.
  intros Hr Hc Hch Hb h w p.
  destruct (to_pixel_coords_bounds bbox w h Hb) as (Px & Pw & Py & Ph);
    [lia|lia|].
  fold p in Px, Pw, Py, Ph.
  unfold extract_face_crop. fold h w. unfold crop_bounds. fold p. cbv zeta.
  set (x0 := Z.max 0 (px_x_min p - 10)). set (y0 := Z.max 0 (px_y_min p - 10)).
  set (x1 := Z.min w (px_x_max p + 10)). set (y1 := Z.min h (px_y_max p + 10)).
  assert (Hx : (0 <= x0 < x1)%Z /\ (x1 <= w)%Z) by (unfold x0, x1, w; lia).
  assert (Hy : (0 <= y0 < y1)%Z /\ (y1 <= h)%Z) by (unfold y0, y1, h; lia).
  destruct (slice2d_shape frame y0 y1 x0 x1) as (S1 & S2 & S3 & S4);
    [lia|unfold h in Hy; lia|lia|unfold w in Hx; lia|].
  repeat split; try (unfold x0, x1, y0, y1; lia); try assumption.
  unfold Embedder.size. rewrite S1, S2, S3. nia.
Qed.

Lemma face_crop_in_frame_witness :
  Embedder.size (extract_face_crop tiny_frame middle_box) <> 0%nat.
Proof.
  pose proof (face_crop_in_frame tiny_frame middle_box) as H.
  cbv zeta in H.
  destruct (crop_bounds (Z.of_nat (Embedder.img_cols tiny_frame))
              (Z.of_nat (Embedder.img_rows tiny_frame)) middle_box)
    as [[[x0 y0] x1] y1].
  apply H.
  - simpl. lia.
  - simpl. lia.
  - simpl. lia.
  - unfold in_unit_square. repeat split; vm_compute; discriminate.
Defined.

End GeometryFacts.

(** ** Descriptors: cosine bound, dimensions and the DNN switch *)

Module DescriptorFacts.
Import Py Embedder EmbedderFacts ComputeFacts Descriptors.
Local Open Scope R_scope.

Lemma dot_opp_r (a : Vec) :
  forall b, dot a (map Ropp b) = bind (dot a b) (fun s => Ok (- s)).
Proof.
  induction a as [|x a IH]; intros [|y b]; simpl; try reflexivity.
  - f_equal. ring.
  - rewrite IH. destruct (dot a b) as [s|e]; simpl; [|reflexivity].
    f_equal. ring.
Qed.

Lemma dot_mismatch (a : Vec) :
  forall b, List.length a <> List.length b -> dot a b = Raise ValueError.
Proof.
  induction a as [|x a IH]; intros [|y b] H; simpl in *;
    try reflexivity; [contradiction|].
  rewrite IH; [reflexivity|]. intros E. apply H. now rewrite E.
Qed.

Lemma dot_all_zero (a : Vec) :
  Forall (fun x => x = 0) a ->
  forall b, List.length a = List.length b -> dot a b = Ok 0.
Proof.
  induction 1 as [|x a Hx _ IH]; intros [|y b] H; simpl in *;
    try discriminate; [reflexivity|].
  injection H as H. rewrite (IH b H), Hx. simpl. f_equal. ring.
Qed.

Lemma l2_normalize_all_zero (a : Vec) :
  Forall (fun x => x = 0) a -> Forall (fun x => x = 0) (l2_normalize a).
Proof.
  intros H. unfold l2_normalize. apply Forall_map.
  eapply Forall_impl; [|exact H]. cbv beta. intros x ->.
  unfold Rdiv. ring.
Qed.

Lemma l2_normalize_opp (b : Vec) :
  l2_normalize (map Ropp b) = map Ropp (l2_normalize b).
Proof.
  unfold l2_normalize. rewrite norm_opp, !map_map.
  apply map_ext. intros y. unfold Rdiv. ring.
Qed.

Lemma cosine_sym (a b : Vec) : cosine_similarity a b = cosine_similarity b a.
Proof. unfold cosine_similarity. apply dot_comm. Qed.

Lemma cosine_opp (a b : Vec) :
  cosine_similarity a (map Ropp b)
  = bind (cosine_similarity a b) (fun c => Ok (- c)).
Proof.
  unfold cosine_similarity. rewrite l2_normalize_opp. apply dot_opp_r.
Qed.

Lemma cosine_self (a : Vec) : exists c, cosine_similarity a a = Ok c /\ 0 <= c.
Proof.
  unfold cosine_similarity. rewrite dot_self.
  eexists. split; [reflexivity|apply sumsq_nonneg].
Qed.

(** [FaceEmbedder.similarity] on non-empty vectors, through
    [utils.cosine_similarity]. *)
Lemma similarity_of_cosine (a b : Vec) (c : R) :
  a <> [] -> b <> [] -> cosine_similarity a b = Ok c ->
  similarity (Some a) (Some b) = Ok (py_max 0 (py_min 1 ((c + 1) / 2))).
Proof.
  intros Ha Hb Hc. unfold similarity.
  destruct a as [|x a]; [contradiction|]. destruct b as [|y b]; [contradiction|].
  cbn [List.length Nat.eqb orb].
  unfold cosine_similarity in Hc. cbv zeta. rewrite Hc. reflexivity.
Qed.

(** X17.  [cosine_similarity] does not depend on the order of its
    arguments; negating one argument negates the result; a vector against
    itself gives a result that is not negative; it raises [ValueError]
    when the lengths differ and returns otherwise, 0 when the first vector
    holds only zeros (the [1e-8] keeps the division defined).  For
    non-empty vectors [similarity] is [(cosine + 1) / 2] cut to [[0, 1]]:
    at least 1/2 when the cosine is not negative, at most 1/2 when it is
    not positive. *)
Theorem cosine_similarity_laws (a b : Vec) :
  cosine_similarity a b = cosine_similarity b a /\
  cosine_similarity a (map Ropp b)
  = bind (cosine_similarity a b) (fun c => Ok (- c)) /\
  (exists c, cosine_similarity a a = Ok c /\ 0 <= c) /\
  (List.length a <> List.length b ->
   cosine_similarity a b = Raise ValueError) /\
  (List.length a = List.length b ->
   exists c,
     cosine_similarity a b = Ok c /\
     (Forall (fun x => x = 0) a -> c = 0) /\
     (a <> [] ->
      exists s,
        similarity (Some a) (Some b) = Ok s /\
        s = py_max 0 (py_min 1 ((c + 1) / 2)) /\
        (0 <= c -> 1 / 2 <= s <= 1) /\
        (c <= 0 -> 0 <= s <= 1 / 2))).
Proof.
  split; [apply cosine_sym|]. split; [apply cosine_opp|].
  split; [apply cosine_self|]. split.
  - intros Hl. unfold cosine_similarity. apply dot_mismatch.
    now rewrite !length_l2_normalize.
  - intros Hl.
    destruct (dot_returns (l2_normalize a) (l2_normalize b)) as [c Hc];
      [now rewrite !length_l2_normalize|].
    exists c. split; [exact Hc|]. split.
    + intros Hz.
      pose proof (dot_all_zero _ (l2_normalize_all_zero a Hz) (l2_normalize b))
        as Hd.
      rewrite Hc in Hd. rewrite !length_l2_normalize in Hd.
      specialize (Hd Hl). now injection Hd.
    + intros Ha.
      assert (Hb : b <> [])
        by (intros ->; destruct a; [contradiction|discriminate]).
      eexists. split; [exact (similarity_of_cosine a b c Ha Hb Hc)|].
      split; [reflexivity|]. split; intros Hs.
      * apply clamp_upper_half. rlra.
      * apply clamp_lower_half. rlra.
Qed.

Lemma cosine_similarity_laws_witness :
  exists c s,
    cosine_similarity [1; 2] [3; -1] = Ok c /\
    similarity (Some [1; 2]) (Some [3; -1]) = Ok s /\
    s = py_max 0 (py_min 1 ((c + 1) / 2)).
Proof.
  destruct (cosine_similarity_laws [1; 2] [3; -1]) as (_ & _ & _ & _ & H).
  destruct (H eq_refl) as (c & Hc & _ & Hs).
  destruct Hs as (s & Hs & E & _); [discriminate|].
  exists c, s. split; [exact Hc|]. split; [exact Hs|exact E].
Defined.

Lemma length_fit_length (n : nat) (v : Vec) : List.length (fit_length n v) = n.
Proof.
  unfold fit_length.
  destruct (Nat.ltb_spec (List.length (firstn n v)) n) as [H|H].
  - rewrite length_app, repeat_length. lia.
  - pose proof (firstn_le_length n v). rewrite length_firstn in *. lia.
Qed.

Lemma length_assemble (n : nat) (hog color : Vec) :
  List.length (assemble n hog color) = n.
Proof. unfold assemble. now rewrite length_l2_normalize, length_fit_length. Qed.

Lemma feature_try_length `{Cv2} (n : nat) (crop : Image) (v : Vec) :
  feature_try n crop = Ok v -> List.length v = n.
Proof.
  unfold feature_try.
  repeat match goal with
         | |- bind ?r _ = Ok _ -> _ =>
             destruct r; simpl; [|discriminate]
         end.
  intros E. injection E as <-. apply length_assemble.
Qed.

Lemma length_feature_embedding `{Cv2} (self : FaceEmbedder) (crop : Image) :
  List.length (_compute_feature_embedding self crop) = embedding_size self.
Proof.
  unfold _compute_feature_embedding.
  destruct (feature_try (embedding_size self) crop) as [v|e] eqn:E.
  - now apply feature_try_length in E.
  - apply length_randn.
Qed.

Lemma compute_embedding_plain `{Cv2} (self : FaceEmbedder)
  (crop : option Image) :
  dnn_unavailable self ->
  snd (compute_embedding self crop) = self /\
  List.length (fst (compute_embedding self crop)) = embedding_size self.
Proof.
  intros Hdnn. unfold compute_embedding.
  destruct crop as [img|]; [|split; [reflexivity|apply length_zeros]].
  destruct (size img =? 0)%nat; [split; [reflexivity|apply length_zeros]|].
  assert (E : match use_dnn self, net self with
              | true, Some the_net => _compute_dnn_embedding self the_net img
              | _, _ => (_compute_feature_embedding self img, self)
              end = (_compute_feature_embedding self img, self)).
  { destruct Hdnn as [-> | ->]; [reflexivity|].
    destruct (use_dnn self); reflexivity. }
  rewrite E. split; [reflexivity|apply length_feature_embedding].
Qed.

Lemma embed_all_plain `{Cv2} (crops : list (option Image)) :
  forall self, dnn_unavailable self ->
    snd (embed_all self crops) = self /\
    List.length (fst (embed_all self crops)) = List.length crops /\
    Forall (fun v => List.length v = embedding_size self)
      (fst (embed_all self crops)).
Proof.
  induction crops as [|c crops IH]; intros self Hdnn; simpl.
  - repeat split. constructor.
  - destruct (compute_embedding_plain self c Hdnn) as [H1 H2].
    destruct (compute_embedding self c) as [e self1]. simpl in *. subst self1.
    destruct (IH self Hdnn) as (I1 & I2 & I3).
    destruct (embed_all self crops) as [es self2]. simpl in *.
    repeat split; [assumption|now rewrite I2|now constructor].
Qed.

Lemma np_array_uniform (n : nat) (rows : list Vec) :
  Forall (fun v => List.length v = n) rows -> np_array rows = Ok rows.
Proof.
  intros H. unfold np_array. destruct rows as [|r rest]; [reflexivity|].
  inversion H as [|? ? Hr Hrest]; subst.
  assert (E : forallb (fun v => (List.length v =? List.length r)%nat) rest
              = true).
  { apply forallb_forall. intros v Hv. rewrite Forall_forall in Hrest.
    apply Nat.eqb_eq. now rewrite (Hrest v Hv). }
  now rewrite E.
Qed.

(** X18.  Without the pretrained strategy every embedding has the
    embedder's dimension, whatever the crop (missing, empty or not) and
    whatever OpenCV does, and the embedder is left unchanged; so
    [compute_batch_embeddings] returns one vector per crop, all of that
    dimension, and the conversion to a 2-D array succeeds. *)
Theorem embeddings_have_fixed_dimension `{Cv2} (self : FaceEmbedder)
  (crops : list (option Image)) :
  dnn_unavailable self ->
  (forall crop,
     List.length (fst (compute_embedding self crop)) = embedding_size self /\
     snd (compute_embedding self crop) = self) /\
  exists embeddings,
    compute_batch_embeddings self crops = (Ok embeddings, self) /\
    List.length embeddings = List.length crops /\
    Forall (fun v => List.length v = embedding_size self) embeddings.
Proof.
  intros Hdnn. split.
  - intros crop. destruct (compute_embedding_plain self crop Hdnn). now split.
  - destruct (embed_all_plain crops self Hdnn) as (H1 & H2 & H3).
    unfold compute_batch_embeddings.
    destruct (embed_all self crops) as [es self']. simpl in *. subst self'.
    exists es. rewrite (np_array_uniform _ _ H3). repeat split; assumption.
Qed.

Lemma embeddings_have_fixed_dimension_witness :
  exists embeddings,
    @compute_batch_embeddings plain_cv2 new_embedder [None; Some small_crop]
    = (Ok embeddings, new_embedder) /\
    List.length embeddings = 2%nat.
Proof.
  destruct (@embeddings_have_fixed_dimension plain_cv2 new_embedder
              [None; Some small_crop]) as (_ & es & H1 & H2 & _).
  - left. reflexivity.
  - exists es. split; assumption.
Defined.

(** X19.  The pretrained strategy when it is in use: a successful forward
    pass returns the network's output divided by its norm plus 1e-8 and
    leaves the embedder untouched; a failure returns the feature embedding
    and clears [use_dnn], after which no call consults the network again. *)
Theorem dnn_strategy_and_fallback `{Cv2} (self : FaceEmbedder) (the_net : Net)
  (crop : Image) :
  use_dnn self = true -> net self = Some the_net -> size crop <> 0%nat ->
  (forall out, dnn_forward the_net crop = Ok out ->
     compute_embedding self (Some crop) = (l2_normalize out, self)) /\
  (forall e, dnn_forward the_net crop = Raise e ->
     let self' := snd (compute_embedding self (Some crop)) in
     use_dnn self' = false /\ net self' = net self /\
     embedding_size self' = embedding_size self /\
     fst (compute_embedding self (Some crop))
     = _compute_feature_embedding self' crop /\
     forall later,
       snd (compute_embedding self' later) = self' /\
       (forall img, later = Some img -> size img <> 0%nat ->
          fst (compute_embedding self' later)
          = _compute_feature_embedding self' img)).
Proof.
  intros Hu Hn Hs.
  assert (E : compute_embedding self (Some crop)
              = _compute_dnn_embedding self the_net crop).
  { unfold compute_embedding.
    destruct (Nat.eqb_spec (size crop) 0) as [Hz|_]; [contradiction|].
    now rewrite Hu, Hn. }
  rewrite E. unfold _compute_dnn_embedding. split.
  - intros out ->. reflexivity.
  - intros e ->. cbv zeta. simpl. repeat split.
    + apply compute_embedding_plain. left. reflexivity.
    + intros img -> Himg.
      rewrite compute_embedding_features; [reflexivity|assumption|].
      left. reflexivity.
Qed.

Lemma dnn_strategy_and_fallback_witness :
  use_dnn (snd (@compute_embedding plain_cv2 dnn_embedder (Some small_crop)))
  = false.
Proof.
  destruct (@dnn_strategy_and_fallback plain_cv2 dnn_embedder tt small_crop)
    as [_ H].
  - reflexivity.
  - reflexivity.
  - discriminate.
  - exact (proj1 (H CvError eq_refl)).
Defined.

End DescriptorFacts.

(** ** Verifier: batches, threshold updates and face selection *)

Module VerifierFacts.
Import Py Utils Embedder EmbedderFacts Verify VerifyFacts Descriptors.
Local Open Scope R_scope.

Lemma verify_cases (self : FaceVerifier) (e : Vec) (l : string) (s : R) :
  verify self e = Ok (l, s) ->
  0 <= s <= 1 /\
  ((template_embedding self = None /\ l = "OTHER"%string /\ s = 0) \/
   (template_embedding self <> None /\
    Embedder.similarity (Some e) (template_embedding self) = Ok s /\
    ((l = "ME"%string /\ similarity_threshold self <= s) \/
     (l = "OTHER"%string /\ s < similarity_threshold self)))).
Proof.
  unfold verify, is_enabled.
  destruct (template_embedding self) as [t|] eqn:Ht; cbn [negb].
  - destruct (Embedder.similarity (Some e) (Some t)) as [sim|x] eqn:Hs;
      cbn [bind]; [|discriminate].
    pose proof (similarity_range _ _ _ Hs) as Hr.
    destruct (Rge_dec sim (similarity_threshold self)) as [Hge|Hlt];
      intros E; injection E as <- <-; (split; [exact Hr|]); right;
      (split; [discriminate|]); (split; [reflexivity|]).
    + left. split; [reflexivity|rlra].
    + right. split; [reflexivity|rlra].
  - intros E. injection E as <- <-. split; [rlra|]. left. repeat split.
Qed.

Lemma verify_returns (self : FaceVerifier) (e : Vec) :
  (forall t, template_embedding self = Some t ->
             List.length e = List.length t) ->
  exists l s, verify self e = Ok (l, s).
Proof.
  intros H. unfold verify, is_enabled.
  destruct (template_embedding self) as [t|] eqn:Ht; cbn [negb].
  - destruct (similarity_returns e t (H t eq_refl)) as [s ->]. cbn [bind].
    destruct (Rge_dec s (similarity_threshold self)); eexists; eexists;
      reflexivity.
  - eexists; eexists; reflexivity.
Qed.

(** X20.  [verify_batch] pairs embeddings and boxes position by position
    and stops at the shorter list.  When it returns, the identities carry
    those boxes and embeddings in order, every similarity lies in [[0, 1]],
    and every label is ["ME"] with a similarity at least the threshold or
    ["OTHER"] with one below it (or with no template at all).  It returns
    whenever no template is loaded or every embedding has the template's
    length. *)
Theorem verify_batch_pairs (self : FaceVerifier) (embeddings : list Vec)
  (boxes : list BoundingBox) :
  ((forall t, template_embedding self = Some t ->
      Forall (fun e => List.length e = List.length t) embeddings) ->
   exists ids, verify_batch self embeddings boxes = Ok ids) /\
  forall ids, verify_batch self embeddings boxes = Ok ids ->
    List.length ids = Nat.min (List.length embeddings) (List.length boxes) /\
    map Verify.box ids = firstn (List.length ids) boxes /\
    map Verify.embedding ids = firstn (List.length ids) embeddings /\
    Forall (fun f =>
              0 <= Verify.similarity f <= 1 /\
              ((label f = "ME"%string /\
                similarity_threshold self <= Verify.similarity f) \/
               (label f = "OTHER"%string /\
                (Verify.similarity f < similarity_threshold self \/
                 template_embedding self = None)))) ids.
Proof.
  split.
  - intros Hlen. revert boxes.
    induction embeddings as [|e es IH]; intros [|b bs]; simpl;
      try (eexists; reflexivity).
    assert (He : forall t, template_embedding self = Some t ->
                           List.length e = List.length t).
    { intros t Ht. specialize (Hlen t Ht). now inversion Hlen. }
    assert (Hes : forall t, template_embedding self = Some t ->
                   Forall (fun e => List.length e = List.length t) es).
    { intros t Ht. specialize (Hlen t Ht). now inversion Hlen. }
    destruct (verify_returns self e He) as (l & s & ->). simpl.
    destruct (IH Hes bs) as [ids ->]. simpl. eexists. reflexivity.
  - revert boxes.
    induction embeddings as [|e es IH]; intros [|b bs] ids H; simpl in H;
      try (injection H as <-; repeat split; constructor).
    destruct (verify self e) as [[l s]|x] eqn:Hv; simpl in H; [|discriminate].
    destruct (verify_batch self es bs) as [rest|x] eqn:Hb; simpl in H;
      [|discriminate].
    injection H as <-.
    destruct (IH bs rest Hb) as (I1 & I2 & I3 & I4).
    destruct (verify_cases self e l s Hv) as [Hr Hc].
    simpl. repeat split.
    + now rewrite I1.
    + now rewrite I2.
    + now rewrite I3.
    + constructor; [|exact I4]. simpl. split; [exact Hr|].
      destruct Hc as [(Hn & -> & ->)|(_ & _ & [[-> Hge]|[-> Hlt]])].
      * right. split; [reflexivity|now right].
      * left. now split.
      * right. split; [reflexivity|now left].
Qed.

Lemma verify_batch_pairs_witness :
  exists ids,
    verify_batch (mkFaceVerifier (Some [eps]) (5 / 8)) [[eps]; [eps]]
      [mkBoundingBox 0 0 1 1] = Ok ids /\
    List.length ids = 1%nat.
Proof.
  destruct (verify_batch_pairs (mkFaceVerifier (Some [eps]) (5 / 8))
              [[eps]; [eps]] [mkBoundingBox 0 0 1 1]) as [Hret Hprop].
  destruct Hret as [ids Hids].
  - intros t Ht. injection Ht as <-. repeat constructor.
  - exists ids. split; [exact Hids|]. exact (proj1 (Hprop ids Hids)).
Defined.

Lemma clamp_fixed (x : R) :
  0 <= x <= 1 -> Embedder.py_max 0 (Embedder.py_min 1 x) = x.
Proof. apply clamp_inside. Qed.

(** X21.  [update_threshold] clamps: the stored threshold always lies in
    [[0, 1]], it is the requested value whenever that lies in [[0, 1]], 0
    below and 1 above, and the template is untouched. *)
Theorem update_threshold_clamps (self : FaceVerifier) (new_threshold : R) :
  let self' := update_threshold self new_threshold in
  0 <= similarity_threshold self' <= 1 /\
  (0 <= new_threshold <= 1 -> similarity_threshold self' = new_threshold) /\
  (new_threshold < 0 -> similarity_threshold self' = 0) /\
  (1 < new_threshold -> similarity_threshold self' = 1) /\
  template_embedding self' = template_embedding self.
Proof.
  unfold update_threshold. simpl. split; [apply clamp_range|].
  split; [apply clamp_inside|].
  unfold Embedder.py_max, Embedder.py_min. repeat split; intros H.
  - destruct (Rlt_dec new_threshold 1); [|rlra].
    destruct (Rlt_dec 0 new_threshold); rlra.
  - destruct (Rlt_dec new_threshold 1); [rlra|].
    destruct (Rlt_dec 0 1); rlra.
Qed.

Lemma max_by_similarity_spec (rest : list FaceIdentity) :
  forall best,
    let m := max_by_similarity best rest in
    In m (best :: rest) /\
    forall f, In f (best :: rest) -> Verify.similarity f <= Verify.similarity m.
Proof.
  induction rest as [|g rest IH]; intros best; simpl.
  - split; [now left|]. intros f [<-|[]]. rlra.
  - destruct (Rlt_dec (Verify.similarity best) (Verify.similarity g)) as [Hlt|Hge].
    + destruct (IH g) as [Hin Hmax]. cbv zeta in Hin, Hmax. split.
      * right. exact Hin.
      * intros f [<-|Hf].
        -- specialize (Hmax g (or_introl eq_refl)). rlra.
        -- now apply Hmax.
    + destruct (IH best) as [Hin Hmax]. cbv zeta in Hin, Hmax. split.
      * destruct Hin as [<-|Hin]; [now left|right; now right].
      * intros f [<-|[<-|Hf]].
        -- apply Hmax. now left.
        -- specialize (Hmax best (or_introl eq_refl)). rlra.
        -- apply Hmax. now right.
Qed.

(** X22.  [get_me_face] returns nothing exactly when no identity is
    labelled ["ME"]; otherwise it returns one of the identities, labelled
    ["ME"], whose similarity is at least that of every identity labelled
    ["ME"].  [get_other_faces] returns exactly the identities labelled
    ["OTHER"], in order. *)
Theorem face_selection (identities : list FaceIdentity) :
  (get_me_face identities = None <->
   forall f, In f identities -> label f <> "ME"%string) /\
  (forall m, get_me_face identities = Some m ->
     In m identities /\ label m = "ME"%string /\
     forall f, In f identities -> label f = "ME"%string ->
               Verify.similarity f <= Verify.similarity m) /\
  (forall f, In f (get_other_faces identities) <->
             In f identities /\ label f = "OTHER"%string).
Proof.
  unfold get_me_face, get_other_faces.
  assert (Hme : forall f, In f (filter is_me identities) <->
                          In f identities /\ label f = "ME"%string).
  { intros f. rewrite filter_In. unfold is_me. now rewrite String.eqb_eq. }
  split; [|split].
  - destruct (filter is_me identities) as [|g rest] eqn:E.
    + split; [|reflexivity]. intros _ f Hf Hl.
      assert (X : In f []) by (apply Hme; now split). destruct X.
    + split; [discriminate|]. intros H. exfalso.
      assert (X : In g identities /\ label g = "ME"%string)
        by (apply Hme; now left).
      destruct X as [X1 X2]. exact (H g X1 X2).
  - intros m. destruct (filter is_me identities) as [|g rest] eqn:E;
      [discriminate|].
    intros Hm. injection Hm as <-.
    destruct (max_by_similarity_spec rest g) as [Hin Hmax].
    cbv zeta in Hin, Hmax. apply Hme in Hin. destruct Hin as [H1 H2].
    repeat split; [assumption|assumption|].
    intros f Hf Hl. apply Hmax. apply Hme. now split.
  - intros f. rewrite filter_In. unfold is_other. now rewrite String.eqb_eq.
Qed.

Lemma face_selection_witness :
  exists m, get_me_face three_faces = Some m /\ label m = "ME"%string.
Proof.
  destruct (get_me_face three_faces) as [m|] eqn:E.
  - exists m. split; [reflexivity|].
    exact (proj1 (proj2 (proj1 (proj2 (face_selection three_faces)) m E))).
  - exfalso.
    apply (proj1 (proj1 (face_selection three_faces)) E
             (mkFaceIdentity "ME" (7 / 10) (mkBoundingBox 0 0 1 1) [])).
    + left. reflexivity.
    + reflexivity.
Defined.

End VerifierFacts.

(** ** Verifier and engine together *)

Module PipelineFacts.
Import Py PyQ Utils Verify Decision DecisionSpec CountingFacts EngineFacts.
Local Open Scope Q_scope.

Lemma verify_batch_disabled (self : FaceVerifier)
  (embeddings : list Embedder.Vec) :
  template_embedding self = None ->
  forall boxes,
    verify_batch self embeddings boxes
    = Ok (map (fun eb => mkFaceIdentity "OTHER" 0 (snd eb) (fst eb))
            (combine embeddings boxes)).
Proof.
  intros Hn. induction embeddings as [|e es IH]; intros [|b bs]; simpl;
    try reflexivity.
  rewrite (VerifyFacts.verify_disabled self e Hn). simpl.
  now rewrite IH.
Qed.

Lemma map_snd_combine {A B : Type} (l : list A) :
  forall l' : list B, map snd (combine l l') = firstn (List.length l) l'.
Proof.
  induction l as [|a l IH]; intros [|b l']; simpl; try reflexivity.
  now rewrite IH.
Qed.

(** X23.  Without an enrolled template every face is an other: the
    verifier labels each paired face ["OTHER"] with similarity 0, and an
    engine in verified mode fed those identities counts every paired box
    whose area ratio reaches the threshold -- the user's own face
    included, with no allowance of one as in the counting without
    identities. *)
Theorem no_template_counts_every_face (v : FaceVerifier)
  (embeddings : list Embedder.Vec) (bs : list BoundingBox)
  (self : Engine) (t : Tick) :
  template_embedding v = None ->
  use_identity_verification self = true ->
  (frame_width t * frame_height t)%Z <> 0%Z ->
  exists ids,
    verify_batch v embeddings bs = Ok ids /\
    Forall (fun f => label f = "OTHER"%string /\ similarity f = 0%R) ids /\
    (identities t = Some ids ->
     exists d self',
       decide self t = Ok (d, self') /\
       other_face_count d =
       Z.of_nat (List.length
                   (filter (Qle_bool (area_ratio_threshold self))
                      (map (ratio (frame_width t * frame_height t))
                         (firstn (List.length embeddings) bs))))).
Proof.
  intros Hn Hiv Hfa. eexists. split; [apply verify_batch_disabled, Hn|].
  set (ids := map _ (combine embeddings bs)).
  assert (Hall : Forall (fun f => label f = "OTHER"%string
                                  /\ similarity f = 0%R) ids).
  { apply Forall_forall. intros f Hf. unfold ids in Hf.
    apply in_map_iff in Hf. destruct Hf as (eb & <- & _). split; reflexivity. }
  split; [exact Hall|]. intros Hids.
  destruct (decide_returns self t Hfa) as (d & self' & Hd).
  exists d, self'. split; [exact Hd|].
  destruct (decide_counts _ _ _ _ Hd) as (c & Hc & -> & _).
  rewrite (verified_counts _ _ _ Hiv Hids) in Hc.
  rewrite (count_loop_ok _ _ _ Hfa) in Hc. simpl in Hc. injection Hc as <-.
  simpl.
  assert (Hf : filter (has_label "OTHER") ids = ids).
  { apply forallb_filter_id. apply forallb_forall. intros f Hf.
    rewrite Forall_forall in Hall. unfold has_label.
    now rewrite (proj1 (Hall f Hf)). }
  rewrite Hf. unfold ids.
  rewrite <- (map_snd_combine embeddings bs), !map_map. reflexivity.
Qed.

Lemma no_template_counts_every_face_witness :
  exists ids,
    verify_batch (mkFaceVerifier None (6 / 10)) [[]]
      [mkBoundingBox 0 0 (2 # 10) (2 # 10)] = Ok ids /\
    Forall (fun f => label f = "OTHER"%string /\ similarity f = 0%R) ids.
Proof.
  destruct (no_template_counts_every_face (mkFaceVerifier None (6 / 10)) [[]]
              [mkBoundingBox 0 0 (2 # 10) (2 # 10)] verifying_engine
              identified_tick) as (ids & H1 & H2 & _).
  - reflexivity.
  - reflexivity.
  - vm_compute. discriminate.
  - exists ids. split; assumption.
Defined.

End PipelineFacts.

(** ** Configuration lookup *)

Module ConfigFacts.
Import Py Config.

Lemma split_dot_plain (k : string) :
  has_dot k = false -> split_dot k = [k].
Proof.
  induction k as [|c k IH]; simpl; [reflexivity|].
  destruct (Ascii.eqb c dot); [discriminate|]. simpl. intros H.
  now rewrite (IH H).
Qed.

Lemma split_dot_cons (k rest : string) :
  has_dot k = false ->
  split_dot (k ++ String dot rest) = k :: split_dot rest.
Proof.
  induction k as [|c k IH]; simpl.
  - intros _. reflexivity.
  - destruct (Ascii.eqb c dot); [discriminate|]. simpl. intros H.
    now rewrite (IH H).
Qed.

Lemma split_join (keys : list string) :
  keys <> [] -> Forall (fun k => has_dot k = false) keys ->
  split_dot (join_dot keys) = keys.
Proof.
  induction keys as [|k keys IH]; intros Hne Hall; [contradiction|].
  inversion Hall as [|? ? Hk Hrest]; subst.
  destruct keys as [|k' keys].
  - simpl. now apply split_dot_plain.
  - change (join_dot (k :: k' :: keys))
      with (k ++ String dot (join_dot (k' :: keys)))%string.
    rewrite (split_dot_cons _ _ Hk), IH; [reflexivity|discriminate|assumption].
Qed.

Lemma split_dot_nonempty (key : string) : split_dot key <> [].
Proof.
  destruct key as [|c key]; simpl; [discriminate|].
  destruct (Ascii.eqb c dot); [discriminate|].
  destruct (split_dot key); discriminate.
Qed.

(** X24.  [Config.get] follows the dotted key one component at a time:
    for components without a dot, splitting their join gives them back, the
    lookup descends through nested objects, and the result is the value
    found unless a component is missing, is reached through a value that is
    not an object, or the value found is null -- in each of those cases it
    is the default.  So a non-null default never yields null, and data that
    is not an object always yields the default. *)
Theorem config_get_by_path (data : Json) (default : Json) :
  (forall keys, keys <> [] -> Forall (fun k => has_dot k = false) keys ->
     split_dot (join_dot keys) = keys /\
     get data (join_dot keys) default =
     match walk data keys with
     | None | Some JNull => default
     | Some value => value
     end) /\
  (forall fields k rest, data = JObj fields -> has_dot k = false ->
     get data k default =
       match assoc k fields with
       | None | Some JNull => default
       | Some value => value
       end /\
     get data (k ++ String dot rest) default
     = get (dict_get fields k) rest default) /\
  (forall key, (forall fields, data <> JObj fields) ->
               get data key default = default) /\
  (forall key, default <> JNull -> get data key default <> JNull).
Proof.
  split; [|split; [|split]].
  - intros keys Hne Hall. pose proof (split_join keys Hne Hall) as E.
    split; [exact E|]. unfold get. now rewrite E.
  - intros fields k rest -> Hk. unfold get. split.
    + rewrite (split_dot_plain k Hk). simpl. unfold dict_get.
      destruct (assoc k fields) as [v|]; reflexivity.
    + now rewrite (split_dot_cons k rest Hk).
  - intros key Hno. unfold get.
    destruct (split_dot key) as [|k ks] eqn:E;
      [exfalso; exact (split_dot_nonempty key E)|].
    destruct data; try reflexivity. exfalso. exact (Hno fields eq_refl).
  - intros key Hd. unfold get.
    destruct (walk data (split_dot key)) as [[]|]; try discriminate;
      exact Hd.
Qed.

Lemma config_get_by_path_witness :
  get _default_config (join_dot ["privacy"; "debounce_on_frames"]%string) JNull
  = JInt 2.
Proof.
  destruct (proj1 (config_get_by_path _default_config JNull)
              ["privacy"; "debounce_on_frames"]%string) as [_ E].
  - discriminate.
  - repeat constructor.
  - rewrite E. reflexivity.
Defined.

(** Data without a ["privacy"] entry at its top level. *)
Lemma get_privacy_without_section (data : Json) (rest : string)
  (default : Json) :
  (forall fields, data = JObj fields -> assoc "privacy" fields = None) ->
  get data ("privacy" ++ String dot rest) default = default.
Proof.
  intros Hno. unfold get.
  rewrite (split_dot_cons "privacy" rest eq_refl). simpl.
  destruct data; try reflexivity.
  unfold dict_get. rewrite (Hno fields eq_refl).
  destruct (split_dot rest) as [|k ks] eqn:E;
    [exfalso; exact (split_dot_nonempty rest E)|reflexivity].
Qed.

(** X25.  When the configuration file is missing or unreadable, [load]
    falls back to the built-in defaults, and the engine [main] builds from
    them is the engine with every constructor default: the built-in
    defaults have no [debounce_off_frames], so its value 30 comes from the
    default argument at the call.  The same engine results from any parsed
    configuration whose top level has no ["privacy"] entry. *)
Theorem engine_from_default_config (file : ConfigFile) :
  file = Missing \/ file = Unreadable \/
  (exists data, file = Parsed data /\
     forall fields, data = JObj fields -> assoc "privacy" fields = None) ->
  engine_of_config (load file) = Some Decision.default_engine /\
  (file = Missing \/ file = Unreadable ->
   get (load file) "privacy.debounce_off_frames" JNull = JNull /\
   get (load file) "privacy.debounce_on_frames" JNull = JInt 2).
Proof.
  intros [->|[->|(data & -> & Hno)]].
  - split; [reflexivity|]. intros _. split; reflexivity.
  - split; [reflexivity|]. intros _. split; reflexivity.
  - split; [|intros [H|H]; discriminate H].
    simpl load. unfold engine_of_config.
    change "privacy.face_count_threshold"%string
      with ("privacy" ++ String dot "face_count_threshold")%string.
    change "privacy.area_ratio_threshold"%string
      with ("privacy" ++ String dot "area_ratio_threshold")%string.
    change "privacy.debounce_on_frames"%string
      with ("privacy" ++ String dot "debounce_on_frames")%string.
    change "privacy.debounce_off_seconds"%string
      with ("privacy" ++ String dot "debounce_off_seconds")%string.
    change "privacy.debounce_off_frames"%string
      with ("privacy" ++ String dot "debounce_off_frames")%string.
    rewrite !(get_privacy_without_section data _ _ Hno). reflexivity.
Qed.

Lemma engine_from_default_config_witness :
  engine_of_config (load Missing) = Some Decision.default_engine.
Proof.
  apply (engine_from_default_config Missing). left. reflexivity.
Defined.

End ConfigFacts.

(** ** Rendering *)

Module RenderFacts.
Import Utils Geometry GeometryFacts Render.

(** X26.  The blur kernel size the renderer stores is always odd: an odd
    request is kept, an even one is raised by one. *)
Theorem blur_kernel_is_odd (blur_kernel_size : Z) :
  let k := init_blur_kernel_size blur_kernel_size in
  (k mod 2 = 1)%Z /\
  (blur_kernel_size <= k <= blur_kernel_size + 1)%Z /\
  ((blur_kernel_size mod 2 = 1)%Z -> k = blur_kernel_size).
Proof.
  unfold init_blur_kernel_size.
  pose proof (Z.mod_pos_bound blur_kernel_size 2 ltac:(lia)) as Hb.
  destruct (Z.eqb_spec (blur_kernel_size mod 2) 0) as [E|E]; cbv zeta.
  - repeat split; try lia.
    rewrite Z.add_mod, E by lia. reflexivity.
  - repeat split; lia.
Qed.

Lemma annotate_identity_inside (w h : Z) (f : Verify.FaceIdentity) :
  in_unit_square (Verify.box f) -> (0 <= w)%Z -> (0 <= h)%Z ->
  drawn_inside w h (annotate_identity w h f).
Proof.
  intros Hb Hw Hh.
  pose proof (to_pixel_coords_bounds (Verify.box f) w h Hb Hw Hh) as P.
  unfold drawn_inside, annotate_identity. cbv zeta in P.
  cbn -[to_pixel_coords]. lia.
Qed.

(** X27.  What [render] annotates.  With identities it draws one rectangle
    per identity even when [show_annotations] is off -- green and 3 thick
    for ["ME"], red and 2 thick for any other label -- each inside the frame
    when the box is inside the unit square; without identities it draws
    only when [show_annotations] is on, one rectangle per box paired with a
    confidence, all red when privacy is on and all green otherwise; without
    a detection result it draws nothing. *)
Theorem render_annotations_cases (show_annotations : bool) (w h : Z)
  (privacy_on : bool) (res : FaceDetectionResult)
  (ids : list Verify.FaceIdentity) :
  (0 <= w)%Z -> (0 <= h)%Z ->
  (let drawn := render_annotations show_annotations w h privacy_on (Some res)
                  (Some ids) in
   drawn = map (annotate_identity w h) ids /\
   List.length drawn = List.length ids /\
   (forall f, In f ids ->
      color (annotate_identity w h f)
      = (if String.eqb (Verify.label f) "ME" then green else red) /\
      thickness (annotate_identity w h f)
      = (if String.eqb (Verify.label f) "ME" then 3 else 2)%Z) /\
   (Forall (fun f => in_unit_square (Verify.box f)) ids ->
    Forall (drawn_inside w h) drawn)) /\
  (let drawn := render_annotations true w h privacy_on (Some res) None in
   List.length drawn
   = Nat.min (List.length (boxes res)) (List.length (confidences res)) /\
   Forall (fun a => color a = (if privacy_on then red else green)
                    /\ thickness a = 2%Z) drawn) /\
  render_annotations false w h privacy_on (Some res) None = [] /\
  (forall identities,
     render_annotations show_annotations w h privacy_on None identities = []).
Proof.
  intros Hw Hh. split; [|split; [|split]].
  - cbv zeta. unfold render_annotations, _draw_annotations.
    split; [reflexivity|]. split; [apply length_map|]. split.
    + intros f _. split; reflexivity.
    + intros Hall. apply Forall_forall. intros a Ha.
      apply in_map_iff in Ha. destruct Ha as (f & <- & Hf).
      rewrite Forall_forall in Hall.
      now apply annotate_identity_inside; [apply Hall| |].
  - cbv zeta. unfold render_annotations, _draw_annotations, enumerate. split.
    + rewrite length_map, length_combine, length_seq, !length_combine. lia.
    + apply Forall_forall. intros a Ha. apply in_map_iff in Ha.
      destruct Ha as ([i [b c]] & <- & _). split; reflexivity.
  - reflexivity.
  - intros [ids'|]; unfold render_annotations, _draw_annotations;
      [reflexivity|]. destruct show_annotations; reflexivity.
Qed.

Lemma render_annotations_cases_witness :
  render_annotations false 6 4 true (Some Decision.crowd)
    (Some DecisionSpec.two_identities)
  = map (annotate_identity 6 4) DecisionSpec.two_identities.
Proof.
  apply (render_annotations_cases false 6 4 true Decision.crowd
           DecisionSpec.two_identities); lia.
Defined.

End RenderFacts.

(** ** Main loop: overlay calls *)

Module MainLoopFacts.
Import Utils MainLoop.

Lemma last_cons {A : Type} (l : list A) (a d : A) :
  last (a :: l) d = last l a.
Proof.
  revert a d. induction l as [|b l IH]; intros a d; [reflexivity|].
  change (last (a :: b :: l) d) with (last (b :: l) d).
  rewrite (IH b d). symmetry. apply (IH b a).
Qed.

Lemma log_all_spec (ds : list PrivacyDecision) :
  forall st,
    let st' := fst (log_all st ds) in
    let calls := snd (log_all st ds) in
    last_privacy_state st' = last (map privacy_on ds) (last_privacy_state st) /\
    overlay_shown (last_privacy_state st) calls = last_privacy_state st' /\
    privacy_transitions st'
    = (privacy_transitions st + Z.of_nat (List.length calls))%Z /\
    alternating (if last_privacy_state st then HideOverlay else ShowOverlay)
      calls.
Proof.
  induction ds as [|d ds IH]; intros st; cbv zeta.
  - simpl. repeat split. lia.
  - simpl log_all. unfold log_transition. rewrite map_cons, last_cons.
    destruct (Bool.eqb (privacy_on d) (last_privacy_state st)) eqn:E.
    + apply Bool.eqb_prop in E.
      specialize (IH st). cbv zeta in IH.
      destruct (log_all st ds) as [st2 calls2]. simpl in *.
      destruct IH as (I1 & I2 & I3 & I4).
      repeat split; try assumption.
      rewrite I1, E. reflexivity.
    + apply Bool.eqb_false_iff in E.
      specialize (IH (mkLogged (privacy_on d) (privacy_transitions st + 1))).
      cbv zeta in IH.
      destruct (log_all _ ds) as [st2 calls2]. simpl in *.
      destruct IH as (I1 & I2 & I3 & I4).
      repeat split.
      * exact I1.
      * rewrite <- I2. destruct (privacy_on d); reflexivity.
      * rewrite I3. lia.
      * destruct (privacy_on d), (last_privacy_state st); try reflexivity;
          exfalso; apply E; reflexivity.
      * destruct (privacy_on d), (last_privacy_state st); try exact I4;
          exfalso; apply E; reflexivity.
Qed.

(** X28.  The main loop touches the overlay only on transitions: from the
    start of the loop (last state false, overlay hidden), after any
    sequence of decisions the overlay is shown exactly if the latest
    decision has privacy on, the calls alternate between show and hide
    beginning with show, and [privacy_transitions] counts them. *)
Theorem overlay_follows_decisions (ds : list PrivacyDecision) :
  let st := fst (log_all start ds) in
  let calls := snd (log_all start ds) in
  last_privacy_state st = last (map privacy_on ds) false /\
  overlay_shown false calls = last (map privacy_on ds) false /\
  privacy_transitions st = Z.of_nat (List.length calls) /\
  alternating ShowOverlay calls /\
  (List.length calls <= List.length ds)%nat.
Proof.
  cbv zeta. destruct (log_all_spec ds start) as (H1 & H2 & H3 & H4).
  cbv zeta in *. simpl in *.
  split; [exact H1|]. split; [now rewrite H2|]. split; [exact H3|].
  split; [exact H4|].
  clear. generalize start. induction ds as [|d ds IH]; intros st; simpl.
  - lia.
  - unfold log_transition.
    destruct (Bool.eqb (privacy_on d) (last_privacy_state st)).
    + specialize (IH st). destruct (log_all st ds). simpl in *. lia.
    + specialize (IH (mkLogged (privacy_on d) (privacy_transitions st + 1))).
      destruct (log_all _ ds). simpl in *. lia.
Qed.

End MainLoopFacts.

(** ** Enrollment *)

Module EnrollFacts.
Import Py Utils Embedder EmbedderFacts ComputeFacts Descriptors
       DescriptorFacts Geometry Enroll.
Local Open Scope R_scope.

Lemma mean_axis0_single (v : Vec) : mean_axis0 [v] = v.
Proof.
  unfold mean_axis0. cbn [fold_left List.length INR].
  rewrite <- (map_id v) at 2. apply map_ext. intros x. field.
Qed.

Lemma length_vec_add (a b : Vec) (n : nat) :
  List.length a = n -> List.length b = n -> List.length (vec_add a b) = n.
Proof.
  intros Ha Hb. unfold vec_add. rewrite length_map, length_combine. lia.
Qed.

Lemma length_fold_vec_add (n : nat) (rest : list Vec) :
  Forall (fun v => List.length v = n) rest ->
  forall r, List.length r = n ->
            List.length (fold_left vec_add rest r) = n.
Proof.
  induction 1 as [|v rest Hv _ IH]; intros r Hr; simpl; [exact Hr|].
  apply IH. now apply length_vec_add.
Qed.

Lemma length_mean_axis0 (n : nat) (rows : list Vec) :
  rows <> [] -> Forall (fun v => List.length v = n) rows ->
  List.length (mean_axis0 rows) = n.
Proof.
  intros Hne Hall. destruct rows as [|r rest]; [contradiction|].
  inversion Hall as [|? ? Hr Hrest]; subst.
  unfold mean_axis0. rewrite length_map.
  now apply length_fold_vec_add.
Qed.

Lemma capture_keeps `{Cv2} (st : State) (it : Iteration) (e : FaceEmbedder) :
  dnn_unavailable e ->
  consistent st -> enrolling st = true -> plain_state st e ->
  consistent (capture st it) /\ plain_state (capture st it) e.
Proof.
  intros Hdnn (C1 & C2 & C3 & C4) Hen (P1 & P2). specialize (C3 Hen).
  assert (Keep : consistent st /\ plain_state st e)
    by (repeat split; try assumption; intros _; exact C3).
  unfold capture.
  destruct (detection_result it) as [res|]; [|exact Keep].
  destruct (boxes res) as [|first others] eqn:Eb; [exact Keep|].
  set (crop := extract_face_crop _ _).
  destruct (Nat.eqb_spec (size crop) 0) as [Hz|Hnz]; [exact Keep|].
  rewrite <- P1 in Hdnn.
  destruct (compute_embedding_plain (embedder st) (Some crop) Hdnn) as [E1 E2].
  destruct (compute_embedding (embedder st) (Some crop)) as [emb emb'].
  simpl in E1, E2. subst emb'.
  unfold consistent, plain_state.
  cbn [enrolling captured_crops captured_embeddings embedder].
  rewrite !length_app. cbn [List.length].
  repeat split.
  - lia.
  - lia.
  - destruct (Nat.leb_spec 15 (List.length (captured_crops st) + 1));
      intros X; [discriminate X|lia].
  - apply Forall_app. split; [assumption|]. now constructor.
  - exact P1.
  - apply Forall_app. split; [assumption|].
    constructor; [now rewrite <- P1|constructor].
Qed.

Lemma step_keeps `{Cv2} (st st' : State) (it : Iteration) (e : FaceEmbedder) :
  dnn_unavailable e ->
  consistent st -> plain_state st e -> step st it = Some st' ->
  consistent st' /\ plain_state st' e.
Proof.
  intros Hdnn Hc Hp. unfold step.
  destruct (key it); try discriminate.
  - destruct (enrolling st) eqn:E; intros X; injection X as <-;
      [now split|].
    destruct Hp as [P1 P2]. unfold consistent, plain_state. simpl.
    repeat split; try lia; try assumption; constructor.
  - destruct (enrolling st) eqn:E; intros X; injection X as <-;
      [|now split].
    now apply capture_keeps.
  - intros X. injection X as <-. now split.
Qed.

Lemma loop_keeps `{Cv2} (its : list Iteration) (e : FaceEmbedder) :
  dnn_unavailable e ->
  forall st, consistent st -> plain_state st e ->
             consistent (loop st its) /\ plain_state (loop st its) e.
Proof.
  intros Hdnn. induction its as [|it its IH]; intros st Hc Hp; simpl.
  - now split.
  - destruct (step st it) as [st'|] eqn:E; [|now split].
    destruct (step_keeps st st' it e Hdnn Hc Hp E) as [Hc' Hp'].
    now apply IH.
Qed.

(** X29.  The enrollment loop never holds more than 15 samples: started
    from consistent variables with the pretrained strategy not in use,
    after any passes it holds as many embeddings as crops, at most 15, fewer
    than 15 while still enrolling, every crop non-empty and every embedding
    of the embedder's dimension, and the embedder is unchanged. *)
Theorem enrollment_stays_consistent `{Cv2} (st : State)
  (its : list Iteration) :
  dnn_unavailable (embedder st) -> consistent st ->
  Forall (fun v => List.length v = embedding_size (embedder st))
    (captured_embeddings st) ->
  let st' := loop st its in
  List.length (captured_crops st') = List.length (captured_embeddings st') /\
  (List.length (captured_crops st') <= 15)%nat /\
  (enrolling st' = true -> (List.length (captured_crops st') < 15)%nat) /\
  Forall (fun crop => size crop <> 0%nat) (captured_crops st') /\
  embedder st' = embedder st /\
  Forall (fun v => List.length v = embedding_size (embedder st))
    (captured_embeddings st').
Proof.
  intros Hdnn Hc Hall st'.
  destruct (loop_keeps its (embedder st) Hdnn st Hc (conj eq_refl Hall))
    as ((C1 & C2 & C3 & C4) & P1 & P2).
  fold st' in C1, C2, C3, C4, P1, P2. repeat split; assumption.
Qed.

Lemma initial_consistent `{Cv2} : consistent initial.
Proof.
  unfold consistent, initial. simpl. repeat split; try lia. constructor.
Qed.

Lemma enrollment_stays_consistent_witness :
  (List.length (captured_crops
                  (@loop plain_cv2 initial [start_pass; capture_pass]))
   <= 15)%nat.
Proof.
  apply (@enrollment_stays_consistent plain_cv2 initial
           [start_pass; capture_pass]).
  - left. reflexivity.
  - exact initial_consistent.
  - constructor.
Defined.

(** X30.  The block after the loop: with no sample it reports failure;
    with at least one sample -- a single one is enough -- and embeddings of
    one length [n], it builds a template of length [n]: the mean of the
    samples divided by its norm plus 1e-8, recording the number of crops
    and [n].  With a single sample the template is that sample, divided in
    the same way. *)
Theorem finalize_builds_template `{Cv2} (st : State) (n : nat) :
  Forall (fun v => List.length v = n) (captured_embeddings st) ->
  (captured_embeddings st = [] -> finalize st = Ok None) /\
  (captured_embeddings st <> [] ->
   let mean := mean_axis0 (captured_embeddings st) in
   exists t,
     finalize st = Ok (Some t) /\
     template t = l2_normalize mean /\
     List.length (template t) = n /\
     meta_embedding_size t = n /\
     num_samples t = List.length (captured_crops st) /\
     (forall v, captured_embeddings st = [v] -> template t = l2_normalize v)).
Proof.
  intros Hall. unfold finalize. split.
  - intros ->. reflexivity.
  - intros Hne. cbv zeta.
    destruct (captured_embeddings st) as [|r rest] eqn:E; [contradiction|].
    rewrite (np_array_uniform n _ Hall). simpl bind.
    assert (L : List.length (l2_normalize (mean_axis0 (r :: rest))) = n)
      by (rewrite length_l2_normalize; now apply length_mean_axis0).
    eexists. split; [reflexivity|]. cbn [template meta_embedding_size num_samples].
    split; [reflexivity|]. split; [exact L|]. split; [exact L|].
    split; [reflexivity|].
    intros v Hv. injection Hv as -> ->.
    exact (f_equal l2_normalize (mean_axis0_single v)).
Qed.

Lemma finalize_builds_template_witness :
  exists t,
    @finalize plain_cv2 (mkState false [small_crop] [[3; 4]] new_embedder)
    = Ok (Some t) /\
    List.length (template t) = 2%nat.
Proof.
  destruct (@finalize_builds_template plain_cv2
              (mkState false [small_crop] [[3; 4]] new_embedder) 2)
    as [_ H].
  - repeat constructor.
  - destruct H as (t & H1 & _ & H2 & _); [discriminate|].
    exists t. split; assumption.
Defined.

End EnrollFacts.
